(** * Folder signing and verification (nvflare/lighter/utils.py)

    A shallow embedding of the signing half of [nvflare.lighter.utils]:
    [sign_content], [verify_content], [verify_cert], [sign_folders],
    [verify_folder_signature] and [sign_all], together with the parts of
    the Python run time they lean on (UTF-8, base64, the file system,
    [os.walk]).  The RSA primitives, the PEM and JSON readers and the two
    reserved file names of [nvflare.lighter.tool_consts] are parameters
    of the development, gathered in the class [Platform]. *)

From Stdlib Require Import NArith ZArith List Lia Bool.
From Stdlib Require Import Strings.Byte Strings.String Strings.Ascii.
From stdpp Require Import base option list gmap.

Set Warnings "-register-all".

Local Open Scope N_scope.

(** ** Python values *)

(** [bytes] objects are lists of bytes; [str] objects are lists of Unicode
    code points (Python strings may hold lone surrogates, which matters
    for [str.encode]). *)
Abbreviation bytes := (list byte).
Abbreviation pystr := (list N).

#[global] Instance byte_eq_decision : EqDecision byte := Byte.byte_eq_dec.

(** The exceptions that the modelled code can meet. *)
Inductive exn : Type :=
| UnicodeEncodeError
| UnicodeDecodeError
| Base64Error            (* binascii.Error *)
| InvalidSignature       (* cryptography.exceptions.InvalidSignature *)
| TypeError
| AttributeError
| ValueError             (* malformed PEM or JSON *)
| FileNotFoundError
| IsADirectoryError
| NotADirectoryError
| SameFileError          (* shutil.SameFileError *)
| OSError.

Inductive result (A : Type) : Type :=
| Ok (a : A)
| Raise (e : exn).
Arguments Ok {A} a.
Arguments Raise {A} e.

Definition rbind {A B} (r : result A) (k : A -> result B) : result B :=
  match r with
  | Ok a => k a
  | Raise e => Raise e
  end.

Definition is_ok {A} (r : result A) : bool :=
  match r with Ok _ => true | Raise _ => false end.

(** ** Bytes and code points *)

Definition byte_of_N (n : N) : byte :=
  match Byte.of_N (n mod 256) with
  | Some b => b
  | None => x00
  end.

Lemma byte_of_to_N (b : byte) : byte_of_N (Byte.to_N b) = b.
Proof.
  unfold byte_of_N.
  pose proof (Byte.to_N_bounded b) as Hb.
  rewrite N.mod_small by lia.
  now rewrite Byte.of_to_N.
Qed.

Lemma to_byte_of_N (n : N) : n < 256 -> Byte.to_N (byte_of_N n) = n.
Proof.
  intros Hn. unfold byte_of_N. rewrite N.mod_small by lia.
  destruct (Byte.of_N n) as [b|] eqn:E.
  - now apply Byte.to_of_N.
  - apply Byte.of_N_None_iff in E. lia.
Qed.

Lemma to_N_lt_256 (b : byte) : Byte.to_N b < 256.
Proof. pose proof (Byte.to_N_bounded b). lia. Qed.

(** ** UTF-8 ([str.encode("utf-8")] and [bytes.decode("utf-8")]) *)

(** One code point.  Surrogates (U+D800..U+DFFF) are refused, as is
    anything past U+10FFFF (which no [str] holds). *)
Definition utf8_encode_cp (c : N) : option bytes :=
  if c <? 0x80 then Some [byte_of_N c]
  else if c <? 0x800 then
    Some [byte_of_N (0xC0 + c / 64); byte_of_N (0x80 + c mod 64)]
  else if c <? 0x10000 then
    if (0xD800 <=? c) && (c <=? 0xDFFF) then None
    else Some [byte_of_N (0xE0 + c / 4096);
               byte_of_N (0x80 + (c / 64) mod 64);
               byte_of_N (0x80 + c mod 64)]
  else if c <? 0x110000 then
    Some [byte_of_N (0xF0 + c / 262144);
          byte_of_N (0x80 + (c / 4096) mod 64);
          byte_of_N (0x80 + (c / 64) mod 64);
          byte_of_N (0x80 + c mod 64)]
  else None.

Fixpoint utf8_encode (s : pystr) : result bytes :=
  match s with
  | [] => Ok []
  | c :: s' =>
      match utf8_encode_cp c with
      | None => Raise UnicodeEncodeError
      | Some bs => rbind (utf8_encode s') (fun rest => Ok (bs ++ rest))
      end
  end.

Definition is_cont (n : N) : bool := (0x80 <=? n) && (n <=? 0xBF).

(** Strict decoding of well-formed UTF-8 (Unicode table 3-7): no overlong
    forms, no surrogates, nothing past U+10FFFF. *)
Fixpoint utf8_decode (bs : bytes) : result pystr :=
  match bs with
  | [] => Ok []
  | b0 :: r0 =>
      let n0 := Byte.to_N b0 in
      if n0 <? 0x80 then rbind (utf8_decode r0) (fun s => Ok (n0 :: s))
      else
        match r0 with
        | [] => Raise UnicodeDecodeError
        | b1 :: r1 =>
            let n1 := Byte.to_N b1 in
            if (0xC2 <=? n0) && (n0 <=? 0xDF) then
              if is_cont n1
              then rbind (utf8_decode r1)
                     (fun s => Ok ((n0 - 0xC0) * 64 + (n1 - 0x80) :: s))
              else Raise UnicodeDecodeError
            else
              match r1 with
              | [] => Raise UnicodeDecodeError
              | b2 :: r2 =>
                  let n2 := Byte.to_N b2 in
                  if (0xE0 <=? n0) && (n0 <=? 0xEF) then
                    if (if n0 =? 0xE0 then (0xA0 <=? n1) && (n1 <=? 0xBF)
                        else if n0 =? 0xED then (0x80 <=? n1) && (n1 <=? 0x9F)
                        else is_cont n1) && is_cont n2
                    then rbind (utf8_decode r2)
                           (fun s => Ok ((n0 - 0xE0) * 4096 + (n1 - 0x80) * 64
                                         + (n2 - 0x80) :: s))
                    else Raise UnicodeDecodeError
                  else
                    match r2 with
                    | [] => Raise UnicodeDecodeError
                    | b3 :: r3 =>
                        let n3 := Byte.to_N b3 in
                        if (0xF0 <=? n0) && (n0 <=? 0xF4) then
                          if (if n0 =? 0xF0 then (0x90 <=? n1) && (n1 <=? 0xBF)
                              else if n0 =? 0xF4
                                   then (0x80 <=? n1) && (n1 <=? 0x8F)
                                   else is_cont n1)
                             && is_cont n2 && is_cont n3
                          then rbind (utf8_decode r3)
                                 (fun s => Ok ((n0 - 0xF0) * 262144
                                               + (n1 - 0x80) * 4096
                                               + (n2 - 0x80) * 64
                                               + (n3 - 0x80) :: s))
                          else Raise UnicodeDecodeError
                        else Raise UnicodeDecodeError
                    end
              end
        end
  end.

(** Text that [str.encode("utf-8")] accepts. *)
Definition utf8_encodable (s : pystr) : bool :=
  forallb (fun c => (c <? 0x110000) && negb ((0xD800 <=? c) && (c <=? 0xDFFF))) s.

(** ** Base64 ([base64.b64encode] and [base64.b64decode]) *)

Definition BASE64_PAD : byte := "="%byte.

(** The standard alphabet, from a 6-bit value to its character. *)
Definition table_b2a_base64 (i : N) : byte :=
  if i <? 26 then byte_of_N (65 + i)
  else if i <? 52 then byte_of_N (97 + (i - 26))
  else if i <? 62 then byte_of_N (48 + (i - 52))
  else if i =? 62 then "+"%byte
  else "/"%byte.

(** The reverse table of [binascii]; [None] for a byte outside the
    alphabet (the padding character included). *)
Definition table_a2b_base64 (b : byte) : option N :=
  let n := Byte.to_N b in
  if (65 <=? n) && (n <=? 90) then Some (n - 65)
  else if (97 <=? n) && (n <=? 122) then Some (n - 97 + 26)
  else if (48 <=? n) && (n <=? 57) then Some (n - 48 + 52)
  else if n =? 43 then Some 62
  else if n =? 47 then Some 63
  else None.

Fixpoint b64encode (s : bytes) : bytes :=
  match s with
  | [] => []
  | [a] =>
      let x := Byte.to_N a in
      [table_b2a_base64 (x / 4); table_b2a_base64 ((x mod 4) * 16);
       BASE64_PAD; BASE64_PAD]
  | [a; b] =>
      let x := Byte.to_N a in
      let y := Byte.to_N b in
      [table_b2a_base64 (x / 4);
       table_b2a_base64 ((x mod 4) * 16 + y / 16);
       table_b2a_base64 ((y mod 16) * 4);
       BASE64_PAD]
  | a :: b :: c :: rest =>
      let x := Byte.to_N a in
      let y := Byte.to_N b in
      let z := Byte.to_N c in
      table_b2a_base64 (x / 4)
      :: table_b2a_base64 ((x mod 4) * 16 + y / 16)
      :: table_b2a_base64 ((y mod 16) * 4 + z / 64)
      :: table_b2a_base64 (z mod 64)
      :: b64encode rest
  end.

(** [binascii.a2b_base64] in its default, lenient mode: bytes outside the
    alphabet are dropped, a padding run that completes a quad ends the
    input, and leftover characters are an error. *)
Fixpoint a2b_base64_loop (s : bytes) (quad_pos leftchar pads : N) (out : bytes)
  : result bytes :=
  match s with
  | [] => if quad_pos =? 0 then Ok out else Raise Base64Error
  | ch :: s' =>
      if Byte.eqb ch BASE64_PAD then
        if (2 <=? quad_pos) && (4 <=? quad_pos + (pads + 1)) then Ok out
        else a2b_base64_loop s' quad_pos leftchar
               (if 2 <=? quad_pos then pads + 1 else pads) out
      else
        match table_a2b_base64 ch with
        | None => a2b_base64_loop s' quad_pos leftchar pads out
        | Some v =>
            if quad_pos =? 0 then a2b_base64_loop s' 1 v 0 out
            else if quad_pos =? 1 then
              a2b_base64_loop s' 2 (N.land v 0x0f) 0
                (out ++ [byte_of_N (N.lor (N.shiftl leftchar 2) (N.shiftr v 4))])
            else if quad_pos =? 2 then
              a2b_base64_loop s' 3 (N.land v 0x03) 0
                (out ++ [byte_of_N (N.lor (N.shiftl leftchar 4) (N.shiftr v 2))])
            else
              a2b_base64_loop s' 0 0 0
                (out ++ [byte_of_N (N.lor (N.shiftl leftchar 6) v)])
        end
  end.

Definition b64decode (s : bytes) : result bytes := a2b_base64_loop s 0 0 0 [].

(** *** Base64 round trip *)

Definition all_below (n : nat) (f : N -> bool) : bool :=
  forallb f (map N.of_nat (seq 0 n)).

Lemma all_below_spec (n : nat) (f : N -> bool) :
  all_below n f = true -> forall i, i < N.of_nat n -> f i = true.
Proof.
  unfold all_below. intros H i Hi.
  rewrite forallb_forall in H. apply H.
  apply in_map_iff. exists (N.to_nat i). split; [lia|].
  apply in_seq. lia.
Qed.

Lemma table_base64_inv (i : N) :
  i < 64 ->
  table_a2b_base64 (table_b2a_base64 i) = Some i
  /\ Byte.eqb (table_b2a_base64 i) BASE64_PAD = false
  /\ Byte.to_N (table_b2a_base64 i) < 128.
Proof.
  intros Hi.
  pose proof (all_below_spec 64
    (fun i => match table_a2b_base64 (table_b2a_base64 i) with
              | Some j => (j =? i)
                          && negb (Byte.eqb (table_b2a_base64 i) BASE64_PAD)
                          && (Byte.to_N (table_b2a_base64 i) <? 128)
              | None => false
              end)) as H.
  specialize (H ltac:(vm_compute; reflexivity) i Hi). cbv beta in H.
  destruct (table_a2b_base64 (table_b2a_base64 i)) as [j|]; [|discriminate].
  apply andb_prop in H as [H H3]. apply andb_prop in H as [H1 H2].
  apply N.eqb_eq in H1. apply N.ltb_lt in H3.
  apply negb_true_iff in H2. subst j. auto.
Qed.

(** The three bytes of a quad, rebuilt from its four 6-bit values. *)
Lemma quad_byte0 (x q : N) :
  x < 256 -> q < 16 ->
  N.lor (N.shiftl (x / 4) 2) (N.shiftr ((x mod 4) * 16 + q) 4) = x.
Proof.
  intros Hx Hq.
  pose proof (all_below_spec 256 (fun x => all_below 16 (fun q =>
    N.lor (N.shiftl (x / 4) 2) (N.shiftr ((x mod 4) * 16 + q) 4) =? x))
    ltac:(vm_compute; reflexivity) x Hx) as H.
  cbv beta in H. apply N.eqb_eq.
  exact (all_below_spec 16 _ H q Hq).
Qed.

Lemma quad_byte1 (a y c : N) :
  a < 4 -> y < 256 -> c < 4 ->
  N.lor (N.shiftl (N.land (a * 16 + y / 16) 0x0f) 4)
        (N.shiftr ((y mod 16) * 4 + c) 2) = y.
Proof.
  intros Ha Hy Hc.
  pose proof (all_below_spec 4 (fun a => all_below 256 (fun y =>
    all_below 4 (fun c =>
      N.lor (N.shiftl (N.land (a * 16 + y / 16) 0x0f) 4)
            (N.shiftr ((y mod 16) * 4 + c) 2) =? y)))
    ltac:(vm_compute; reflexivity) a Ha) as H.
  cbv beta in H. apply N.eqb_eq.
  exact (all_below_spec 4 _ (all_below_spec 256 _ H y Hy) c Hc).
Qed.

Lemma quad_byte2 (b z : N) :
  b < 16 -> z < 256 ->
  N.lor (N.shiftl (N.land (b * 4 + z / 64) 0x03) 6) (z mod 64) = z.
Proof.
  intros Hb Hz.
  pose proof (all_below_spec 16 (fun b => all_below 256 (fun z =>
    N.lor (N.shiftl (N.land (b * 4 + z / 64) 0x03) 6) (z mod 64) =? z))
    ltac:(vm_compute; reflexivity) b Hb) as H.
  cbv beta in H. apply N.eqb_eq.
  exact (all_below_spec 256 _ H z Hz).
Qed.

Lemma list_ind3 {A} (P : list A -> Prop) :
  P [] -> (forall a, P [a]) -> (forall a b, P [a; b]) ->
  (forall a b c l, P l -> P (a :: b :: c :: l)) ->
  forall l, P l.
Proof.
  intros H0 H1 H2 H3 l.
  assert (P l /\ (forall a, P (a :: l)) /\ (forall a b, P (a :: b :: l)))
    as [? _]; [|assumption].
  induction l as [|x l (IH0 & IH1 & IH2)]; [now auto|].
  repeat split; auto.
Qed.

(** One decoding step on a character of the alphabet. *)
Lemma a2b_base64_loop_char (v : N) (s : bytes) quad_pos leftchar pads out :
  v < 64 ->
  a2b_base64_loop (table_b2a_base64 v :: s) quad_pos leftchar pads out =
    if quad_pos =? 0 then a2b_base64_loop s 1 v 0 out
    else if quad_pos =? 1 then
      a2b_base64_loop s 2 (N.land v 0x0f) 0
        (out ++ [byte_of_N (N.lor (N.shiftl leftchar 2) (N.shiftr v 4))])
    else if quad_pos =? 2 then
      a2b_base64_loop s 3 (N.land v 0x03) 0
        (out ++ [byte_of_N (N.lor (N.shiftl leftchar 4) (N.shiftr v 2))])
    else
      a2b_base64_loop s 0 0 0
        (out ++ [byte_of_N (N.lor (N.shiftl leftchar 6) v)]).
Proof.
  intros Hv. destruct (table_base64_inv v Hv) as (Ht & Hp & _).
  cbn [a2b_base64_loop]. now rewrite Hp, Ht.
Qed.

Lemma sextet_bounds (x y z : N) :
  x < 256 -> y < 256 -> z < 256 ->
  x / 4 < 64 /\ (x mod 4) * 16 + y / 16 < 64 /\ (y mod 16) * 4 + z / 64 < 64
  /\ z mod 64 < 64 /\ x mod 4 < 4 /\ y / 16 < 16 /\ y mod 16 < 16 /\ z / 64 < 4.
Proof.
  intros Hx Hy Hz.
  pose proof (N.mod_upper_bound x 4 ltac:(lia)).
  pose proof (N.mod_upper_bound y 16 ltac:(lia)).
  pose proof (N.mod_upper_bound z 64 ltac:(lia)).
  assert (x / 4 < 64) by (apply N.Div0.div_lt_upper_bound; lia).
  assert (y / 16 < 16) by (apply N.Div0.div_lt_upper_bound; lia).
  assert (z / 64 < 4) by (apply N.Div0.div_lt_upper_bound; lia).
  repeat split; lia.
Qed.

Lemma b64decode_b64encode_loop (s : bytes) :
  forall out, a2b_base64_loop (b64encode s) 0 0 0 out = Ok (out ++ s).
Proof.
  induction s as [|a|a b|a b c l IH] using list_ind3; intros out.
  - cbn. now rewrite app_nil_r.
  - pose proof (to_N_lt_256 a) as Ha.
    destruct (sextet_bounds _ 0 0 Ha ltac:(lia) ltac:(lia))
      as (B0 & B1 & _ & _ & Bm & _).
    cbn [b64encode]. rewrite a2b_base64_loop_char by assumption. cbn [N.eqb].
    replace (Byte.to_N a mod 4 * 16) with (Byte.to_N a mod 4 * 16 + 0 / 16)
      by (change (0 / 16) with 0; lia).
    rewrite a2b_base64_loop_char by assumption. cbn [N.eqb Pos.eqb].
    change (0 / 16) with 0.
    rewrite quad_byte0 by lia. rewrite byte_of_to_N. reflexivity.
  - pose proof (to_N_lt_256 a) as Ha. pose proof (to_N_lt_256 b) as Hb.
    destruct (sextet_bounds _ _ 0 Ha Hb ltac:(lia))
      as (B0 & B1 & B2 & _ & Bm & Bd & Bm' & _).
    cbn [b64encode]. rewrite a2b_base64_loop_char by assumption. cbn [N.eqb].
    rewrite a2b_base64_loop_char by assumption. cbn [N.eqb Pos.eqb].
    replace (Byte.to_N b mod 16 * 4) with (Byte.to_N b mod 16 * 4 + 0 / 64)
      by (change (0 / 64) with 0; lia).
    rewrite a2b_base64_loop_char by assumption. cbn [N.eqb Pos.eqb].
    change (0 / 64) with 0.
    rewrite quad_byte0 by lia.
    pose proof (quad_byte1 (Byte.to_N a mod 4) (Byte.to_N b) 0 Bm Hb ltac:(lia)) as Q.
    rewrite Q. rewrite !byte_of_to_N. cbn. now rewrite <- app_assoc.
  - pose proof (to_N_lt_256 a) as Ha. pose proof (to_N_lt_256 b) as Hb.
    pose proof (to_N_lt_256 c) as Hc.
    destruct (sextet_bounds _ _ _ Ha Hb Hc)
      as (B0 & B1 & B2 & B3 & Bm & Bd & Bm' & Bd').
    cbn [b64encode].
    rewrite a2b_base64_loop_char by assumption. cbn [N.eqb].
    rewrite a2b_base64_loop_char by assumption. cbn [N.eqb Pos.eqb].
    rewrite a2b_base64_loop_char by assumption. cbn [N.eqb Pos.eqb].
    rewrite a2b_base64_loop_char by assumption. cbn [N.eqb Pos.eqb].
    rewrite quad_byte0 by lia.
    rewrite (quad_byte1 _ _ _ Bm Hb Bd').
    rewrite (quad_byte2 _ _ Bm' Hc).
    rewrite !byte_of_to_N, IH, <- !app_assoc. reflexivity.
Qed.

Lemma b64decode_b64encode (s : bytes) : b64decode (b64encode s) = Ok s.
Proof. unfold b64decode. now rewrite b64decode_b64encode_loop. Qed.

Example b64encode_foobar :
  b64encode ["f"; "o"; "o"; "b"; "a"]%byte
  = ["Z"; "m"; "9"; "v"; "Y"; "m"; "E"; "="]%byte.
Proof. reflexivity. Qed.

Example b64decode_lenient :
  b64decode ["Z"; "m"; " "; "9"; "v"; "="; "="; "="]%byte
  = Ok ["f"; "o"; "o"]%byte.
Proof. reflexivity. Qed.

Example b64decode_bad_padding :
  b64decode ["Z"; "m"; "9"]%byte = Raise Base64Error.
Proof. reflexivity. Qed.

(** ** Python objects

    The values that travel through the modelled functions: what
    [json.load] returns, the contents handed to [sign_content], and the
    signatures it returns.  A float is kept only up to whether it is zero,
    which is all that a truth test sees. *)
Inductive pyobj : Type :=
| PNone
| PBool (b : bool)
| PInt (z : Z)
| PFloat (nonzero : bool)
| PStr (s : pystr)
| PBytes (b : bytes)
| PList (items : list pyobj)
| PDict (fields : gmap pystr pyobj).

(** Python truthiness ([if signature:]). *)
Definition truthy (v : pyobj) : bool :=
  match v with
  | PNone => false
  | PBool b => b
  | PInt z => negb (Z.eqb z 0)
  | PFloat nz => nz
  | PStr s => match s with [] => false | _ => true end
  | PBytes b => match b with [] => false | _ => true end
  | PList l => match l with [] => false | _ => true end
  | PDict m => negb (bool_decide (m = ∅))
  end.

(** [obj.get(key)]: only a dict has the method; a missing key gives
    [None]. *)
Definition py_get (obj : pyobj) (key : pystr) : result pyobj :=
  match obj with
  | PDict m => Ok (default PNone (m !! key))
  | _ => Raise AttributeError
  end.

(** ** The cryptography package *)

Inductive hash_algorithm : Type := MD5 | SHA1 | SHA224 | SHA256 | SHA384 | SHA512.
Inductive mgf : Type := MGF1 (h : hash_algorithm).
Inductive salt_length : Type := MAX_LENGTH | DIGEST_LENGTH | Salt (n : N).
Inductive padding : Type :=
| PSS (m : mgf) (sl : salt_length)
| PKCS1v15.

(** An [x509.Certificate], over the type of public keys: the three fields
    that [verify_cert] reads, the subject's key, and the validity
    period. *)
Record certificate (key : Type) : Type := Certificate {
  cert_signature : bytes;
  tbs_certificate_bytes : bytes;
  signature_hash_algorithm : hash_algorithm;
  cert_public_key : key;
  not_valid_before : Z;
  not_valid_after : Z
}.
Arguments Certificate {key}.
Arguments cert_signature {key}.
Arguments tbs_certificate_bytes {key}.
Arguments signature_hash_algorithm {key}.
Arguments cert_public_key {key}.
Arguments not_valid_before {key}.
Arguments not_valid_after {key}.

(** What the development takes from outside [utils.py]:
    - an RSA implementation ([private_key.sign], [public_key.verify]);
      signing takes the random bytes that a probabilistic padding draws;
    - the operating system's random source, as the sequence of its draws;
    - the PEM reader of X.509 certificates, the JSON reader and writer;
    - the two names of [nvflare.lighter.tool_consts]. *)
Class Platform : Type := {
  private_key : Type;
  public_key : Type;
  rsa_public_key : private_key -> public_key;
  rsa_sign : private_key -> bytes -> padding -> hash_algorithm -> bytes -> bytes;
  rsa_verify : public_key -> bytes -> bytes -> padding -> hash_algorithm -> bool;
  os_urandom : nat -> bytes;
  load_pem_x509_certificate : bytes -> option (certificate public_key);
  json_loads : bytes -> option pyobj;
  json_dumps : gmap pystr pyobj -> bytes;
  NVFLARE_SIG_FILE : pystr;
  NVFLARE_SUBMITTER_CRT_FILE : pystr
}.

(** An RSA implementation is correct when a signature made with a private
    key verifies under its public key, for the same data, padding and
    hash. *)
Definition rsa_correct (P : Platform) : Prop :=
  forall (sk : private_key) data pad h rnd,
    rsa_verify (rsa_public_key sk) (rsa_sign sk data pad h rnd) data pad h = true.

(** ** The file system *)

(** A directory lists its entries in the order in which [os.scandir]
    yields them.  [Special] stands for an entry that is neither a
    directory nor a regular file and that [open] refuses (a socket). *)
Inductive node : Type :=
| File (data : bytes)
| Dir (entries : list (pystr * node))
| Special.

Abbreviation path := (list pystr).

Definition is_dir (c : node) : bool :=
  match c with Dir _ => true | _ => false end.

Definition is_file (c : node) : bool :=
  match c with File _ => true | _ => false end.

Fixpoint entry (name : pystr) (es : list (pystr * node)) : option node :=
  match es with
  | [] => None
  | (n, c) :: es' => if decide (n = name) then Some c else entry name es'
  end.

(** Replaces the entry called [name], or adds it at the end. *)
Fixpoint set_entry (name : pystr) (c : node) (es : list (pystr * node))
  : list (pystr * node) :=
  match es with
  | [] => [(name, c)]
  | (n, c0) :: es' =>
      if decide (n = name) then (n, c) :: es' else (n, c0) :: set_entry name c es'
  end.

Fixpoint remove_entry (name : pystr) (es : list (pystr * node))
  : list (pystr * node) :=
  match es with
  | [] => []
  | (n, c) :: es' =>
      if decide (n = name) then es' else (n, c) :: remove_entry name es'
  end.

Fixpoint lookup_path (t : node) (p : path) : option node :=
  match p with
  | [] => Some t
  | name :: p' =>
      match t with
      | Dir es =>
          match entry name es with
          | Some c => lookup_path c p'
          | None => None
          end
      | _ => None
      end
  end.

(** The names of the subdirectories and of the other entries of a
    directory, as [os.walk] splits them. *)
Definition dirnames (es : list (pystr * node)) : list pystr :=
  omap (fun e => if is_dir (snd e) then Some (fst e) else None) es.

Definition filenames (es : list (pystr * node)) : list pystr :=
  omap (fun e => if is_dir (snd e) then None else Some (fst e)) es.

(** Why a path names nothing: an entry on the way is missing
    ([FileNotFoundError]), or the way runs through an entry that is no
    directory ([NotADirectoryError]). *)
Fixpoint lookup_failure (t : node) (p : path) : exn :=
  match p with
  | [] => FileNotFoundError
  | name :: p' =>
      match t with
      | Dir es =>
          match entry name es with
          | Some c => lookup_failure c p'
          | None => FileNotFoundError
          end
      | _ => NotADirectoryError
      end
  end.

(** [open(p, "rb").read()]. *)
Definition read_node (t : node) (p : path) : result bytes :=
  match lookup_path t p with
  | Some (File data) => Ok data
  | Some (Dir _) => Raise IsADirectoryError
  | Some Special => Raise OSError
  | None => Raise (lookup_failure t p)
  end.

(** [open(p, "wb").write(data)]: the parent must be a directory; a regular
    file of that name is replaced, a missing one is created. *)
Fixpoint write_node (t : node) (p : path) (data : bytes) : result node :=
  match p with
  | [] => Raise IsADirectoryError
  | name :: p' =>
      match t with
      | Dir es =>
          match p' with
          | [] =>
              match entry name es with
              | Some (Dir _) => Raise IsADirectoryError
              | Some Special => Raise OSError
              | Some (File _) | None => Ok (Dir (set_entry name (File data) es))
              end
          | _ :: _ =>
              match entry name es with
              | Some c =>
                  rbind (write_node c p' data)
                    (fun c' => Ok (Dir (set_entry name c' es)))
              | None => Raise FileNotFoundError
              end
          end
      | _ => Raise NotADirectoryError
      end
  end.

(** [os.remove(p)] for a path that names a regular file (any other path
    leaves the tree as it is); used to state what deleting a file does to
    verification. *)
Fixpoint remove_node (t : node) (p : path) : node :=
  match p with
  | [] => t
  | name :: p' =>
      match t with
      | Dir es =>
          match p' with
          | [] =>
              match entry name es with
              | Some (File _) => Dir (remove_entry name es)
              | _ => t
              end
          | _ :: _ =>
              match entry name es with
              | Some c => Dir (set_entry name (remove_node c p') es)
              | None => t
              end
          end
      | _ => t
      end
  end.

(** One item of [os.walk]: [(root, folders, files)]. *)
Definition walk_item : Type := path * list pystr * list pystr.

(** [os.walk(top)], top down, symbolic links apart: the directory itself,
    then the walk of each subdirectory in listing order.  A [top] that is
    not a directory yields nothing. *)
Fixpoint walk (top : path) (t : node) {struct t} : list walk_item :=
  match t with
  | Dir es =>
      (top, dirnames es, filenames es)
      :: (fix walk_entries (l : list (pystr * node)) : list walk_item :=
            match l with
            | [] => []
            | (name, c) :: l' => walk (top ++ [name]) c ++ walk_entries l'
            end) es
  | _ => []
  end.

Definition os_walk (t : node) (top : path) : list walk_item :=
  match lookup_path t top with
  | Some c => walk top c
  | None => []
  end.

(** ** Effects

    Signing runs in [M]: it reads and writes the file system, draws
    random bytes, and may raise.  What was written before an exception
    stays written. *)
Record world : Type := World {
  fs : node;       (* the file system *)
  drawn : nat      (* how many draws were made from os.urandom *)
}.

Definition M (A : Type) : Type := world -> result A * world.

Definition ret {A} (a : A) : M A := fun w => (Ok a, w).
Definition raise {A} (e : exn) : M A := fun w => (Raise e, w).
Definition lift {A} (r : result A) : M A := fun w => (r, w).

Definition bind {A B} (m : M A) (k : A -> M B) : M B :=
  fun w =>
    match m w with
    | (Ok a, w') => k a w'
    | (Raise e, w') => (Raise e, w')
    end.

Declare Scope M_scope.
Delimit Scope M_scope with M.
Notation "x <- m ;; k" := (bind m (fun x => k))
  (at level 100, m at next level, right associativity) : M_scope.
Notation "m ;; k" := (bind m (fun _ => k))
  (at level 100, right associativity) : M_scope.

Definition open_read (p : path) : M bytes :=
  fun w => (read_node (fs w) p, w).

Definition open_write (p : path) (data : bytes) : M unit :=
  fun w =>
    match write_node (fs w) p data with
    | Ok t' => (Ok tt, World t' (drawn w))
    | Raise e => (Raise e, w)
    end.

Definition os_listdir (p : path) : M (list pystr) :=
  fun w =>
    match lookup_path (fs w) p with
    | Some (Dir es) => (Ok (map fst es), w)
    | Some _ => (Raise NotADirectoryError, w)
    | None => (Raise (lookup_failure (fs w) p), w)
    end.

Definition os_path_isfile (p : path) : M bool :=
  fun w =>
    (Ok (match lookup_path (fs w) p with Some c => is_file c | None => false end), w).

(** [shutil.copyfile(src, dst)]: refused when both paths name one existing
    file. *)
Definition shutil_copyfile (src dst : path) : M unit :=
  fun w =>
    if bool_decide (src = dst) && bool_decide (is_Some (lookup_path (fs w) src))
    then (Raise SameFileError, w)
    else (data <- open_read src ;; open_write dst data)%M w.

(** The items of [os.walk], taken from the file system as it is when the
    loop starts.  The generator lists a directory only when the loop
    reaches it, but the loops below write nothing into a directory before
    they reach it, so it finds there what it would have found at the
    start ([sign_folders_lazy_adequate] below proves it for
    [sign_folders]; [verify_folder_signature] writes nothing). *)
Definition os_walk_items (top : path) : M (list walk_item) :=
  fun w => (Ok (os_walk (fs w) top), w).

(** Verification runs in [V]: it reads the file system and may raise.  It
    also keeps a log of the checks that it makes, which is no part of the
    Python code: the log lets a theorem say what was examined and what was
    not. *)
Inductive event : Type :=
| Visited (root : path)                        (* the loop body began *)
| CertVerified (root : path)                   (* verify_cert was called *)
| ContentVerified (root : path) (name : pystr). (* verify_content was called *)

Definition V (A : Type) : Type := node -> result A * list event.

Definition vret {A} (a : A) : V A := fun _ => (Ok a, []).
Definition vlift {A} (r : result A) : V A := fun _ => (r, []).
Definition emit (e : event) : V unit := fun _ => (Ok tt, [e]).

Definition vbind {A B} (m : V A) (k : A -> V B) : V B :=
  fun t =>
    match m t with
    | (Ok a, evs) => let (r, evs') := k a t in (r, evs ++ evs')
    | (Raise e, evs) => (Raise e, evs)
    end.

(** [try: m except: ...], the handler being left to the caller. *)
Definition vtry {A} (m : V A) : V (result A) :=
  fun t => let (r, evs) := m t in (Ok r, evs).

Declare Scope V_scope.
Delimit Scope V_scope with V.
Notation "x <- m ;; k" := (vbind m (fun x => k))
  (at level 100, m at next level, right associativity) : V_scope.
Notation "m ;; k" := (vbind m (fun _ => k))
  (at level 100, right associativity) : V_scope.

(** [for x in l: body(x)], an exception ending the loop. *)
Fixpoint vfor {A} (l : list A) (body : A -> V unit) : V unit :=
  match l with
  | [] => vret tt
  | x :: l' => (body x ;; vfor l' body)%V
  end.

Definition vread (p : path) : V bytes := fun t => (read_node t p, []).

Definition vwalk (top : path) : V (list walk_item) :=
  fun t => (Ok (os_walk t top), []).

(** ** nvflare/lighter/utils.py *)

Section Utils.
Context {P : Platform}.

Definition urandom : M bytes :=
  fun w => (Ok (os_urandom (drawn w)), World (fs w) (S (drawn w))).

(** [private_key.sign(data, padding, algorithm)]: the data must be bytes;
    a PSS padding draws its salt. *)
Definition private_key_sign (key : private_key) (data : pyobj)
    (pad : padding) (algorithm : hash_algorithm) : M bytes :=
  match data with
  | PBytes d =>
      match pad with
      | PSS _ _ => (rnd <- urandom ;; ret (rsa_sign key d pad algorithm rnd))%M
      | PKCS1v15 => ret (rsa_sign key d pad algorithm [])
      end
  | _ => raise TypeError
  end.

(** [public_key.verify(signature, data, padding, algorithm)]: both
    arguments must be bytes; a mismatch raises [InvalidSignature]. *)
Definition public_key_verify (key : public_key) (signature data : pyobj)
    (pad : padding) (algorithm : hash_algorithm) : result unit :=
  match signature, data with
  | PBytes s, PBytes d =>
      if rsa_verify key s d pad algorithm then Ok tt else Raise InvalidSignature
  | _, _ => Raise TypeError
  end.

Definition _content_padding : padding := PSS (MGF1 SHA256) MAX_LENGTH.

Definition _content_hash_algo : hash_algorithm := SHA256.

(** [if isinstance(content, str): content = content.encode("utf-8")] *)
Definition encode_if_str (content : pyobj) : result pyobj :=
  match content with
  | PStr s => rbind (utf8_encode s) (fun b => Ok (PBytes b))
  | _ => Ok content
  end.

Definition sign_content (content : pyobj) (signing_pri_key : private_key)
    (return_str : bool) : M pyobj :=
  (content <- lift (encode_if_str content) ;;
   signature <- private_key_sign signing_pri_key content
                  _content_padding _content_hash_algo ;;
   if return_str
   then s <- lift (utf8_decode (b64encode signature)) ;; ret (PStr s)
   else ret (PBytes signature))%M.

Definition verify_content (content signature : pyobj) (public_key : public_key)
  : result unit :=
  rbind (encode_if_str content) (fun content =>
  rbind (match signature with
         | PStr s =>
             rbind (utf8_encode s) (fun b =>
             rbind (b64decode b) (fun d => Ok (PBytes d)))
         | _ => Ok signature
         end) (fun signature =>
  public_key_verify public_key signature content
    _content_padding _content_hash_algo)).

Definition verify_cert (cert_to_be_verified : certificate public_key)
    (root_ca_public_key : public_key) : result unit :=
  public_key_verify root_ca_public_key
    (PBytes (cert_signature cert_to_be_verified))
    (PBytes (tbs_certificate_bytes cert_to_be_verified))
    PKCS1v15
    (signature_hash_algorithm cert_to_be_verified).

Definition load_crt_bytes (data : bytes) : result (certificate public_key) :=
  match load_pem_x509_certificate data with
  | Some c => Ok c
  | None => Raise ValueError
  end.

Definition reserved (name : pystr) : bool :=
  bool_decide (name = NVFLARE_SIG_FILE)
  || bool_decide (name = NVFLARE_SUBMITTER_CRT_FILE).

(** *** sign_folders *)

(** The first inner loop: [for file in files]. *)
Fixpoint sign_files (root : path) (files : list pystr)
    (signing_pri_key : private_key) (signatures : gmap pystr pyobj)
  : M (gmap pystr pyobj) :=
  match files with
  | [] => ret signatures
  | file :: files' =>
      if reserved file
      then sign_files root files' signing_pri_key signatures
      else
        (data <- open_read (root ++ [file]) ;;
         s <- sign_content (PBytes data) signing_pri_key true ;;
         sign_files root files' signing_pri_key (<[file := s]> signatures))%M
  end.

(** The second inner loop: [for folder in folders]. *)
Fixpoint sign_names (folders : list pystr) (signing_pri_key : private_key)
    (signatures : gmap pystr pyobj) : M (gmap pystr pyobj) :=
  match folders with
  | [] => ret signatures
  | folder :: folders' =>
      (s <- sign_content (PStr folder) signing_pri_key true ;;
       sign_names folders' signing_pri_key (<[folder := s]> signatures))%M
  end.

(** The [signatures] dict of one visited directory, as it stands when it
    is dumped. *)
Definition collect_signatures (item : walk_item) (signing_pri_key : private_key)
  : M (gmap pystr pyobj) :=
  let '(root, folders, files) := item in
  (signatures <- sign_files root files signing_pri_key ∅ ;;
   sign_names folders signing_pri_key signatures)%M.

(** The body of the loop, up to the test of [depth]. *)
Definition sign_folder (item : walk_item) (signing_pri_key : private_key)
    (crt_path : path) : M unit :=
  let '(root, folders, files) := item in
  (signatures <- collect_signatures item signing_pri_key ;;
   open_write (root ++ [NVFLARE_SIG_FILE]) (json_dumps signatures) ;;
   shutil_copyfile crt_path (root ++ [NVFLARE_SUBMITTER_CRT_FILE]))%M.

Fixpoint sign_folders_loop (items : list walk_item)
    (signing_pri_key : private_key) (crt_path : path) (max_depth depth : Z)
  : M unit :=
  match items with
  | [] => ret tt
  | item :: items' =>
      let depth := (depth + 1)%Z in
      (sign_folder item signing_pri_key crt_path ;;
       if (depth >=? max_depth)%Z
       then ret tt                                            (* break *)
       else sign_folders_loop items' signing_pri_key crt_path max_depth depth)%M
  end.

Definition sign_folders (folder : path) (signing_pri_key : private_key)
    (crt_path : path) (max_depth : Z) : M unit :=
  (items <- os_walk_items folder ;;
   sign_folders_loop items signing_pri_key crt_path max_depth 0)%M.

(** *** sign_all *)

Fixpoint sign_all_loop (content_folder : path) (names : list pystr)
    (signing_pri_key : private_key) (signatures : gmap pystr pyobj)
  : M (gmap pystr pyobj) :=
  match names with
  | [] => ret signatures
  | f :: names' =>
      let f_path := content_folder ++ [f] in
      (isfile <- os_path_isfile f_path ;;
       if isfile : bool
       then
         data <- open_read f_path ;;
         s <- sign_content (PBytes data) signing_pri_key true ;;
         sign_all_loop content_folder names' signing_pri_key
           (<[f := s]> signatures)
       else sign_all_loop content_folder names' signing_pri_key signatures)%M
  end.

Definition sign_all (content_folder : path) (signing_pri_key : private_key)
  : M (gmap pystr pyobj) :=
  (names <- os_listdir content_folder ;;
   sign_all_loop content_folder names signing_pri_key ∅)%M.

(** *** verify_folder_signature *)

Definition load_crt (p : path) : V (certificate public_key) :=
  (data <- vread p ;; vlift (load_crt_bytes data))%V.

(** [json.load(open(p, "rt"))] *)
Definition json_load (p : path) : V pyobj :=
  (data <- vread p ;;
   vlift (match json_loads data with
          | Some v => Ok v
          | None => Raise ValueError
          end))%V.

(** What the inner [try] binds: [signatures], [cert], [public_key]. *)
Definition load_signatures (root : path)
  : V (pyobj * certificate public_key * public_key) :=
  (signatures <- json_load (root ++ [NVFLARE_SIG_FILE]) ;;
   cert <- load_crt (root ++ [NVFLARE_SUBMITTER_CRT_FILE]) ;;
   vret (signatures, cert, cert_public_key cert))%V.

Definition verify_file (root : path) (signatures : pyobj)
    (public_key : public_key) (file : pystr) : V unit :=
  if reserved file then vret tt                               (* continue *)
  else
    (signature <- vlift (py_get signatures file) ;;
     if truthy signature
     then
       content <- vread (root ++ [file]) ;;
       emit (ContentVerified root file) ;;
       vlift (verify_content (PBytes content) signature public_key)
     else vret tt)%V.

Definition verify_subfolder (root : path) (signatures : pyobj)
    (public_key : public_key) (folder : pystr) : V unit :=
  (signature <- vlift (py_get signatures folder) ;;
   if truthy signature
   then
     emit (ContentVerified root folder) ;;
     vlift (verify_content (PStr folder) signature public_key)
   else vret tt)%V.

(** The body of the loop of [verify_folder_signature]. *)
Definition verify_folder (root_ca_public_key : public_key) (item : walk_item)
  : V unit :=
  let '(root, folders, files) := item in
  (emit (Visited root) ;;
   loaded <- vtry (load_signatures root) ;;
   match loaded with
   | Raise _ => vret tt                                       (* continue *)
   | Ok (signatures, cert, public_key) =>
       emit (CertVerified root) ;;
       vlift (verify_cert cert root_ca_public_key) ;;
       vfor files (verify_file root signatures public_key) ;;
       vfor folders (verify_subfolder root signatures public_key)
   end)%V.

Definition verify_folder_signature (src_folder root_ca_path : path)
  : node -> bool * list event :=
  fun t =>
    match
      (root_ca_cert <- load_crt root_ca_path ;;
       let root_ca_public_key := cert_public_key root_ca_cert in
       items <- vwalk src_folder ;;
       vfor items (verify_folder root_ca_public_key) ;;
       vret true)%V t
    with
    | (Ok b, evs) => (b, evs)
    | (Raise _, evs) => (false, evs)                          (* except Exception *)
    end.

End Utils.

(** * Properties *)

(** ** ASCII text survives UTF-8 in both directions *)

Definition ascii_bytes (bs : bytes) : Prop := Forall (fun b => Byte.to_N b < 128) bs.

Lemma utf8_decode_ascii (bs : bytes) :
  ascii_bytes bs -> utf8_decode bs = Ok (map Byte.to_N bs).
Proof.
  induction 1 as [|b bs Hb _ IH]; [reflexivity|].
  cbn [utf8_decode map]. apply N.ltb_lt in Hb. rewrite Hb, IH. reflexivity.
Qed.

Lemma utf8_encode_ascii (bs : bytes) :
  ascii_bytes bs -> utf8_encode (map Byte.to_N bs) = Ok bs.
Proof.
  induction 1 as [|b bs Hb _ IH]; [reflexivity|].
  cbn [utf8_encode map]. unfold utf8_encode_cp.
  apply N.ltb_lt in Hb. rewrite Hb, IH. cbn. now rewrite byte_of_to_N.
Qed.

Lemma utf8_encode_total (s : pystr) :
  utf8_encodable s = true -> exists bs, utf8_encode s = Ok bs.
Proof.
  induction s as [|c s IH]; intros H; [now exists []|].
  cbn in H. apply andb_prop in H as [Hc Hs].
  destruct (IH Hs) as [bs Hbs].
  apply andb_prop in Hc as [Hlt Hsur]. apply negb_true_iff in Hsur.
  cbn [utf8_encode]. unfold utf8_encode_cp. rewrite Hsur, Hlt, Hbs.
  repeat match goal with |- context [if ?b then _ else _] => destruct b end;
    cbn; eauto.
Qed.

Lemma b64encode_ascii (s : bytes) : ascii_bytes (b64encode s).
Proof.
  unfold ascii_bytes.
  assert (Hpad : Byte.to_N BASE64_PAD < 128) by (vm_compute; reflexivity).
  induction s as [|a|a b|a b c l IH] using list_ind3; cbn [b64encode].
  - constructor.
  - pose proof (to_N_lt_256 a) as Ha.
    destruct (sextet_bounds _ 0 0 Ha ltac:(lia) ltac:(lia))
      as (B0 & B1 & _).
    change (0 / 16) with 0 in B1. rewrite N.add_0_r in B1.
    repeat constructor; try assumption; now apply table_base64_inv.
  - pose proof (to_N_lt_256 a) as Ha. pose proof (to_N_lt_256 b) as Hb.
    destruct (sextet_bounds _ _ 0 Ha Hb ltac:(lia)) as (B0 & B1 & B2 & _).
    change (0 / 64) with 0 in B2. rewrite N.add_0_r in B2.
    repeat constructor; try assumption; now apply table_base64_inv.
  - pose proof (to_N_lt_256 a) as Ha. pose proof (to_N_lt_256 b) as Hb.
    pose proof (to_N_lt_256 c) as Hc.
    destruct (sextet_bounds _ _ _ Ha Hb Hc) as (B0 & B1 & B2 & B3 & _).
    repeat constructor; try assumption; now apply table_base64_inv.
Qed.

(** The text of a base64 signature, as [sign_content] returns it. *)
Definition b64text (signature : bytes) : pystr :=
  map Byte.to_N (b64encode signature).

Lemma b64text_decode (signature : bytes) :
  utf8_decode (b64encode signature) = Ok (b64text signature).
Proof. apply utf8_decode_ascii, b64encode_ascii. Qed.

Lemma b64text_encode (signature : bytes) :
  utf8_encode (b64text signature) = Ok (b64encode signature).
Proof. apply utf8_encode_ascii, b64encode_ascii. Qed.

(** ** A platform to run examples on

    Keys are numbers, a key pair being a number twice; a signature is the
    key, the padding and the hash followed by the data and the random
    bytes; the PEM and JSON readers are finite tables. *)

Definition toy_tag (pad : padding) (h : hash_algorithm) : bytes :=
  [match pad with PSS _ _ => "S" | PKCS1v15 => "1" end;
   match h with
   | MD5 => "0" | SHA1 => "1" | SHA224 => "2" | SHA256 => "3"
   | SHA384 => "4" | SHA512 => "5"
   end]%byte.

Definition toy_sign (sk : N) (data : bytes) (pad : padding)
    (h : hash_algorithm) (rnd : bytes) : bytes :=
  (byte_of_N sk :: toy_tag pad h) ++ data ++ rnd.

Fixpoint bytes_prefix (l1 l2 : bytes) : bool :=
  match l1, l2 with
  | [], _ => true
  | a :: l1', b :: l2' => Byte.eqb a b && bytes_prefix l1' l2'
  | _ :: _, [] => false
  end.

Definition toy_verify (pk : N) (signature data : bytes) (pad : padding)
    (h : hash_algorithm) : bool :=
  bytes_prefix ((byte_of_N pk :: toy_tag pad h) ++ data) signature.

Fixpoint table_find {A} (k : bytes) (tbl : list (bytes * A)) : option A :=
  match tbl with
  | [] => None
  | (k', v) :: tbl' => if decide (k' = k) then Some v else table_find k tbl'
  end.

Definition toy_dumps (m : gmap pystr pyobj) : bytes :=
  flat_map (fun kv => map byte_of_N (fst kv) ++ [":"%byte]) (map_to_list m).

Definition toy_platform (certs : list (bytes * certificate N))
    (jsons : list (bytes * pyobj)) (sig_file crt_file : pystr) : Platform := {|
  private_key := N;
  public_key := N;
  rsa_public_key := fun sk => sk;
  rsa_sign := toy_sign;
  rsa_verify := toy_verify;
  os_urandom := fun i => [byte_of_N (N.of_nat i)];
  load_pem_x509_certificate := fun data => table_find data certs;
  json_loads := fun data => table_find data jsons;
  json_dumps := toy_dumps;
  NVFLARE_SIG_FILE := sig_file;
  NVFLARE_SUBMITTER_CRT_FILE := crt_file
|}.

Lemma bytes_prefix_app (l1 l2 : bytes) : bytes_prefix l1 (l1 ++ l2) = true.
Proof.
  induction l1 as [|a l1 IH]; [reflexivity|].
  cbn. rewrite IH, andb_true_r. now apply Byte.byte_dec_lb.
Qed.

Lemma toy_platform_correct certs jsons sig_file crt_file :
  rsa_correct (toy_platform certs jsons sig_file crt_file).
Proof.
  intros sk data pad h rnd.
  change (toy_verify sk (toy_sign sk data pad h rnd) data pad h = true).
  unfold toy_verify, toy_sign. rewrite app_assoc. apply bytes_prefix_app.
Qed.

(** Text from a Rocq string, one code point per character. *)
Definition str (s : string) : pystr := map N_of_ascii (list_ascii_of_string s).

Definition bstr (s : string) : bytes := list_byte_of_string s.

(** ** sign_content and verify_content *)

Section ContentProperties.
Context {P : Platform}.

(** The signature that [sign_content] makes of [data] at the [i]-th draw
    of the random source. *)
Definition content_signature (key : private_key) (data : bytes) (i : nat) : bytes :=
  rsa_sign key data _content_padding _content_hash_algo (os_urandom i).

Lemma sign_content_bytes (data : bytes) key (return_str : bool) (w : world) :
  sign_content (PBytes data) key return_str w =
    (Ok (if return_str
         then PStr (b64text (content_signature key data (drawn w)))
         else PBytes (content_signature key data (drawn w))),
     World (fs w) (S (drawn w))).
Proof.
  unfold sign_content, bind, lift, ret, private_key_sign, urandom,
    content_signature; cbn.
  destruct return_str; [|reflexivity].
  now rewrite b64text_decode.
Qed.

Lemma sign_content_str (s : pystr) key (return_str : bool) (w : world) :
  sign_content (PStr s) key return_str w =
    match utf8_encode s with
    | Ok data => sign_content (PBytes data) key return_str w
    | Raise e => (Raise e, w)
    end.
Proof.
  unfold sign_content, bind, lift; cbn.
  destruct (utf8_encode s); reflexivity.
Qed.

(** Contents that are raw bytes, or text that UTF-8 can encode: a [str]
    of Unicode scalar values. *)
Definition bytes_or_text (c : pyobj) : Prop :=
  match c with
  | PBytes _ => True
  | PStr s => utf8_encodable s = true
  | _ => False
  end.

Lemma verify_content_signature (data : bytes) key (i : nat) (return_str : bool) :
  rsa_correct P ->
  verify_content (PBytes data)
    (if return_str
     then PStr (b64text (content_signature key data i))
     else PBytes (content_signature key data i))
    (rsa_public_key key) = Ok tt.
Proof.
  intros Hrsa. unfold verify_content, content_signature.
  destruct return_str; cbn [encode_if_str rbind].
  - rewrite b64text_encode. cbn [rbind]. rewrite b64decode_b64encode.
    cbn [rbind public_key_verify]. now rewrite Hrsa.
  - cbn [public_key_verify]. now rewrite Hrsa.
Qed.

End ContentProperties.

(** C1, as the code has it. For every content that is raw bytes (the empty
    byte string included) or text that UTF-8 can encode, and every key
    pair of a correct RSA implementation, [sign_content] returns a
    signature, and [verify_content] accepts it for the same content under
    the public key of the pair, whether the signature is returned as
    base64 text or as raw bytes. *)
Theorem verify_content_sign_content (P : Platform) (c : pyobj)
    (priv : private_key) (return_str : bool) (w : world) :
  rsa_correct P ->
  bytes_or_text c ->
  exists signature w',
    sign_content c priv return_str w = (Ok signature, w')
    /\ verify_content c signature (rsa_public_key priv) = Ok tt.
Proof.
  intros Hrsa Hc. destruct c as [| | | |s|data| |]; try contradiction.
  - destruct (utf8_encode_total s Hc) as [data Hdata].
    rewrite sign_content_str, Hdata, sign_content_bytes.
    eexists _, _. split; [reflexivity|].
    pose proof (verify_content_signature data priv (drawn w) return_str Hrsa) as H.
    unfold verify_content in *. cbn [encode_if_str rbind] in *.
    rewrite Hdata. cbn [rbind]. exact H.
  - rewrite sign_content_bytes. eexists _, _. split; [reflexivity|].
    now apply verify_content_signature.
Qed.

(** The platform of the examples: no certificate, no manifest. *)
Definition bare_platform : Platform :=
  toy_platform [] [] (str ".__nvfl_sig.json") (str ".__nvfl_submitter.crt").

Lemma verify_content_sign_content_witness :
  rsa_correct bare_platform
  /\ bytes_or_text (PBytes [])
  /\ exists signature w',
       sign_content (P := bare_platform) (PBytes []) 7 true (World (Dir []) 0)
         = (Ok signature, w')
       /\ verify_content (P := bare_platform) (PBytes []) signature 7 = Ok tt.
Proof.
  split; [apply toy_platform_correct|]. split; [exact I|].
  apply (verify_content_sign_content bare_platform (PBytes []) 7%N true
           (World (Dir []) 0)).
  - apply toy_platform_correct.
  - exact I.
Defined.

Example sign_content_text :
  fst (sign_content (P := bare_platform) (PStr (str "app")) 7 true (World (Dir []) 0))
  = Ok (PStr (str "B1MzYXBwAA==")).
Proof. reflexivity. Qed.

(** A [str] may hold a lone surrogate: [os.walk] makes one of each byte of
    a file name that is not UTF-8. Such a text cannot be encoded, and
    [sign_content] raises on it, whichever form of signature is asked
    for. *)
Lemma sign_content_lone_surrogate :
  sign_content (P := bare_platform) (PStr [0xDC80]) 7 true (World (Dir []) 0)
  = (Raise UnicodeEncodeError, World (Dir []) 0)
  /\ sign_content (P := bare_platform) (PStr [0xDC80]) 7 false (World (Dir []) 0)
     = (Raise UnicodeEncodeError, World (Dir []) 0).
Proof. split; reflexivity. Qed.

Example verify_content_tampered :
  verify_content (P := bare_platform) (PBytes (bstr "apq"))
    (PStr (str "B1MzYXBwAA==")) 7 = Raise InvalidSignature.
Proof. reflexivity. Qed.

(** ** verify_cert *)

(** C7. [verify_cert] checks the signature of the certificate over its
    to-be-signed bytes under the issuer's public key, with the PKCS#1 v1.5
    padding (which is not the padding used for content) and the hash
    algorithm that the certificate declares; a mismatch raises
    [InvalidSignature]. Nothing else of the certificate is looked at: its
    validity period and its own key do not change the outcome. *)
Theorem verify_cert_signature_only (P : Platform)
    (cert : certificate public_key) (root_ca_public_key : public_key) :
  verify_cert cert root_ca_public_key =
    (if rsa_verify root_ca_public_key (cert_signature cert)
          (tbs_certificate_bytes cert) PKCS1v15 (signature_hash_algorithm cert)
     then Ok tt else Raise InvalidSignature)
  /\ PKCS1v15 <> _content_padding
  /\ forall key not_before not_after,
       verify_cert
         (Certificate (cert_signature cert) (tbs_certificate_bytes cert)
            (signature_hash_algorithm cert) key not_before not_after)
         root_ca_public_key
       = verify_cert cert root_ca_public_key.
Proof.
  split; [reflexivity|]. split; [discriminate|]. reflexivity.
Qed.

(** ** The file system: lookups *)

Lemma lookup_path_app (t : node) (p q : path) :
  lookup_path t (p ++ q) =
    match lookup_path t p with
    | Some c => lookup_path c q
    | None => None
    end.
Proof.
  revert t. induction p as [|n p IH]; intros t; [reflexivity|].
  cbn. destruct t as [|es|]; try reflexivity.
  destruct (entry n es); [apply IH|reflexivity].
Qed.

Lemma lookup_path_child (t : node) (p : path) es (n : pystr) :
  lookup_path t p = Some (Dir es) -> lookup_path t (p ++ [n]) = entry n es.
Proof.
  intros H. rewrite lookup_path_app, H. cbn. now destruct (entry n es).
Qed.

Lemma lookup_failure_child (t : node) (p : path) es (n : pystr) :
  lookup_path t p = Some (Dir es) -> entry n es = None ->
  lookup_failure t (p ++ [n]) = FileNotFoundError.
Proof.
  revert t. induction p as [|m p IH]; intros t H He; cbn in *.
  - injection H as ->. now rewrite He.
  - destruct t as [|es0|]; try discriminate.
    destruct (entry m es0); [eauto|discriminate].
Qed.

Lemma entry_elem_of (n : pystr) (c : node) es :
  entry n es = Some c -> (n, c) ∈ es.
Proof.
  induction es as [|[n' c'] es IH]; cbn; [discriminate|].
  destruct (decide (n' = n)) as [->|_].
  - intros [= ->]. left.
  - intros H. right. auto.
Qed.

Lemma elem_of_entry (n : pystr) (c : node) es :
  NoDup (map fst es) -> (n, c) ∈ es -> entry n es = Some c.
Proof.
  induction es as [|[n' c'] es IH]; cbn; intros Hnd Hin.
  - inversion Hin.
  - apply NoDup_cons in Hnd as [Hn' Hnd].
    apply elem_of_cons in Hin as [[= -> ->]|Hin].
    + now rewrite decide_True.
    + rewrite decide_False; [auto|].
      intros ->. apply Hn'. apply list_elem_of_fmap. now exists (n, c).
Qed.

(** ** sign_all *)

Section SignAllProperties.
Context {P : Platform}.


End SignAllProperties.


(** A small tree: one file, one subfolder, one socket. *)
Definition sample_entries : list (pystr * node) :=
  [(str "a.txt", File (bstr "hello"));
   (str "sub", Dir [(str "b.bin", File (bstr "x"))]);
   (str "sock", Special)].




(** ** The file system: writes *)

Lemma entry_set_entry (n : pystr) (c : node) es : entry n (set_entry n c es) = Some c.
Proof.
  induction es as [|[n' c'] es IH]; cbn.
  - now rewrite decide_True.
  - destruct (decide (n' = n)) as [->|Hne]; cbn.
    + now rewrite decide_True.
    + now rewrite decide_False.
Qed.

Lemma entry_set_entry_ne (n m : pystr) (c : node) es :
  n <> m -> entry n (set_entry m c es) = entry n es.
Proof.
  intros Hnm. induction es as [|[n' c'] es IH]; cbn.
  - now rewrite decide_False by congruence.
  - destruct (decide (n' = m)) as [->|Hne]; cbn.
    + now rewrite !decide_False by congruence.
    + destruct (decide (n' = n)); auto.
Qed.

Lemma write_node_lookup (p : path) (data : bytes) :
  forall t t', write_node t p data = Ok t' -> lookup_path t' p = Some (File data).
Proof.
  induction p as [|name p IH]; intros t t' H; [discriminate|].
  cbn in H. destruct t as [|es|]; try discriminate.
  destruct p as [|name' p].
  - destruct (entry name es) as [[| |]|]; try discriminate;
      injection H as <-; cbn; now rewrite entry_set_entry.
  - destruct (entry name es) as [c|]; [|discriminate].
    destruct (write_node c (name' :: p) data) as [c'|] eqn:Hc; [|discriminate].
    injection H as <-. cbn [lookup_path]. rewrite entry_set_entry. eauto.
Qed.

(** A write leaves alone whatever is not on the way to the written
    file. *)
Lemma write_node_frame (p : path) (data : bytes) :
  forall t t' q,
    write_node t p data = Ok t' -> ~ q `prefix_of` p ->
    lookup_path t' q = lookup_path t q.
Proof.
  induction p as [|name p IH]; intros t t' q H Hq; [discriminate|].
  cbn in H. destruct t as [|es|]; try discriminate.
  destruct q as [|m q]; [exfalso; apply Hq, prefix_nil|].
  destruct (decide (m = name)) as [->|Hm].
  - assert (Hq' : ~ q `prefix_of` p).
    { intros Hp. apply Hq. now apply prefix_cons. }
    destruct p as [|name' p].
    + destruct q as [|m' q]; [exfalso; apply Hq'; reflexivity|].
      destruct (entry name es) as [[| |]|] eqn:E; try discriminate;
        injection H as <-; cbn; rewrite entry_set_entry, ?E; reflexivity.
    + destruct (entry name es) as [c|] eqn:E; [|discriminate].
      destruct (write_node c (name' :: p) data) as [c'|] eqn:Hc; [|discriminate].
      injection H as <-. cbn [lookup_path]. rewrite entry_set_entry, E. eauto.
  - assert (Hl : forall es', entry m es' = entry m es ->
                   lookup_path (Dir es') (m :: q) = lookup_path (Dir es) (m :: q)).
    { intros es' E. cbn. now rewrite E. }
    destruct p as [|name' p].
    + destruct (entry name es) as [[| |]|]; try discriminate;
        injection H as <-; apply Hl, entry_set_entry_ne; congruence.
    + destruct (entry name es) as [c|]; [|discriminate].
      destruct (write_node c (name' :: p) data) as [c'|]; [|discriminate].
      injection H as <-. apply Hl, entry_set_entry_ne. congruence.
Qed.

(** A write keeps every other regular file. *)
Lemma write_node_other_file (p : path) (data : bytes) :
  forall t t' q x,
    write_node t p data = Ok t' -> q <> p ->
    lookup_path t q = Some (File x) -> lookup_path t' q = Some (File x).
Proof.
  induction p as [|name p IH]; intros t t' q x H Hq Hx; [discriminate|].
  cbn in H. destruct t as [|es|]; try discriminate.
  destruct q as [|m q]; [discriminate|].
  destruct (decide (m = name)) as [->|Hm].
  - assert (Hq' : q <> p) by congruence.
    cbn in Hx.
    destruct p as [|name' p].
    + destruct q as [|m' q]; [congruence|].
      destruct (entry name es) as [[| |]|] eqn:E; try discriminate.
    + destruct (entry name es) as [c|] eqn:E; [|discriminate].
      destruct (write_node c (name' :: p) data) as [c'|] eqn:Hc; [|discriminate].
      injection H as <-. cbn [lookup_path]. rewrite entry_set_entry. eauto.
  - assert (Hl : forall es', entry m es' = entry m es ->
                   lookup_path (Dir es') (m :: q) = Some (File x)).
    { intros es' E. cbn in *. now rewrite E. }
    destruct p as [|name' p].
    + destruct (entry name es) as [[| |]|]; try discriminate;
        injection H as <-; apply Hl, entry_set_entry_ne; congruence.
    + destruct (entry name es) as [c|]; [|discriminate].
      destruct (write_node c (name' :: p) data) as [c'|]; [|discriminate].
      injection H as <-. apply Hl, entry_set_entry_ne. congruence.
Qed.

(** ** sign_folders: one directory *)

Lemma bind_eq {A B} (m : M A) (k : A -> M B) (w : world) :
  bind m k w =
    match m w with
    | (Ok a, w') => k a w'
    | (Raise e, w') => (Raise e, w')
    end.
Proof. reflexivity. Qed.

Section SignFolderProperties.
Context {P : Platform}.

(** What a manifest holds for a file, and for a subfolder: the base64 text
    of a signature of the file's bytes, or of the UTF-8 bytes of the
    subfolder's name. *)
Definition file_signed (t : node) (root : path) (key : private_key)
    (file : pystr) (v : pyobj) : Prop :=
  exists data i,
    read_node t (root ++ [file]) = Ok data
    /\ v = PStr (b64text (content_signature key data i)).

Definition name_signed (key : private_key) (folder : pystr) (v : pyobj) : Prop :=
  exists data i,
    utf8_encode folder = Ok data
    /\ v = PStr (b64text (content_signature key data i)).

Lemma sign_files_fs root files key :
  forall signatures w r w',
    sign_files root files key signatures w = (r, w') -> fs w' = fs w.
Proof.
  induction files as [|file files IH]; intros signatures w r w' H; cbn in H.
  - now injection H as _ <-.
  - destruct (reserved file); [eauto|].
    rewrite bind_eq in H. unfold open_read in H.
    destruct (read_node (fs w) (root ++ [file])); [|now injection H as _ <-].
    rewrite bind_eq, sign_content_bytes in H. apply IH in H. exact H.
Qed.

Lemma sign_names_fs folders key :
  forall signatures w r w',
    sign_names folders key signatures w = (r, w') -> fs w' = fs w.
Proof.
  induction folders as [|folder folders IH]; intros signatures w r w' H; cbn in H.
  - now injection H as _ <-.
  - rewrite bind_eq, sign_content_str in H.
    destruct (utf8_encode folder); [|now injection H as _ <-].
    rewrite sign_content_bytes in H. apply IH in H. exact H.
Qed.

Lemma collect_signatures_fs item key w r w' :
  collect_signatures item key w = (r, w') -> fs w' = fs w.
Proof.
  destruct item as [[root folders] files]. unfold collect_signatures.
  rewrite bind_eq. intros H.
  destruct (sign_files root files key ∅ w) as [[s|e] w1] eqn:Hf.
  - apply sign_names_fs in H. apply sign_files_fs in Hf. congruence.
  - injection H as _ <-. now apply sign_files_fs in Hf.
Qed.

Lemma sign_files_spec root files key :
  forall signatures w signatures' w',
    sign_files root files key signatures w = (Ok signatures', w') ->
    (forall k, k ∉ files \/ reserved k = true -> signatures' !! k = signatures !! k)
    /\ (forall k, k ∈ files -> reserved k = false ->
          exists v, signatures' !! k = Some v /\ file_signed (fs w) root key k v).
Proof.
  induction files as [|file files IH]; intros signatures w signatures' w' H;
    cbn in H.
  - injection H as <- <-. split; [reflexivity|]. intros k Hk. inversion Hk.
  - destruct (reserved file) eqn:Hres.
    + destruct (IH _ _ _ _ H) as [H1 H2]. split.
      * intros k [Hk|Hk]; apply H1; [left|right]; trivial.
        rewrite not_elem_of_cons in Hk. tauto.
      * intros k Hk Hr. apply H2; [|assumption].
        apply elem_of_cons in Hk as [->|Hk]; [congruence|assumption].
    + rewrite bind_eq in H. unfold open_read in H.
      destruct (read_node (fs w) (root ++ [file])) as [data|] eqn:Hread;
        [|discriminate].
      rewrite bind_eq, sign_content_bytes in H.
      destruct (IH _ _ _ _ H) as [H1 H2]. cbn [fs] in H2. split.
      * intros k Hk. rewrite H1.
        -- apply lookup_insert_ne. intros ->.
           destruct Hk as [Hk|Hk]; [|congruence]. apply Hk. left.
        -- destruct Hk as [Hk|Hk]; [left|right]; trivial.
           rewrite not_elem_of_cons in Hk. tauto.
      * intros k Hk Hr. destruct (decide (k ∈ files)) as [Hin|Hnin]; [auto|].
        apply elem_of_cons in Hk as [->|Hk]; [|contradiction].
        rewrite H1 by (now left). rewrite lookup_insert_eq.
        eexists. split; [reflexivity|]. now exists data, (drawn w).
Qed.

Lemma sign_names_spec folders key :
  forall signatures w signatures' w',
    sign_names folders key signatures w = (Ok signatures', w') ->
    (forall k, k ∉ folders -> signatures' !! k = signatures !! k)
    /\ (forall k, k ∈ folders ->
          exists v, signatures' !! k = Some v /\ name_signed key k v).
Proof.
  induction folders as [|folder folders IH]; intros signatures w signatures' w' H;
    cbn in H.
  - injection H as <- <-. split; [reflexivity|]. intros k Hk. inversion Hk.
  - rewrite bind_eq, sign_content_str in H.
    destruct (utf8_encode folder) as [data|] eqn:Henc; [|discriminate].
    rewrite sign_content_bytes in H.
    destruct (IH _ _ _ _ H) as [H1 H2]. split.
    + intros k Hk. rewrite not_elem_of_cons in Hk. destruct Hk as [Hne Hk].
      rewrite H1 by assumption. now apply lookup_insert_ne.
    + intros k Hk. destruct (decide (k ∈ folders)) as [Hin|Hnin]; [auto|].
      apply elem_of_cons in Hk as [->|Hk]; [|contradiction].
      rewrite H1 by assumption. rewrite lookup_insert_eq.
      eexists. split; [reflexivity|]. now exists data, (drawn w).
Qed.

(** The manifest of one directory: its keys, and what stands under
    them. *)
Lemma collect_signatures_spec root folders files key w signatures w' :
  collect_signatures (root, folders, files) key w = (Ok signatures, w') ->
  (forall k, k ∈ dom signatures ->
     (k ∈ files /\ reserved k = false) \/ k ∈ folders)
  /\ (forall k, k ∈ folders ->
        exists v, signatures !! k = Some v /\ name_signed key k v)
  /\ (forall k, k ∈ files -> reserved k = false -> k ∉ folders ->
        exists v, signatures !! k = Some v /\ file_signed (fs w) root key k v).
Proof.
  unfold collect_signatures. rewrite bind_eq. intros H.
  destruct (sign_files root files key ∅ w) as [[s|e] w1] eqn:Hf; [|discriminate].
  destruct (sign_files_spec _ _ _ _ _ _ _ Hf) as [F1 F2].
  destruct (sign_names_spec _ _ _ _ _ _ H) as [N1 N2].
  split; [|split].
  - intros k Hk. apply elem_of_dom in Hk as [v Hv].
    destruct (decide (k ∈ folders)) as [|Hnf]; [now right|]. left.
    rewrite N1 in Hv by assumption.
    destruct (decide (k ∈ files)) as [Hin|Hnin];
      [destruct (reserved k) eqn:Hr; [|now split]|];
      rewrite F1, lookup_empty in Hv by auto; discriminate.
  - exact N2.
  - intros k Hk Hr Hnf. rewrite N1 by assumption. auto.
Qed.

End SignFolderProperties.

(** ** The walk *)

Lemma node_nested_ind (Q : node -> Prop) :
  (forall data, Q (File data)) ->
  Q Special ->
  (forall es, Forall (fun e => Q (snd e)) es -> Q (Dir es)) ->
  forall t, Q t.
Proof.
  intros Hfile Hspecial Hdir. fix IH 1.
  intros [data|es|]; [apply Hfile| |apply Hspecial].
  apply Hdir. induction es as [|[n c] es IHes]; constructor; [apply IH|exact IHes].
Qed.

Definition walk_entries (top : path) (l : list (pystr * node)) : list walk_item :=
  flat_map (fun e => walk (top ++ [fst e]) (snd e)) l.

Lemma walk_Dir (top : path) es :
  walk top (Dir es) = (top, dirnames es, filenames es) :: walk_entries top es.
Proof.
  cbn [walk]. f_equal. unfold walk_entries.
  induction es as [|[n c] es IH]; [reflexivity|]. cbn. now rewrite IH.
Qed.

Definition root_of (item : walk_item) : path := fst (fst item).

(** Every directory that the walk of [top] reaches lies under [top]. *)
Lemma walk_root_prefix (t : node) :
  forall top item, item ∈ walk top t -> top `prefix_of` root_of item.
Proof.
  induction t as [data| |es IH] using node_nested_ind; intros top item Hin;
    try (inversion Hin; fail).
  rewrite walk_Dir in Hin. apply elem_of_cons in Hin as [->|Hin]; [reflexivity|].
  unfold walk_entries in Hin. apply list_elem_of_In, in_flat_map in Hin.
  destruct Hin as ([n c] & Hc & Hitem). apply list_elem_of_In in Hc, Hitem.
  rewrite Forall_forall in IH. specialize (IH _ Hc _ _ Hitem). cbn in IH.
  etransitivity; [|exact IH]. now apply prefix_app_r.
Qed.

Lemma walk_entries_root_ne (top : path) es item :
  item ∈ walk_entries top es -> root_of item <> top.
Proof.
  intros Hin Heq. unfold walk_entries in Hin.
  apply list_elem_of_In, in_flat_map in Hin.
  destruct Hin as ([n c] & _ & Hitem). apply list_elem_of_In in Hitem.
  apply walk_root_prefix, prefix_length in Hitem. rewrite Heq in Hitem.
  rewrite length_app in Hitem. cbn in Hitem. lia.
Qed.

(** ** sign_folders: the loop *)

Section SignFoldersProperties.
Context {P : Platform}.

(** Signing the directories of a list one after the other, with no
    budget. *)
Fixpoint sign_each (items : list walk_item) (signing_pri_key : private_key)
    (crt_path : path) : M unit :=
  match items with
  | [] => ret tt
  | item :: items' =>
      (sign_folder item signing_pri_key crt_path ;;
       sign_each items' signing_pri_key crt_path)%M
  end.

Lemma sign_folders_loop_take key crt (max_depth : Z) items :
  forall (depth : Z) (w : world),
    sign_folders_loop items key crt max_depth depth w =
      sign_each (take (Z.to_nat (Z.max 1 (max_depth - depth))) items) key crt w.
Proof.
  induction items as [|item items IH]; intros depth w.
  - now rewrite take_nil.
  - cbn [sign_folders_loop].
    destruct (Z.to_nat (Z.max 1 (max_depth - depth))) as [|n] eqn:En; [lia|].
    cbn [take sign_each]. rewrite !bind_eq.
    destruct (sign_folder item key crt w) as [[[]|e] w1]; [|reflexivity].
    destruct (Z.geb_spec (depth + 1) max_depth) as [Hge|Hlt].
    + assert (n = 0%nat) as -> by lia. reflexivity.
    + rewrite IH. do 2 f_equal. lia.
Qed.

(** What one step does: it raises and writes nothing; or it collects the
    signatures and writes the manifest, and then either raises or copies
    the certificate and returns. *)
Lemma sign_folder_cases root folders files key crt w r w' :
  sign_folder (root, folders, files) key crt w = (r, w') ->
  (exists e, r = Raise e /\ fs w' = fs w)
  \/ exists signatures w1,
       collect_signatures (root, folders, files) key w = (Ok signatures, w1)
       /\ ((exists e,
              r = Raise e
              /\ write_node (fs w) (root ++ [NVFLARE_SIG_FILE])
                   (json_dumps signatures) = Ok (fs w'))
           \/ (exists t1 cert,
                 r = Ok tt
                 /\ write_node (fs w) (root ++ [NVFLARE_SIG_FILE])
                      (json_dumps signatures) = Ok t1
                 /\ read_node t1 crt = Ok cert
                 /\ write_node t1 (root ++ [NVFLARE_SUBMITTER_CRT_FILE]) cert
                    = Ok (fs w'))).
Proof.
  unfold sign_folder. rewrite bind_eq. intros H.
  destruct (collect_signatures (root, folders, files) key w) as [[s|e] w1] eqn:Hc;
    pose proof (collect_signatures_fs _ _ _ _ _ Hc) as Hfs.
  2:{ injection H as <- <-. left. eauto. }
  rewrite bind_eq in H. unfold open_write in H at 1. rewrite Hfs in H.
  destruct (write_node (fs w) (root ++ [NVFLARE_SIG_FILE]) (json_dumps s))
    as [t1|e] eqn:Hw1.
  2:{ injection H as <- <-. left. eauto. }
  right. exists s, w1. split; [reflexivity|].
  unfold shutil_copyfile in H.
  destruct (bool_decide _ && bool_decide _) in H.
  { injection H as <- <-. left. eauto. }
  rewrite bind_eq in H. unfold open_read in H. cbn [fs] in H.
  destruct (read_node t1 crt) as [cert|e] eqn:Hr.
  2:{ injection H as <- <-. left. eauto. }
  unfold open_write in H. cbn [fs drawn] in H.
  destruct (write_node t1 (root ++ [NVFLARE_SUBMITTER_CRT_FILE]) cert)
    as [t2|e] eqn:Hw2; injection H as <- <-; [right|left]; eauto 7.
Qed.

Lemma sign_folder_writes root folders files key crt w r w' :
  sign_folder (root, folders, files) key crt w = (r, w') ->
  fs w' = fs w
  \/ (exists data, write_node (fs w) (root ++ [NVFLARE_SIG_FILE]) data = Ok (fs w'))
  \/ (exists data t1 cert,
        write_node (fs w) (root ++ [NVFLARE_SIG_FILE]) data = Ok t1
        /\ write_node t1 (root ++ [NVFLARE_SUBMITTER_CRT_FILE]) cert = Ok (fs w')).
Proof.
  intros H. destruct (sign_folder_cases _ _ _ _ _ _ _ _ H)
    as [(e & _ & Hfs)|(s & w1 & _ & [(e & _ & H1)|(t1 & c & _ & H1 & _ & H2)])];
    eauto 7.
Qed.

Lemma sign_folder_ok root folders files key crt w w' :
  sign_folder (root, folders, files) key crt w = (Ok tt, w') ->
  exists signatures w1 t1 cert,
    collect_signatures (root, folders, files) key w = (Ok signatures, w1)
    /\ write_node (fs w) (root ++ [NVFLARE_SIG_FILE]) (json_dumps signatures) = Ok t1
    /\ read_node t1 crt = Ok cert
    /\ write_node t1 (root ++ [NVFLARE_SUBMITTER_CRT_FILE]) cert = Ok (fs w').
Proof.
  intros H. destruct (sign_folder_cases _ _ _ _ _ _ _ _ H)
    as [(e & [=] & _)|(s & w1 & Hc & [(e & [=] & _)|(t1 & c & _ & H1 & Hr & H2)])].
  exists s, w1, t1, c. auto.
Qed.

Lemma sign_folder_frame item key crt w r w' (q : path) :
  sign_folder item key crt w = (r, w') ->
  ~ q `prefix_of` (root_of item ++ [NVFLARE_SIG_FILE]) ->
  ~ q `prefix_of` (root_of item ++ [NVFLARE_SUBMITTER_CRT_FILE]) ->
  lookup_path (fs w') q = lookup_path (fs w) q.
Proof.
  destruct item as [[root folders] files]. cbn [root_of fst]. intros H Hs Hc.
  destruct (sign_folder_writes _ _ _ _ _ _ _ _ H)
    as [->|[(d & H1)|(d & t1 & c & H1 & H2)]]; [reflexivity| |].
  - exact (write_node_frame _ _ _ _ _ H1 Hs).
  - rewrite (write_node_frame _ _ _ _ _ H2 Hc).
    exact (write_node_frame _ _ _ _ _ H1 Hs).
Qed.

Lemma sign_folder_keeps_file item key crt w r w' (q : path) (x : bytes) :
  sign_folder item key crt w = (r, w') ->
  q <> root_of item ++ [NVFLARE_SIG_FILE] ->
  q <> root_of item ++ [NVFLARE_SUBMITTER_CRT_FILE] ->
  lookup_path (fs w) q = Some (File x) -> lookup_path (fs w') q = Some (File x).
Proof.
  destruct item as [[root folders] files]. cbn [root_of fst]. intros H Hs Hc Hx.
  destruct (sign_folder_writes _ _ _ _ _ _ _ _ H)
    as [->|[(d & H1)|(d & t1 & c & H1 & H2)]]; [assumption| |].
  - exact (write_node_other_file _ _ _ _ _ _ H1 Hs Hx).
  - apply (write_node_other_file _ _ _ _ _ _ H2 Hc).
    exact (write_node_other_file _ _ _ _ _ _ H1 Hs Hx).
Qed.

Lemma sign_each_keeps_file key crt (q : path) (x : bytes) items :
  forall w r w',
    Forall (fun item =>
              q <> root_of item ++ [NVFLARE_SIG_FILE]
              /\ q <> root_of item ++ [NVFLARE_SUBMITTER_CRT_FILE]) items ->
    sign_each items key crt w = (r, w') ->
    lookup_path (fs w) q = Some (File x) -> lookup_path (fs w') q = Some (File x).
Proof.
  induction items as [|item items IH]; intros w r w' Hq H Hx; cbn in H.
  - now injection H as _ <-.
  - apply Forall_cons in Hq as [[Hs Hc] Hq]. rewrite bind_eq in H.
    destruct (sign_folder item key crt w) as [[[]|e] w1] eqn:H1.
    + eapply IH; eauto using sign_folder_keeps_file.
    + injection H as _ <-. eauto using sign_folder_keeps_file.
Qed.

End SignFoldersProperties.

(** A tree with two branches, [app/sub/deep] and [app/lib], and the
    submitter's certificate beside it. *)
Definition sample_fs : node :=
  Dir [(str "submitter.crt", File (bstr "CERT"));
       (str "app",
        Dir [(str "a.txt", File (bstr "hello"));
             (str "sub", Dir [(str "b.bin", File (bstr "x"));
                              (str "deep", Dir [])]);
             (str "lib", Dir [(str "c.py", File (bstr "pass"))])])].

Definition has_manifest (t : node) (dir : path) : bool :=
  match lookup_path t (dir ++ [NVFLARE_SIG_FILE (Platform := bare_platform)]) with
  | Some (File _) => true
  | _ => false
  end.

(** With a budget of 3 the walk signs [app], [app/sub] and [app/sub/deep],
    and leaves [app/lib] unsigned although it is nearer to the root than
    [app/sub/deep]. *)
Example sign_folders_budget_three :
  let w' := snd (sign_folders (P := bare_platform) [str "app"] 7
                   [str "submitter.crt"] 3 (World sample_fs 0)) in
  map (has_manifest (fs w'))
    [[str "app"]; [str "app"; str "sub"]; [str "app"; str "sub"; str "deep"];
     [str "app"; str "lib"]]
  = [true; true; true; false].
Proof. vm_compute. reflexivity. Qed.


Section SignFolderExample.
#[local] Existing Instance bare_platform.


(** The step on [app] returns, with both files written. *)
Example sign_folder_app :
  let (r, w') :=
    sign_folder ([str "app"], [str "sub"; str "lib"], [str "a.txt"]) 7
      [str "submitter.crt"] (World sample_fs 0) in
  r = Ok tt
  /\ has_manifest (fs w') [str "app"] = true
  /\ lookup_path (fs w') [str "app"; NVFLARE_SUBMITTER_CRT_FILE]
     = Some (File (bstr "CERT")).
Proof. vm_compute. auto. Qed.

End SignFolderExample.

(** C10, as the code has it. Whatever the budget (zero and negative
    values included), [sign_folders] begins by signing the root directory,
    and tests the budget only afterwards. If signing the root raises, the
    call raises; otherwise the root holds a manifest file and a
    certificate file when the call ends, however it ends. *)
Theorem sign_folders_root_signed (P : Platform) (folder : path)
    (signing_pri_key : private_key) (crt_path : path) (max_depth : Z)
    (w : world) (es : list (pystr * node)) :
  lookup_path (fs w) folder = Some (Dir es) ->
  NVFLARE_SIG_FILE <> NVFLARE_SUBMITTER_CRT_FILE ->
  match sign_folder (folder, dirnames es, filenames es) signing_pri_key crt_path w with
  | (Raise e, w1) =>
      sign_folders folder signing_pri_key crt_path max_depth w = (Raise e, w1)
  | (Ok _, w1) =>
      exists r w' manifest cert,
        sign_folders folder signing_pri_key crt_path max_depth w = (r, w')
        /\ lookup_path (fs w') (folder ++ [NVFLARE_SIG_FILE]) = Some (File manifest)
        /\ lookup_path (fs w') (folder ++ [NVFLARE_SUBMITTER_CRT_FILE])
           = Some (File cert)
  end.
Proof.
  intros Hdir Hne.
  assert (Hrun : sign_folders folder signing_pri_key crt_path max_depth w
    = sign_each (take (Z.to_nat (Z.max 1 max_depth)) (os_walk (fs w) folder))
        signing_pri_key crt_path w).
  { unfold sign_folders. rewrite bind_eq. unfold os_walk_items.
    rewrite sign_folders_loop_take. do 2 f_equal. lia. }
  rewrite Hrun. unfold os_walk. rewrite Hdir, walk_Dir.
  destruct (Z.to_nat (Z.max 1 max_depth)) as [|n] eqn:En; [lia|].
  cbn [take sign_each]. rewrite bind_eq.
  destruct (sign_folder (folder, dirnames es, filenames es) signing_pri_key
              crt_path w) as [[[]|e] w1] eqn:H; [|reflexivity].
  destruct (sign_folder_ok _ _ _ _ _ _ _ H)
    as (s & w0 & t1 & cert & _ & Hw1 & _ & Hw2).
  assert (Hsig : lookup_path (fs w1) (folder ++ [NVFLARE_SIG_FILE])
                 = Some (File (json_dumps s))).
  { apply (write_node_other_file _ _ _ _ _ _ Hw2).
    - intros Heq. apply app_inj_tail in Heq as [_ Heq]. contradiction.
    - exact (write_node_lookup _ _ _ _ Hw1). }
  assert (Hcrt : lookup_path (fs w1) (folder ++ [NVFLARE_SUBMITTER_CRT_FILE])
                 = Some (File cert)) by exact (write_node_lookup _ _ _ _ Hw2).
  destruct (sign_each (take n (walk_entries folder es)) signing_pri_key crt_path w1)
    as [r w'] eqn:Hrest.
  assert (Hroots : forall name,
    Forall (fun item =>
              folder ++ [name] <> root_of item ++ [NVFLARE_SIG_FILE]
              /\ folder ++ [name] <> root_of item ++ [NVFLARE_SUBMITTER_CRT_FILE])
      (take n (walk_entries folder es))).
  { intros name. apply Forall_forall. intros item Hin.
    apply elem_of_take in Hin as (i & Hin & _).
    apply list_elem_of_lookup_2, walk_entries_root_ne in Hin.
    split; intros Heq; apply app_inj_tail in Heq as [Heq _]; congruence. }
  exists r, w', (json_dumps s), cert. split; [reflexivity|].
  split; eapply sign_each_keeps_file; eauto.
Qed.

Section SignFoldersExample.
#[local] Existing Instance bare_platform.

Lemma sign_folders_root_signed_witness :
  lookup_path sample_fs [str "app"]
  = Some (Dir [(str "a.txt", File (bstr "hello"));
               (str "sub", Dir [(str "b.bin", File (bstr "x"));
                                (str "deep", Dir [])]);
               (str "lib", Dir [(str "c.py", File (bstr "pass"))])])
  /\ NVFLARE_SIG_FILE <> NVFLARE_SUBMITTER_CRT_FILE
  /\ exists r w' manifest cert,
       sign_folders [str "app"] 7 [str "submitter.crt"] (-2) (World sample_fs 0)
       = (r, w')
       /\ lookup_path (fs w') ([str "app"] ++ [NVFLARE_SIG_FILE])
          = Some (File manifest)
       /\ lookup_path (fs w') ([str "app"] ++ [NVFLARE_SUBMITTER_CRT_FILE])
          = Some (File cert).
Proof.
  assert (Hne : NVFLARE_SIG_FILE <> NVFLARE_SUBMITTER_CRT_FILE)
    by (vm_compute; discriminate).
  split; [reflexivity|]. split; [exact Hne|].
  pose proof (sign_folders_root_signed bare_platform [str "app"] 7%N
                [str "submitter.crt"] (-2) (World sample_fs 0) _ eq_refl Hne) as H.
  vm_compute in H. vm_compute. exact H.
Defined.

(** Two calls that leave the root unsigned. With a certificate path that
    names no file, the manifest of the root is written, the copy raises,
    and the root is left without a certificate. With a socket among the
    entries of the root, reading it raises before anything is written,
    and the root is left with neither file. *)
Lemma sign_folders_root_unsigned :
  (let (r, w') := sign_folders [str "app"] 7 [str "nowhere.crt"] 5
                    (World sample_fs 0) in
   r = Raise FileNotFoundError
   /\ has_manifest (fs w') [str "app"] = true
   /\ lookup_path (fs w') [str "app"; NVFLARE_SUBMITTER_CRT_FILE] = None)
  /\ (let (r, w') := sign_folders [str "app"] 7 [str "submitter.crt"] 5
                       (World (Dir [(str "submitter.crt", File (bstr "CERT"));
                                    (str "app", Dir sample_entries)]) 0) in
      r = Raise OSError
      /\ lookup_path (fs w') [str "app"; NVFLARE_SIG_FILE] = None
      /\ lookup_path (fs w') [str "app"; NVFLARE_SUBMITTER_CRT_FILE] = None).
Proof. vm_compute. auto 7. Qed.

End SignFoldersExample.

(** ** Verification: the monad *)

Lemma vbind_eq {A B} (m : V A) (k : A -> V B) (t : node) :
  vbind m k t =
    match m t with
    | (Ok a, evs) => let (r, evs') := k a t in (r, evs ++ evs')
    | (Raise e, evs) => (Raise e, evs)
    end.
Proof. reflexivity. Qed.

Definition events_of {A} (body : A -> V unit) (l : list A) (t : node) : list event :=
  flat_map (fun x => snd (body x t)) l.

(** A loop either runs through, or stops at the first element whose body
    raises. *)
Lemma vfor_cases {A} (body : A -> V unit) (t : node) (l : list A) :
  (Forall (fun x => fst (body x t) = Ok tt) l
   /\ vfor l body t = (Ok tt, events_of body l t))
  \/ (exists l1 x l2 e,
        l = l1 ++ x :: l2
        /\ Forall (fun y => fst (body y t) = Ok tt) l1
        /\ fst (body x t) = Raise e
        /\ vfor l body t = (Raise e, events_of body (l1 ++ [x]) t)).
Proof.
  induction l as [|x l IH].
  - left. split; [constructor|reflexivity].
  - cbn [vfor]. rewrite vbind_eq.
    destruct (body x t) as [[[]|e] evs] eqn:Hx.
    + destruct IH as [[Hall Hrun]|(l1 & y & l2 & e & -> & Hall & Hy & Hrun)].
      * left. split.
        -- constructor; [now rewrite Hx|exact Hall].
        -- rewrite Hrun. unfold events_of. cbn. now rewrite Hx.
      * right. exists (x :: l1), y, l2, e. split; [reflexivity|].
        split; [constructor; [now rewrite Hx|exact Hall]|]. split; [exact Hy|].
        rewrite Hrun. unfold events_of. cbn. now rewrite Hx.
    + right. exists [], x, l, e. split; [reflexivity|]. split; [constructor|].
      split; [now rewrite Hx|]. unfold events_of. cbn.
      now rewrite Hx, app_nil_r.
Qed.

Lemma vfor_ok {A} (body : A -> V unit) (t : node) (l : list A) :
  fst (vfor l body t) = Ok tt <-> Forall (fun x => fst (body x t) = Ok tt) l.
Proof.
  destruct (vfor_cases body t l)
    as [[Hall Hrun]|(l1 & x & l2 & e & -> & Hall & Hx & Hrun)]; rewrite Hrun.
  - tauto.
  - cbn. split; [discriminate|]. intros H.
    apply Forall_app in H as [_ H]. apply Forall_cons in H as [H _]. congruence.
Qed.

(** ** verify_folder_signature *)

(** The directories that the loop reached, read off the log. *)
Definition visited (evs : list event) : list path :=
  omap (fun e => match e with Visited root => Some root | _ => None end) evs.

Lemma visited_app (evs1 evs2 : list event) :
  visited (evs1 ++ evs2) = visited evs1 ++ visited evs2.
Proof. apply omap_app. Qed.

Section VerifyProperties.
Context {P : Platform}.

Lemma load_signatures_events (root : path) (t : node) :
  snd (load_signatures root t) = [].
Proof.
  unfold load_signatures, json_load, load_crt, vread, vlift, vret.
  rewrite !vbind_eq.
  destruct (read_node t (root ++ [NVFLARE_SIG_FILE])); [|reflexivity].
  destruct (json_loads a); [|reflexivity].
  rewrite !vbind_eq.
  destruct (read_node t (root ++ [NVFLARE_SUBMITTER_CRT_FILE])); [|reflexivity].
  destruct (load_crt_bytes a0); reflexivity.
Qed.

(** What the inner [try] yields, in terms of the two files. *)
Lemma load_signatures_ok (root : path) (t : node) signatures cert pk :
  fst (load_signatures root t) = Ok (signatures, cert, pk) <->
  exists manifest pem,
    read_node t (root ++ [NVFLARE_SIG_FILE]) = Ok manifest
    /\ json_loads manifest = Some signatures
    /\ read_node t (root ++ [NVFLARE_SUBMITTER_CRT_FILE]) = Ok pem
    /\ load_pem_x509_certificate pem = Some cert
    /\ pk = cert_public_key cert.
Proof.
  unfold load_signatures, json_load, load_crt, load_crt_bytes, vread, vlift, vret.
  rewrite !vbind_eq.
  destruct (read_node t (root ++ [NVFLARE_SIG_FILE])) as [manifest|];
    [|split; [discriminate|intros (? & ? & [=] & _)]].
  destruct (json_loads manifest) as [s|] eqn:Hj;
    [|split; [discriminate|intros (? & ? & [= <-] & ? & _); congruence]].
  rewrite !vbind_eq.
  destruct (read_node t (root ++ [NVFLARE_SUBMITTER_CRT_FILE])) as [pem|];
    [|split; [discriminate|intros (? & ? & _ & _ & [=] & _)]].
  destruct (load_pem_x509_certificate pem) as [c|] eqn:Hp; cbn.
  - split.
    + intros [= <- <- <-]. exists manifest, pem. auto.
    + intros (? & ? & [= <-] & ? & [= <-] & ? & ->). congruence.
  - split; [discriminate|]. intros (? & ? & _ & _ & [= <-] & ? & _). congruence.
Qed.

Lemma verify_file_eq root signatures pk file (t : node) :
  verify_file root signatures pk file t =
    if reserved file then (Ok tt, [])
    else
      match py_get signatures file with
      | Raise e => (Raise e, [])
      | Ok signature =>
          if truthy signature then
            match read_node t (root ++ [file]) with
            | Ok content =>
                (verify_content (PBytes content) signature pk,
                 [ContentVerified root file])
            | Raise e => (Raise e, [])
            end
          else (Ok tt, [])
      end.
Proof.
  unfold verify_file. destruct (reserved file); [reflexivity|].
  unfold vlift, vread, emit, vret. rewrite vbind_eq.
  destruct (py_get signatures file) as [sg|]; [|reflexivity].
  destruct (truthy sg); [|reflexivity].
  rewrite vbind_eq.
  destruct (read_node t (root ++ [file])); [|reflexivity].
  rewrite vbind_eq. reflexivity.
Qed.

Lemma verify_subfolder_eq root signatures pk folder (t : node) :
  verify_subfolder root signatures pk folder t =
    match py_get signatures folder with
    | Raise e => (Raise e, [])
    | Ok signature =>
        if truthy signature then
          (verify_content (PStr folder) signature pk, [ContentVerified root folder])
        else (Ok tt, [])
    end.
Proof.
  unfold verify_subfolder, vlift, emit, vret. rewrite vbind_eq.
  destruct (py_get signatures folder) as [sg|]; [|reflexivity].
  destruct (truthy sg); [|reflexivity].
  rewrite vbind_eq. reflexivity.
Qed.

(** The checks of one directory: the entries that were examined, and
    whether all of them passed. *)
Definition verify_entries (root : path) (folders files : list pystr)
    (signatures : pyobj) (pk : public_key) : V unit :=
  (vfor files (verify_file root signatures pk) ;;
   vfor folders (verify_subfolder root signatures pk))%V.

Lemma verify_folder_eq ca_pk root folders files (t : node) :
  verify_folder ca_pk (root, folders, files) t =
    match fst (load_signatures root t) with
    | Raise _ => (Ok tt, [Visited root])
    | Ok (signatures, cert, pk) =>
        match verify_cert cert ca_pk with
        | Raise e => (Raise e, [Visited root; CertVerified root])
        | Ok _ =>
            let (r, evs) := verify_entries root folders files signatures pk t in
            (r, Visited root :: CertVerified root :: evs)
        end
    end.
Proof.
  unfold verify_folder, verify_entries, vtry, emit, vlift, vret, vbind.
  pose proof (load_signatures_events root t) as Hev.
  destruct (load_signatures root t) as [[[[s c] pk]|e] evs]; cbn in Hev; subst evs;
    cbn [fst]; [|reflexivity].
  destruct (verify_cert c ca_pk) as [[]|e]; [|reflexivity].
  destruct (vfor files (verify_file root s pk) t) as [[[]|e] evs1]; [|reflexivity].
  destruct (vfor folders (verify_subfolder root s pk) t) as [r evs2].
  reflexivity.
Qed.

Lemma verify_entries_ok root folders files signatures pk (t : node) :
  fst (verify_entries root folders files signatures pk t) = Ok tt <->
  Forall (fun file => fst (verify_file root signatures pk file t) = Ok tt) files
  /\ Forall (fun folder =>
               fst (verify_subfolder root signatures pk folder t) = Ok tt) folders.
Proof.
  unfold verify_entries. rewrite vbind_eq, <- !vfor_ok.
  destruct (vfor files (verify_file root signatures pk) t) as [[[]|e] evs1];
    cbn [fst].
  - destruct (vfor folders (verify_subfolder root signatures pk) t) as [r evs2].
    cbn. tauto.
  - split; [discriminate|]. intros [[=] _].
Qed.

End VerifyProperties.

(** ** verify_folder_signature: the log and the outcome *)

Lemma vfor_events {A} (body : A -> V unit) (t : node) (l : list A) (e : event) :
  e ∈ snd (vfor l body t) -> exists x, x ∈ l /\ e ∈ snd (body x t).
Proof.
  destruct (vfor_cases body t l)
    as [[_ Hrun]|(l1 & x & l2 & err & -> & _ & _ & Hrun)];
    rewrite Hrun; cbn [snd]; unfold events_of; intros He;
    apply list_elem_of_In, in_flat_map in He as (y & Hy & He);
    apply list_elem_of_In in Hy, He; exists y; split; trivial.
  apply elem_of_app in Hy as [Hy|Hy]; apply elem_of_app; [now left|right].
  apply list_elem_of_singleton in Hy as ->. left.
Qed.

Section VerifyLog.
Context {P : Platform}.

(** A name has a recorded signature when the manifest is a dict that
    holds, under the name, a value that Python counts as true. *)
Definition recorded (signatures : pyobj) (name : pystr) (signature : pyobj) : Prop :=
  py_get signatures name = Ok signature /\ truthy signature = true.

Lemma verify_file_events root signatures pk file (t : node) (e : event) :
  e ∈ snd (verify_file root signatures pk file t) ->
  e = ContentVerified root file
  /\ reserved file = false
  /\ (exists sg, recorded signatures file sg)
  /\ exists data, read_node t (root ++ [file]) = Ok data.
Proof.
  rewrite verify_file_eq. destruct (reserved file); [intros H; inversion H|].
  destruct (py_get signatures file) as [sg|] eqn:Hg; [|intros H; inversion H].
  destruct (truthy sg) eqn:Ht; [|intros H; inversion H].
  destruct (read_node t (root ++ [file])) as [data|]; [|intros H; inversion H].
  cbn [snd]. intros H. apply list_elem_of_singleton in H as ->.
  unfold recorded. eauto 8.
Qed.

Lemma verify_subfolder_events root signatures pk folder (t : node) (e : event) :
  e ∈ snd (verify_subfolder root signatures pk folder t) ->
  e = ContentVerified root folder /\ exists sg, recorded signatures folder sg.
Proof.
  rewrite verify_subfolder_eq.
  destruct (py_get signatures folder) as [sg|] eqn:Hg; [|intros H; inversion H].
  destruct (truthy sg) eqn:Ht; [|intros H; inversion H].
  cbn [snd]. intros H. apply list_elem_of_singleton in H as ->.
  unfold recorded. eauto.
Qed.

(** What the log of one directory's checks can hold. *)
Definition entry_checked (t : node) (root : path) (folders files : list pystr)
    (signatures : pyobj) (e : event) : Prop :=
  exists name sg,
    e = ContentVerified root name
    /\ recorded signatures name sg
    /\ ((name ∈ files /\ reserved name = false
         /\ exists data, read_node t (root ++ [name]) = Ok data)
        \/ name ∈ folders).

Lemma verify_entries_events root folders files signatures pk (t : node) (e : event) :
  e ∈ snd (verify_entries root folders files signatures pk t) ->
  entry_checked t root folders files signatures e.
Proof.
  unfold verify_entries. rewrite vbind_eq.
  destruct (vfor files (verify_file root signatures pk) t) as [[[]|err] evs1] eqn:H1.
  - destruct (vfor folders (verify_subfolder root signatures pk) t)
      as [r evs2] eqn:H2.
    cbn [snd]. intros He. apply elem_of_app in He as [He|He].
    + replace evs1 with (snd (vfor files (verify_file root signatures pk) t)) in He
        by now rewrite H1.
      apply vfor_events in He as (file & Hin & He).
      apply verify_file_events in He as (-> & Hr & [sg Hsg] & Hd).
      exists file, sg. auto 6.
    + replace evs2 with (snd (vfor folders (verify_subfolder root signatures pk) t))
        in He by now rewrite H2.
      apply vfor_events in He as (folder & Hin & He).
      apply verify_subfolder_events in He as (-> & [sg Hsg]).
      exists folder, sg. auto.
  - cbn [snd]. intros He.
    replace evs1 with (snd (vfor files (verify_file root signatures pk) t)) in He
      by now rewrite H1.
    apply vfor_events in He as (file & Hin & He).
    apply verify_file_events in He as (-> & Hr & [sg Hsg] & Hd).
    exists file, sg. auto 6.
Qed.

Lemma verify_folder_events ca_pk root folders files (t : node) (e : event) :
  e ∈ snd (verify_folder ca_pk (root, folders, files) t) ->
  e = Visited root
  \/ exists signatures cert pk,
       fst (load_signatures root t) = Ok (signatures, cert, pk)
       /\ (e = CertVerified root
           \/ entry_checked t root folders files signatures e).
Proof.
  rewrite verify_folder_eq.
  destruct (fst (load_signatures root t)) as [[[s c] pk]|err] eqn:Hl.
  2:{ cbn [snd]. intros H. apply list_elem_of_singleton in H. now left. }
  destruct (verify_cert c ca_pk) as [[]|err].
  - destruct (verify_entries root folders files s pk t) as [r evs] eqn:He.
    cbn [snd]. intros H. apply elem_of_cons in H as [->|H]; [now left|].
    right. exists s, c, pk. split; [reflexivity|].
    apply elem_of_cons in H as [->|H]; [now left|]. right.
    apply (verify_entries_events root folders files s pk t).
    now rewrite He.
  - cbn [snd]. intros H. apply elem_of_cons in H as [->|H]; [now left|].
    apply list_elem_of_singleton in H as ->. right. exists s, c, pk. auto.
Qed.

Lemma visited_none (evs : list event) :
  (forall e, e ∈ evs -> forall r, e <> Visited r) -> visited evs = [].
Proof.
  induction evs as [|e evs IH]; intros H; [reflexivity|].
  assert (Hrest : visited evs = []).
  { apply IH. intros e' He'. apply H. now right. }
  destruct e as [r| |]; cbn; try exact Hrest.
  exfalso. apply (H (Visited r) ltac:(left) r). reflexivity.
Qed.

Lemma verify_folder_visited ca_pk item (t : node) :
  visited (snd (verify_folder ca_pk item t)) = [root_of item].
Proof.
  destruct item as [[root folders] files]. cbn [root_of fst].
  rewrite verify_folder_eq.
  destruct (fst (load_signatures root t)) as [[[s c] pk]|err]; [|reflexivity].
  destruct (verify_cert c ca_pk) as [[]|err]; [|reflexivity].
  destruct (verify_entries root folders files s pk t) as [r evs] eqn:He.
  cbn [snd]. change (visited (Visited root :: CertVerified root :: evs))
    with (root :: visited evs). f_equal.
  apply visited_none. intros e Hin r' ->.
  assert (H : Visited r' ∈ snd (verify_entries root folders files s pk t))
    by now rewrite He.
  apply verify_entries_events in H as (name & sg & [=] & _).
Qed.

Lemma events_of_visited ca_pk (t : node) (items : list walk_item) :
  visited (events_of (verify_folder ca_pk) items t) = map root_of items.
Proof.
  induction items as [|item items IH]; [reflexivity|].
  unfold events_of in *. cbn [flat_map map].
  now rewrite visited_app, verify_folder_visited, IH.
Qed.

Lemma load_crt_events (p : path) (t : node) : snd (load_crt p t) = [].
Proof.
  unfold load_crt, vread, vlift. rewrite vbind_eq.
  destruct (read_node t p); reflexivity.
Qed.

(** The whole function: the root certificate, then the loop. *)
Lemma verify_folder_signature_eq src_folder root_ca_path (t : node) :
  verify_folder_signature src_folder root_ca_path t =
    match fst (load_crt root_ca_path t) with
    | Raise _ => (false, [])
    | Ok root_ca_cert =>
        let (r, evs) :=
          vfor (os_walk t src_folder)
            (verify_folder (cert_public_key root_ca_cert)) t in
        (is_ok r, evs)
    end.
Proof.
  unfold verify_folder_signature, vwalk, vret, vbind.
  pose proof (load_crt_events root_ca_path t) as Hev.
  destruct (load_crt root_ca_path t) as [[c|e] evs]; cbn in Hev; subst evs;
    cbn [fst]; [|reflexivity].
  destruct (vfor (os_walk t src_folder) (verify_folder (cert_public_key c)) t)
    as [[[]|e] evs]; cbn [is_ok app]; now rewrite ?app_nil_r.
Qed.

End VerifyLog.

(** ** verify_folder_signature: failing, skipping, passing *)

Section VerifyOutcome.
Context {P : Platform}.

(** A directory fails when its manifest and its certificate load and
    either the certificate is not signed by the root key, or a recorded
    signature of a file (reserved names apart) or of a subfolder does not
    verify. *)
Definition folder_fails (t : node) (root_ca_public_key : public_key)
    (item : walk_item) : Prop :=
  let '(root, folders, files) := item in
  exists signatures cert pk,
    fst (load_signatures root t) = Ok (signatures, cert, pk)
    /\ (verify_cert cert root_ca_public_key <> Ok tt
        \/ (exists file sg data,
              file ∈ files /\ reserved file = false
              /\ recorded signatures file sg
              /\ read_node t (root ++ [file]) = Ok data
              /\ verify_content (PBytes data) sg pk <> Ok tt)
        \/ (exists folder sg,
              folder ∈ folders
              /\ recorded signatures folder sg
              /\ verify_content (PStr folder) sg pk <> Ok tt)).

(** A directory is skipped when its manifest or its certificate is
    absent or cannot be parsed. *)
Definition folder_skipped (t : node) (root : path) : Prop :=
  exists e, fst (load_signatures root t) = Raise e.

(** A directory is verified when both load, the manifest is a JSON
    object, the certificate is signed by the root key, and every recorded
    signature of a file (reserved names apart) or of a subfolder
    verifies. *)
Definition folder_verified (t : node) (root_ca_public_key : public_key)
    (item : walk_item) : Prop :=
  let '(root, folders, files) := item in
  exists m cert pk,
    fst (load_signatures root t) = Ok (PDict m, cert, pk)
    /\ verify_cert cert root_ca_public_key = Ok tt
    /\ (forall file sg,
          file ∈ files -> reserved file = false -> recorded (PDict m) file sg ->
          exists data,
            read_node t (root ++ [file]) = Ok data
            /\ verify_content (PBytes data) sg pk = Ok tt)
    /\ (forall folder sg,
          folder ∈ folders -> recorded (PDict m) folder sg ->
          verify_content (PStr folder) sg pk = Ok tt).

Lemma folder_fails_raises (t : node) ca_pk item :
  folder_fails t ca_pk item -> fst (verify_folder ca_pk item t) <> Ok tt.
Proof.
  destruct item as [[root folders] files].
  intros (s & c & pk & Hl & Hfail). rewrite verify_folder_eq, Hl.
  destruct (verify_cert c ca_pk) as [[]|e] eqn:Hc; [|discriminate].
  destruct (verify_entries root folders files s pk t) as [r evs] eqn:He.
  cbn [fst]. intros ->.
  assert (Hok : fst (verify_entries root folders files s pk t) = Ok tt)
    by now rewrite He.
  apply verify_entries_ok in Hok as [Hfiles Hfolders].
  rewrite Forall_forall in Hfiles, Hfolders.
  destruct Hfail as [Hcert|[(file & sg & data & Hin & Hr & [Hg Ht] & Hd & Hv)
                           |(folder & sg & Hin & [Hg Ht] & Hv)]].
  - now apply Hcert.
  - specialize (Hfiles _ Hin). rewrite verify_file_eq, Hr, Hg, Ht, Hd in Hfiles.
    now apply Hv.
  - specialize (Hfolders _ Hin). rewrite verify_subfolder_eq, Hg, Ht in Hfolders.
    now apply Hv.
Qed.

Lemma folder_skipped_run (t : node) ca_pk root folders files :
  folder_skipped t root ->
  verify_folder ca_pk (root, folders, files) t = (Ok tt, [Visited root]).
Proof. intros [e He]. now rewrite verify_folder_eq, He. Qed.

Lemma folder_verified_passes (t : node) ca_pk item :
  folder_verified t ca_pk item -> fst (verify_folder ca_pk item t) = Ok tt.
Proof.
  destruct item as [[root folders] files].
  intros (m & c & pk & Hl & Hc & Hfiles & Hfolders).
  rewrite verify_folder_eq, Hl, Hc.
  destruct (verify_entries root folders files (PDict m) pk t) as [r evs] eqn:He.
  cbn [fst]. replace r with (fst (verify_entries root folders files (PDict m) pk t))
    by now rewrite He.
  apply verify_entries_ok. split; apply Forall_forall.
  - intros file Hin. rewrite verify_file_eq.
    destruct (reserved file) eqn:Hr; [reflexivity|].
    destruct (py_get (PDict m) file) as [sg|] eqn:Hg; [|discriminate].
    destruct (truthy sg) eqn:Ht; [|reflexivity].
    destruct (Hfiles file sg Hin Hr (conj Hg Ht)) as (data & -> & Hv). exact Hv.
  - intros folder Hin. rewrite verify_subfolder_eq.
    destruct (py_get (PDict m) folder) as [sg|] eqn:Hg; [|discriminate].
    destruct (truthy sg) eqn:Ht; [|reflexivity].
    exact (Hfolders folder sg Hin (conj Hg Ht)).
Qed.

Lemma verify_folder_signature_bad_root src_folder root_ca_path (t : node) e :
  fst (load_crt root_ca_path t) = Raise e ->
  verify_folder_signature src_folder root_ca_path t = (false, []).
Proof. intros H. now rewrite verify_folder_signature_eq, H. Qed.

End VerifyOutcome.

(** C2. [verify_folder_signature] is a function into the booleans: every
    exception ends in its handler. If some directory of the walk fails
    (its manifest and certificate load, and the certificate does not
    validate against the root key, or a recorded signature does not verify
    against the file's bytes or the subfolder's name), the result is
    [false] for the whole tree, and the walk stops at the first directory
    whose check raises: the directories before it passed, and none after
    it is visited. *)
Theorem verify_folder_signature_fails (P : Platform)
    (src_folder root_ca_path : path) (t : node)
    (root_ca_cert : certificate public_key) (item : walk_item) :
  fst (load_crt root_ca_path t) = Ok root_ca_cert ->
  item ∈ os_walk t src_folder ->
  folder_fails t (cert_public_key root_ca_cert) item ->
  exists items1 item' items2,
    os_walk t src_folder = items1 ++ item' :: items2
    /\ Forall (fun i =>
                 fst (verify_folder (cert_public_key root_ca_cert) i t) = Ok tt)
         items1
    /\ fst (verify_folder (cert_public_key root_ca_cert) item' t) <> Ok tt
    /\ fst (verify_folder_signature src_folder root_ca_path t) = false
    /\ visited (snd (verify_folder_signature src_folder root_ca_path t))
       = map root_of (items1 ++ [item']).
Proof.
  intros Hca Hin Hfail. rewrite verify_folder_signature_eq, Hca.
  apply folder_fails_raises in Hfail.
  destruct (vfor_cases (verify_folder (cert_public_key root_ca_cert)) t
              (os_walk t src_folder))
    as [[Hall _]|(l1 & x & l2 & e & Heq & Hall & Hx & Hrun)].
  - rewrite Forall_forall in Hall. now specialize (Hall _ Hin).
  - exists l1, x, l2. rewrite Hrun. cbn [fst snd is_ok].
    split; [exact Heq|]. split; [exact Hall|]. split; [congruence|].
    split; [reflexivity|]. apply events_of_visited.
Qed.

(** C3. If every directory of the walk is either skipped (its manifest or
    its certificate is absent or unparsable) or verified, the result is
    [true] and the walk visits every directory; a skipped directory has
    none of its entries checked; and an entry is examined only if the
    manifest records a signature for it, so that an entry on disk that the
    manifest does not name is accepted as it is. *)
Theorem verify_folder_signature_skips (P : Platform)
    (src_folder root_ca_path : path) (t : node)
    (root_ca_cert : certificate public_key) :
  fst (load_crt root_ca_path t) = Ok root_ca_cert ->
  (forall item, item ∈ os_walk t src_folder ->
     folder_skipped t (root_of item)
     \/ folder_verified t (cert_public_key root_ca_cert) item) ->
  fst (verify_folder_signature src_folder root_ca_path t) = true
  /\ visited (snd (verify_folder_signature src_folder root_ca_path t))
     = map root_of (os_walk t src_folder)
  /\ (forall root e,
        folder_skipped t root ->
        e ∈ snd (verify_folder_signature src_folder root_ca_path t) ->
        e <> CertVerified root /\ forall name, e <> ContentVerified root name)
  /\ (forall root name,
        ContentVerified root name
          ∈ snd (verify_folder_signature src_folder root_ca_path t) ->
        exists signatures cert pk sg,
          fst (load_signatures root t) = Ok (signatures, cert, pk)
          /\ recorded signatures name sg).
Proof.
  intros Hca Hall. rewrite verify_folder_signature_eq, Hca.
  set (body := verify_folder (cert_public_key root_ca_cert)).
  assert (Hev : forall e,
    e ∈ snd (vfor (os_walk t src_folder) body t) ->
    exists root folders files,
      e ∈ snd (body (root, folders, files) t)).
  { intros e He. apply vfor_events in He as ([[root folders] files] & _ & He).
    eauto. }
  destruct (vfor_cases body t (os_walk t src_folder))
    as [[_ Hrun]|(l1 & x & l2 & e & Heq & _ & Hx & _)].
  2:{ exfalso. assert (Hin : x ∈ os_walk t src_folder).
      { rewrite Heq. apply elem_of_app. right. left. }
      destruct (Hall x Hin) as [Hs|Hv].
      - destruct x as [[root folders] files].
        unfold body in Hx. rewrite (folder_skipped_run _ _ _ _ _ Hs) in Hx.
        discriminate.
      - apply folder_verified_passes in Hv. unfold body in Hx. congruence. }
  rewrite Hrun in *. cbn [fst snd is_ok] in *.
  split; [reflexivity|]. split; [apply events_of_visited|]. split.
  - intros root e [err Hs] He.
    destruct (Hev e He) as (root' & folders & files & He').
    apply verify_folder_events in He'
      as [->|(s & c & pk & Hl & [->|(name & sg & -> & _)])].
    + split; [discriminate|]. intros name. discriminate.
    + split; [|intros name; discriminate]. intros [= <-]. congruence.
    + split; [discriminate|]. intros name' [= <- _]. congruence.
  - intros root name He.
    destruct (Hev _ He) as (root' & folders & files & He').
    apply verify_folder_events in He'
      as [[=]|(s & c & pk & Hl & [[=]|(name' & sg & [= <- <-] & Hrec & _)])].
    exists s, c, pk, sg. auto.
Qed.

(** ** A signed tree to run verification on *)

Definition demo_root_cert : certificate N :=
  Certificate (bstr "self") (bstr "root-tbs") SHA256 1 0 100.

(** The submitter's certificate: key 7, signed by the root key 1. *)
Definition demo_cert : certificate N :=
  Certificate (toy_sign 1 (bstr "tbs") PKCS1v15 SHA256 []) (bstr "tbs") SHA256
    7 0 100.

Definition demo_signature (data : bytes) : pyobj :=
  PStr (b64text (toy_sign 7 data (PSS (MGF1 SHA256) MAX_LENGTH) SHA256 [])).

Definition demo_manifest : pyobj :=
  PDict (<[str "a.txt" := demo_signature (bstr "hello")]>
           (<[str "sub" := demo_signature (bstr "sub")]> ∅)).

Definition demo_platform : Platform :=
  toy_platform
    [(bstr "ROOT", demo_root_cert); (bstr "CERT", demo_cert)]
    [(bstr "MANIFEST", demo_manifest)]
    (str ".__nvfl_sig.json") (str ".__nvfl_submitter.crt").

(** [app] is signed; [app/sub] has neither manifest nor certificate, and
    [app] holds a file [new.txt] that its manifest does not name. *)
Definition signed_app (a_txt : bytes) : list (pystr * node) :=
  [(str "a.txt", File a_txt);
   (str "new.txt", File (bstr "unsigned"));
   (str ".__nvfl_sig.json", File (bstr "MANIFEST"));
   (str ".__nvfl_submitter.crt", File (bstr "CERT"));
   (str "sub", Dir [(str "b.bin", File (bstr "x"))])].

Definition signed_fs : node :=
  Dir [(str "rootCA.pem", File (bstr "ROOT"));
       (str "app", Dir (signed_app (bstr "hello")))].

Definition tampered_fs : node :=
  Dir [(str "rootCA.pem", File (bstr "ROOT"));
       (str "app", Dir (signed_app (bstr "hellp")))].

Section VerifyExample.
#[local] Existing Instance demo_platform.

(** The certificate verifies under the key that signed it and under no
    other; one whose signature was made with the padding of content
    signatures does not verify. *)
Example verify_cert_issuer :
  verify_cert demo_cert 1 = Ok tt /\ verify_cert demo_cert 2 = Raise InvalidSignature.
Proof. split; reflexivity. Qed.

Example verify_cert_pss_signature :
  verify_cert
    (Certificate (toy_sign 1 (bstr "tbs") _content_padding SHA256 [])
       (bstr "tbs") SHA256 7 0 100) 1
  = Raise InvalidSignature.
Proof. reflexivity. Qed.

Example verify_signed_fs :
  verify_folder_signature [str "app"] [str "rootCA.pem"] signed_fs
  = (true,
     [Visited [str "app"]; CertVerified [str "app"];
      ContentVerified [str "app"] (str "a.txt");
      ContentVerified [str "app"] (str "sub");
      Visited [str "app"; str "sub"]]).
Proof. vm_compute. reflexivity. Qed.

Example verify_tampered_fs :
  verify_folder_signature [str "app"] [str "rootCA.pem"] tampered_fs
  = (false,
     [Visited [str "app"]; CertVerified [str "app"];
      ContentVerified [str "app"] (str "a.txt")]).
Proof. vm_compute. reflexivity. Qed.

Definition app_item : walk_item :=
  ([str "app"],
   [str "sub"],
   [str "a.txt"; str "new.txt"; str ".__nvfl_sig.json";
    str ".__nvfl_submitter.crt"]).

Lemma tampered_fs_fails : folder_fails tampered_fs 1%N app_item.
Proof.
  exists demo_manifest, demo_cert, 7%N. split; [vm_compute; reflexivity|].
  right. left.
  exists (str "a.txt"), (demo_signature (bstr "hello")), (bstr "hellp").
  split; [left|]. split; [vm_compute; reflexivity|].
  split; [split; vm_compute; reflexivity|].
  split; [vm_compute; reflexivity|]. vm_compute. discriminate.
Qed.

Lemma verify_folder_signature_fails_witness :
  fst (load_crt [str "rootCA.pem"] tampered_fs) = Ok demo_root_cert
  /\ app_item ∈ os_walk tampered_fs [str "app"]
  /\ folder_fails tampered_fs (cert_public_key demo_root_cert) app_item
  /\ exists items1 item' items2,
       os_walk tampered_fs [str "app"] = items1 ++ item' :: items2
       /\ Forall (fun i =>
                    fst (verify_folder (cert_public_key demo_root_cert) i
                           tampered_fs) = Ok tt) items1
       /\ fst (verify_folder (cert_public_key demo_root_cert) item' tampered_fs)
          <> Ok tt
       /\ fst (verify_folder_signature [str "app"] [str "rootCA.pem"] tampered_fs)
          = false
       /\ visited (snd (verify_folder_signature [str "app"] [str "rootCA.pem"]
                          tampered_fs))
          = map root_of (items1 ++ [item']).
Proof.
  assert (Hca : fst (load_crt [str "rootCA.pem"] tampered_fs) = Ok demo_root_cert)
    by (vm_compute; reflexivity).
  assert (Hin : app_item ∈ os_walk tampered_fs [str "app"])
    by (vm_compute; left).
  split; [exact Hca|]. split; [exact Hin|]. split; [exact tampered_fs_fails|].
  exact (verify_folder_signature_fails demo_platform [str "app"]
           [str "rootCA.pem"] tampered_fs demo_root_cert app_item
           Hca Hin tampered_fs_fails).
Defined.

Lemma signed_fs_folders :
  forall item, item ∈ os_walk signed_fs [str "app"] ->
    folder_skipped signed_fs (root_of item)
    \/ folder_verified signed_fs (cert_public_key demo_root_cert) item.
Proof.
  intros item Hin.
  assert (Hitems : os_walk signed_fs [str "app"]
                   = [app_item; ([str "app"; str "sub"], [], [str "b.bin"])])
    by (vm_compute; reflexivity).
  rewrite Hitems in Hin.
  apply elem_of_cons in Hin as [->|Hin];
    [|apply list_elem_of_singleton in Hin as ->].
  - right. exists (match demo_manifest with PDict m => m | _ => ∅ end), demo_cert, 7%N.
    split; [vm_compute; reflexivity|]. split; [vm_compute; reflexivity|]. split.
    + intros file sg Hfile Hres [Hget Htrue].
      repeat (apply elem_of_cons in Hfile as [->|Hfile]);
        try (vm_compute in Hres; discriminate);
        try (inversion Hfile; fail).
      * vm_compute in Hget. injection Hget as <-.
        exists (bstr "hello"). split; vm_compute; reflexivity.
      * vm_compute in Hget. injection Hget as <-. discriminate.
    + intros folder sg Hfolder [Hget Htrue].
      apply list_elem_of_singleton in Hfolder as ->.
      vm_compute in Hget. injection Hget as <-. vm_compute. reflexivity.
  - left. exists FileNotFoundError. vm_compute. reflexivity.
Qed.

Lemma verify_folder_signature_skips_witness :
  fst (load_crt [str "rootCA.pem"] signed_fs) = Ok demo_root_cert
  /\ fst (verify_folder_signature [str "app"] [str "rootCA.pem"] signed_fs) = true
  /\ visited (snd (verify_folder_signature [str "app"] [str "rootCA.pem"] signed_fs))
     = map root_of (os_walk signed_fs [str "app"])
  /\ (forall root e,
        folder_skipped signed_fs root ->
        e ∈ snd (verify_folder_signature [str "app"] [str "rootCA.pem"] signed_fs) ->
        e <> CertVerified root /\ forall name, e <> ContentVerified root name)
  /\ (forall root name,
        ContentVerified root name
          ∈ snd (verify_folder_signature [str "app"] [str "rootCA.pem"] signed_fs) ->
        exists signatures cert pk sg,
          fst (load_signatures root signed_fs) = Ok (signatures, cert, pk)
          /\ recorded signatures name sg).
Proof.
  assert (Hca : fst (load_crt [str "rootCA.pem"] signed_fs) = Ok demo_root_cert)
    by (vm_compute; reflexivity).
  split; [exact Hca|].
  exact (verify_folder_signature_skips demo_platform [str "app"]
           [str "rootCA.pem"] signed_fs demo_root_cert Hca signed_fs_folders).
Defined.

End VerifyExample.


Section ReservedExample.
#[local] Existing Instance bare_platform.


End ReservedExample.

(** ** The file system: well-formed trees and deletion *)

(** The names of a directory are distinct, at every level. *)
Inductive wf_node : node -> Prop :=
| wf_File data : wf_node (File data)
| wf_Special : wf_node Special
| wf_Dir es :
    NoDup (map fst es) -> Forall (fun e => wf_node (snd e)) es ->
    wf_node (Dir es).

Lemma wf_node_entry (es : list (pystr * node)) (n : pystr) (c : node) :
  wf_node (Dir es) -> entry n es = Some c -> wf_node c.
Proof.
  intros Hwf He. inversion Hwf as [| |? _ Hall]; subst.
  rewrite Forall_forall in Hall. exact (Hall _ (entry_elem_of _ _ _ He)).
Qed.

Lemma wf_node_lookup (p : path) :
  forall t c, wf_node t -> lookup_path t p = Some c -> wf_node c.
Proof.
  induction p as [|n p IH]; intros t c Hwf H; cbn in H.
  - now injection H as <-.
  - destruct t as [|es|]; try discriminate.
    destruct (entry n es) as [c'|] eqn:He; [|discriminate].
    eapply IH; [|exact H]. eapply wf_node_entry; eauto.
Qed.

Lemma entry_remove_entry_ne (m name : pystr) es :
  m <> name -> entry m (remove_entry name es) = entry m es.
Proof.
  intros Hne. induction es as [|[n c] es IH]; [reflexivity|]. cbn.
  destruct (decide (n = name)) as [->|Hn].
  - now rewrite decide_False by congruence.
  - cbn. destruct (decide (n = m)); auto.
Qed.

Lemma entry_None (name : pystr) es : name ∉ map fst es -> entry name es = None.
Proof.
  induction es as [|[n c] es IH]; [reflexivity|]. cbn. intros Hn.
  rewrite not_elem_of_cons in Hn. destruct Hn as [Hne Hn].
  rewrite decide_False by congruence. auto.
Qed.

Lemma entry_remove_entry (name : pystr) es :
  NoDup (map fst es) -> entry name (remove_entry name es) = None.
Proof.
  induction es as [|[n c] es IH]; [reflexivity|]. cbn. intros Hnd.
  apply NoDup_cons in Hnd as [Hn Hnd].
  destruct (decide (n = name)) as [->|Hne].
  - now apply entry_None.
  - cbn. rewrite decide_False by assumption. auto.
Qed.

Lemma remove_entry_subseteq (name : pystr) es : remove_entry name es ⊆ es.
Proof.
  induction es as [|[n c] es IH]; [reflexivity|]. cbn.
  destruct (decide (n = name)).
  - intros x Hx. now right.
  - intros x Hx. apply elem_of_cons in Hx as [->|Hx]; [left|right; auto].
Qed.

Lemma remove_entry_NoDup (name : pystr) es :
  NoDup (map fst es) -> NoDup (map fst (remove_entry name es)).
Proof.
  induction es as [|[n c] es IH]; [trivial|]. cbn. intros Hnd.
  apply NoDup_cons in Hnd as [Hn Hnd].
  destruct (decide (n = name)); [exact Hnd|]. cbn.
  apply NoDup_cons. split; [|auto]. intros Hin. apply Hn.
  apply list_elem_of_fmap in Hin as ([n' c'] & -> & Hin).
  apply list_elem_of_fmap. exists (n', c'). split; [reflexivity|].
  now apply remove_entry_subseteq in Hin.
Qed.

Lemma set_entry_names (name : pystr) (c c0 : node) es :
  entry name es = Some c0 -> map fst (set_entry name c es) = map fst es.
Proof.
  induction es as [|[n c'] es IH]; [discriminate|]. cbn.
  destruct (decide (n = name)) as [->|Hne]; [reflexivity|].
  intros H. cbn. now rewrite IH.
Qed.

Lemma set_entry_Forall (Q : pystr * node -> Prop) (name : pystr) (c : node) es :
  Forall Q es -> Q (name, c) -> Forall Q (set_entry name c es).
Proof.
  intros Hall Hc. induction Hall as [|[n c'] es Hx Hall IH]; cbn.
  - now constructor.
  - destruct (decide (n = name)) as [->|Hne]; constructor; auto.
Qed.

Lemma remove_node_kind (p : path) (t : node) :
  is_dir (remove_node t p) = is_dir t
  /\ (is_dir t = false -> remove_node t p = t).
Proof.
  destruct p as [|name p]; [auto|]. destruct t as [data|es|]; cbn; auto.
  split; [|discriminate]. destruct p.
  - destruct (entry name es) as [[| |]|]; reflexivity.
  - destruct (entry name es); reflexivity.
Qed.

Lemma wf_node_remove (p : path) : forall t, wf_node t -> wf_node (remove_node t p).
Proof.
  induction p as [|name p IH]; intros t Hwf; [exact Hwf|].
  destruct t as [data|es|]; try exact Hwf. cbn.
  inversion Hwf as [| |? Hnd Hall]; subst.
  destruct p as [|name' p].
  - destruct (entry name es) as [[| |]|]; try exact Hwf.
    constructor; [now apply remove_entry_NoDup|].
    rewrite Forall_forall in *. intros x Hx.
    apply Hall. now apply remove_entry_subseteq in Hx.
  - destruct (entry name es) as [c|] eqn:He; [|exact Hwf].
    constructor.
    + now rewrite (set_entry_names _ _ _ _ He).
    + apply set_entry_Forall; [exact Hall|]. cbn.
      apply IH. eapply wf_node_entry; eauto.
Qed.

Lemma remove_node_other_file (p : path) :
  forall t q x,
    lookup_path t q = Some (File x) -> q <> p ->
    lookup_path (remove_node t p) q = Some (File x).
Proof.
  induction p as [|name p IH]; intros t q x Hx Hq; [exact Hx|].
  destruct t as [data|es|]; try exact Hx.
  destruct q as [|m q]; [discriminate|]. cbn in Hx. cbn [remove_node].
  destruct (decide (m = name)) as [->|Hm].
  - assert (Hq' : q <> p) by congruence.
    destruct p as [|name' p].
    + destruct (entry name es) as [[| |]|] eqn:He; cbn; rewrite ?He; try exact Hx.
      destruct q; [congruence|discriminate].
    + destruct (entry name es) as [c|] eqn:He; [|discriminate].
      cbn [lookup_path]. rewrite entry_set_entry. now apply IH.
  - assert (Hl : forall es', entry m es' = entry m es ->
                   lookup_path (Dir es') (m :: q) = Some (File x)).
    { intros es' E. cbn. now rewrite E. }
    destruct p as [|name' p].
    + destruct (entry name es) as [[| |]|]; try (now apply Hl).
      apply Hl, entry_remove_entry_ne. assumption.
    + destruct (entry name es) as [c|]; [|now apply Hl].
      apply Hl, entry_set_entry_ne. assumption.
Qed.

(** [es'] holds nothing that [es] does not hold: each of its entries is an
    entry of [es], a subdirectory possibly standing for a subdirectory of
    another content. *)
Definition sub_entries (es' es : list (pystr * node)) : Prop :=
  forall n c',
    entry n es' = Some c' ->
    exists c, entry n es = Some c
              /\ (c' = c \/ (is_dir c' = true /\ is_dir c = true)).

Lemma sub_entries_refl es : sub_entries es es.
Proof. intros n c H. exists c. auto. Qed.

(** A directory of the tree after a deletion is a directory of the tree
    before it, with no more entries. *)
Lemma remove_node_dir (p : path) :
  forall t q es',
    wf_node t ->
    lookup_path (remove_node t p) q = Some (Dir es') ->
    exists es, lookup_path t q = Some (Dir es) /\ sub_entries es' es.
Proof.
  induction p as [|name p IH]; intros t q es' Hwf H.
  { exists es'. split; [exact H|apply sub_entries_refl]. }
  destruct t as [data|es0|];
    try (exists es'; split; [exact H|apply sub_entries_refl]).
  inversion Hwf as [| |? Hnd Hall]; subst. cbn [remove_node] in H.
  destruct p as [|name' p].
  - destruct (entry name es0) as [[data| |]|] eqn:He;
      try (exists es'; split; [exact H|apply sub_entries_refl]).
    destruct q as [|m q].
    + injection H as <-. exists es0. split; [reflexivity|].
      intros n c' Hn. destruct (decide (n = name)) as [->|Hne].
      * now rewrite entry_remove_entry in Hn.
      * rewrite entry_remove_entry_ne in Hn by assumption. exists c'. auto.
    + cbn in H. destruct (decide (m = name)) as [->|Hne].
      * now rewrite entry_remove_entry in H.
      * rewrite entry_remove_entry_ne in H by assumption.
        exists es'. split; [exact H|apply sub_entries_refl].
  - destruct (entry name es0) as [c|] eqn:He;
      [|exists es'; split; [exact H|apply sub_entries_refl]].
    destruct q as [|m q].
    + injection H as <-. exists es0. split; [reflexivity|].
      intros n c' Hn. destruct (decide (n = name)) as [->|Hne].
      * rewrite entry_set_entry in Hn. injection Hn as <-.
        exists c. split; [exact He|].
        destruct (remove_node_kind (name' :: p) c) as [Hk Hsame].
        destruct (is_dir c) eqn:Hc; [right; auto|left; auto].
      * rewrite entry_set_entry_ne in Hn by assumption. exists c'. auto.
    + cbn [lookup_path] in H. destruct (decide (m = name)) as [->|Hne].
      * rewrite entry_set_entry in H.
        destruct (IH c q es' (wf_node_entry _ _ _ Hwf He) H) as (es & Hl & Hsub).
        exists es. split; [|exact Hsub]. cbn. now rewrite He.
      * rewrite entry_set_entry_ne in H by assumption.
        exists es'. split; [exact H|apply sub_entries_refl].
Qed.

Lemma elem_of_dirnames (n : pystr) es :
  n ∈ dirnames es <-> exists c, (n, c) ∈ es /\ is_dir c = true.
Proof.
  unfold dirnames. rewrite list_elem_of_omap. split.
  - intros ([n' c] & Hin & H). cbn in H.
    destruct (is_dir c) eqn:Hc; [|discriminate]. injection H as ->. eauto.
  - intros (c & Hin & Hc). exists (n, c). split; [exact Hin|]. cbn. now rewrite Hc.
Qed.

Lemma elem_of_filenames (n : pystr) es :
  n ∈ filenames es <-> exists c, (n, c) ∈ es /\ is_dir c = false.
Proof.
  unfold filenames. rewrite list_elem_of_omap. split.
  - intros ([n' c] & Hin & H). cbn in H.
    destruct (is_dir c) eqn:Hc; [discriminate|]. injection H as ->. eauto.
  - intros (c & Hin & Hc). exists (n, c). split; [exact Hin|]. cbn. now rewrite Hc.
Qed.

Lemma sub_entries_dirnames es' es (n : pystr) :
  NoDup (map fst es') -> sub_entries es' es -> n ∈ dirnames es' -> n ∈ dirnames es.
Proof.
  intros Hnd Hsub Hn. apply elem_of_dirnames in Hn as (c' & Hin & Hc').
  destruct (Hsub n c' (elem_of_entry _ _ _ Hnd Hin)) as (c & He & Hrel).
  apply elem_of_dirnames. exists c. split; [now apply entry_elem_of|].
  destruct Hrel as [<-|[_ Hc]]; assumption.
Qed.

Lemma sub_entries_filenames es' es (n : pystr) :
  NoDup (map fst es') -> sub_entries es' es -> n ∈ filenames es' ->
  n ∈ filenames es /\ entry n es' = entry n es.
Proof.
  intros Hnd Hsub Hn. apply elem_of_filenames in Hn as (c' & Hin & Hc').
  pose proof (elem_of_entry _ _ _ Hnd Hin) as He'.
  destruct (Hsub n c' He') as (c & He & Hrel).
  assert (c' = c) as <- by (destruct Hrel as [|[Hd _]]; congruence).
  split; [|congruence].
  apply elem_of_filenames. exists c'. split; [now apply entry_elem_of|assumption].
Qed.

(** ** The walk and the tree *)

(** In a well-formed tree each item of the walk is the listing of the
    directory that its root names. *)
Lemma walk_lookup (c : node) :
  forall top item,
    wf_node c -> item ∈ walk top c ->
    exists rel es,
      lookup_path c rel = Some (Dir es)
      /\ item = (top ++ rel, dirnames es, filenames es).
Proof.
  induction c as [data| |es0 IH] using node_nested_ind; intros top item Hwf Hin;
    try (inversion Hin; fail).
  rewrite walk_Dir in Hin. apply elem_of_cons in Hin as [->|Hin].
  - exists [], es0. now rewrite app_nil_r.
  - unfold walk_entries in Hin. apply list_elem_of_In, in_flat_map in Hin.
    destruct Hin as ([n c'] & Hc & Hitem). apply list_elem_of_In in Hc, Hitem.
    inversion Hwf as [| |? Hnd Hall]; subst.
    rewrite Forall_forall in IH, Hall. cbn [fst snd] in Hitem.
    destruct (IH _ Hc _ _ (Hall _ Hc) Hitem) as (rel & es & Hl & ->).
    exists (n :: rel), es. split.
    + cbn. now rewrite (elem_of_entry _ _ _ Hnd Hc).
    + now rewrite <- app_assoc.
Qed.

Lemma lookup_walk (rel : path) :
  forall c top es,
    lookup_path c rel = Some (Dir es) ->
    (top ++ rel, dirnames es, filenames es) ∈ walk top c.
Proof.
  induction rel as [|n rel IH]; intros c top es H; cbn in H.
  - injection H as ->. rewrite walk_Dir, app_nil_r. left.
  - destruct c as [|es0|]; try discriminate.
    destruct (entry n es0) as [c'|] eqn:He; [|discriminate].
    rewrite walk_Dir. right. unfold walk_entries.
    apply list_elem_of_In, in_flat_map. exists (n, c'). split.
    + apply list_elem_of_In. now apply entry_elem_of.
    + apply list_elem_of_In. cbn [fst snd].
      replace (top ++ n :: rel) with ((top ++ [n]) ++ rel)
        by now rewrite <- app_assoc.
      now apply IH.
Qed.

Lemma os_walk_lookup (t : node) (src : path) (item : walk_item) :
  wf_node t -> item ∈ os_walk t src ->
  exists rel es,
    lookup_path t (src ++ rel) = Some (Dir es)
    /\ item = (src ++ rel, dirnames es, filenames es)
    /\ NoDup (map fst es).
Proof.
  unfold os_walk. intros Hwf Hin.
  destruct (lookup_path t src) as [c|] eqn:Hsrc; [|inversion Hin].
  destruct (walk_lookup c src item (wf_node_lookup _ _ _ Hwf Hsrc) Hin)
    as (rel & es & Hl & ->).
  exists rel, es. rewrite lookup_path_app, Hsrc. split; [exact Hl|].
  split; [reflexivity|].
  assert (Hes : wf_node (Dir es)).
  { eapply (wf_node_lookup rel c); eauto using wf_node_lookup. }
  now inversion Hes.
Qed.

Lemma lookup_os_walk (t : node) (src rel : path) es :
  lookup_path t (src ++ rel) = Some (Dir es) ->
  (src ++ rel, dirnames es, filenames es) ∈ os_walk t src.
Proof.
  rewrite lookup_path_app. unfold os_walk.
  destruct (lookup_path t src) as [c|]; [|discriminate].
  apply lookup_walk.
Qed.

(** ** Verification after a deletion *)

Lemma remove_node_gone (p : path) :
  forall t data,
    wf_node t -> p <> [] -> lookup_path t p = Some (File data) ->
    lookup_path (remove_node t p) p = None.
Proof.
  induction p as [|name p IH]; intros t data Hwf Hp H; [congruence|].
  destruct t as [d|es|]; try discriminate. cbn in H. cbn [remove_node].
  inversion Hwf as [| |? Hnd Hall]; subst.
  destruct (entry name es) as [c|] eqn:He; [|discriminate].
  destruct p as [|name' p].
  - cbn in H. injection H as ->. cbn. now rewrite entry_remove_entry.
  - cbn [lookup_path]. rewrite entry_set_entry.
    eapply IH; [eapply wf_node_entry| |]; eauto; discriminate.
Qed.

Section DeleteProperties.
Context {P : Platform}.

Lemma read_node_child (t : node) (root : path) es (n : pystr) :
  lookup_path t root = Some (Dir es) ->
  read_node t (root ++ [n]) =
    match entry n es with
    | Some (File d) => Ok d
    | Some (Dir _) => Raise IsADirectoryError
    | Some Special => Raise OSError
    | None => Raise FileNotFoundError
    end.
Proof.
  intros H. unfold read_node. rewrite (lookup_path_child _ _ _ n H).
  destruct (entry n es) eqn:He; [reflexivity|].
  now rewrite (lookup_failure_child _ _ _ _ H He).
Qed.

Lemma read_node_sub_entries (t t' : node) (root : path) es es' (n : pystr) d :
  lookup_path t root = Some (Dir es) ->
  lookup_path t' root = Some (Dir es') ->
  sub_entries es' es ->
  read_node t' (root ++ [n]) = Ok d -> read_node t (root ++ [n]) = Ok d.
Proof.
  intros Ht Ht' Hsub. rewrite (read_node_child _ _ _ _ Ht), (read_node_child _ _ _ _ Ht').
  destruct (entry n es') as [[d'| |]|] eqn:He'; try discriminate.
  intros [= ->]. destruct (Hsub _ _ He') as (c & -> & [<-|[Hd _]]);
    [reflexivity|discriminate].
Qed.

Lemma load_crt_fst (p : path) (t : node) :
  fst (load_crt p t) = rbind (read_node t p) load_crt_bytes.
Proof.
  unfold load_crt, vread, vlift. rewrite vbind_eq.
  destruct (read_node t p); reflexivity.
Qed.

(** A directory that passes keeps passing when entries are taken away
    from it. *)
Lemma verify_folder_sub_entries ca_pk (t t' : node) (root : path) es es' :
  lookup_path t root = Some (Dir es) ->
  lookup_path t' root = Some (Dir es') ->
  NoDup (map fst es') ->
  sub_entries es' es ->
  fst (verify_folder ca_pk (root, dirnames es, filenames es) t) = Ok tt ->
  fst (verify_folder ca_pk (root, dirnames es', filenames es') t') = Ok tt.
Proof.
  intros Ht Ht' Hnd Hsub H. rewrite verify_folder_eq in H |- *.
  destruct (fst (load_signatures root t')) as [[[s c] pk]|e] eqn:Hl'; [|reflexivity].
  apply load_signatures_ok in Hl' as (manifest & pem & Hr1 & Hj & Hr2 & Hp & ->).
  assert (Hl : fst (load_signatures root t) = Ok (s, c, cert_public_key c)).
  { apply load_signatures_ok. exists manifest, pem.
    eauto 8 using read_node_sub_entries. }
  rewrite Hl in H.
  destruct (verify_cert c ca_pk) as [[]|e]; [|discriminate].
  destruct (verify_entries root (dirnames es) (filenames es) s
              (cert_public_key c) t) as [r evs] eqn:He.
  cbn [fst] in H. subst r.
  assert (Hok : fst (verify_entries root (dirnames es) (filenames es) s
                       (cert_public_key c) t) = Ok tt) by now rewrite He.
  apply verify_entries_ok in Hok as [Hfiles Hfolders].
  rewrite Forall_forall in Hfiles, Hfolders.
  destruct (verify_entries root (dirnames es') (filenames es') s
              (cert_public_key c) t') as [r' evs'] eqn:He'.
  cbn [fst].
  replace r' with (fst (verify_entries root (dirnames es') (filenames es') s
                          (cert_public_key c) t')) by now rewrite He'.
  apply verify_entries_ok. split; apply Forall_forall.
  - intros file Hin.
    destruct (sub_entries_filenames _ _ _ Hnd Hsub Hin) as [Hin0 Heq].
    specialize (Hfiles _ Hin0). rewrite verify_file_eq in Hfiles |- *.
    now rewrite (read_node_child _ _ _ _ Ht'), Heq, <- (read_node_child _ _ _ _ Ht).
  - intros folder Hin.
    specialize (Hfolders _ (sub_entries_dirnames _ _ _ Hnd Hsub Hin)).
    rewrite verify_subfolder_eq in Hfolders |- *. exact Hfolders.
Qed.

End DeleteProperties.

(** C9. Verification examines only what is on disk: every name that it
    checks is an entry of the directory being visited, so a key of the
    manifest with no file or subfolder behind it is never looked at. And
    deleting a file from a tree that verifies (the root certificate
    apart) leaves a tree that verifies, although the manifest of its
    directory still names it. *)
Theorem verify_folder_signature_after_delete (P : Platform)
    (src_folder root_ca_path : path) (t : node) (dir : path) (file : pystr)
    (data : bytes) :
  wf_node t ->
  lookup_path t (dir ++ [file]) = Some (File data) ->
  dir ++ [file] <> root_ca_path ->
  fst (verify_folder_signature src_folder root_ca_path t) = true ->
  lookup_path (remove_node t (dir ++ [file])) (dir ++ [file]) = None
  /\ fst (verify_folder_signature src_folder root_ca_path
            (remove_node t (dir ++ [file]))) = true
  /\ forall root name,
       ContentVerified root name
         ∈ snd (verify_folder_signature src_folder root_ca_path t) ->
       is_Some (lookup_path t (root ++ [name])).
Proof.
  intros Hwf Hp Hne Htrue. set (p := dir ++ [file]) in *.
  split.
  { eapply remove_node_gone; eauto. subst p. now destruct dir. }
  rewrite !verify_folder_signature_eq in *.
  destruct (fst (load_crt root_ca_path t)) as [c|] eqn:Hca; [|discriminate].
  split.
  - assert (Hca' : fst (load_crt root_ca_path (remove_node t p)) = Ok c).
    { rewrite load_crt_fst in Hca |- *. unfold read_node in *.
      destruct (lookup_path t root_ca_path) as [[d| |]|] eqn:Hl; try discriminate.
      rewrite (remove_node_other_file p t root_ca_path d Hl) by congruence.
      exact Hca. }
    rewrite Hca'.
    set (body := verify_folder (cert_public_key c)) in *.
    destruct (vfor (os_walk t src_folder) body t) as [r evs] eqn:Hrun.
    cbn [fst] in Htrue. destruct r as [[]|]; [|discriminate].
    assert (Hall : fst (vfor (os_walk t src_folder) body t) = Ok tt)
      by now rewrite Hrun.
    apply vfor_ok in Hall. rewrite Forall_forall in Hall.
    assert (Hgoal : fst (vfor (os_walk (remove_node t p) src_folder) body
                           (remove_node t p)) = Ok tt).
    { apply vfor_ok, Forall_forall. intros item' Hin.
      destruct (os_walk_lookup _ _ _ (wf_node_remove p t Hwf) Hin)
        as (rel & es' & Hl' & -> & Hnd).
      destruct (remove_node_dir p t _ es' Hwf Hl') as (es & Hl & Hsub).
      apply (verify_folder_sub_entries _ t _ _ es es'); auto.
      apply Hall. now apply lookup_os_walk. }
    destruct (vfor (os_walk (remove_node t p) src_folder) body (remove_node t p))
      as [r' evs']. cbn [fst] in *. now rewrite Hgoal.
  - intros root name He.
    destruct (vfor (os_walk t src_folder) (verify_folder (cert_public_key c)) t)
      as [r evs] eqn:Hrun. cbn [snd] in He.
    replace evs with
      (snd (vfor (os_walk t src_folder) (verify_folder (cert_public_key c)) t))
      in He by now rewrite Hrun.
    apply vfor_events in He as ([[root' folders] files] & Hin & He).
    apply verify_folder_events in He
      as [[=]|(s & c' & pk & _ & [[=]|(n & sg & [= <- <-] & _ & Hn)])].
    destruct Hn as [(_ & _ & d & Hread)|Hfolder].
    + unfold read_node in Hread.
      destruct (lookup_path t (root ++ [name])); [eauto|discriminate].
    + destruct (os_walk_lookup _ _ _ Hwf Hin) as (rel & es & Hl & [= -> -> ->] & Hnd).
      rewrite (lookup_path_child _ _ _ name Hl).
      apply elem_of_dirnames in Hfolder as (c0 & Hc0 & _).
      rewrite (elem_of_entry _ _ _ Hnd Hc0). eauto.
Qed.

Section DeleteExample.
#[local] Existing Instance demo_platform.

Lemma signed_fs_wf : wf_node signed_fs.
Proof.
  repeat (constructor; try (apply (bool_decide_unpack _); vm_compute; reflexivity)).
Qed.

Lemma verify_folder_signature_after_delete_witness :
  wf_node signed_fs
  /\ lookup_path signed_fs ([str "app"] ++ [str "a.txt"])
     = Some (File (bstr "hello"))
  /\ [str "app"] ++ [str "a.txt"] <> [str "rootCA.pem"]
  /\ fst (verify_folder_signature [str "app"] [str "rootCA.pem"] signed_fs) = true
  /\ lookup_path (remove_node signed_fs ([str "app"] ++ [str "a.txt"]))
       ([str "app"] ++ [str "a.txt"]) = None
  /\ fst (verify_folder_signature [str "app"] [str "rootCA.pem"]
            (remove_node signed_fs ([str "app"] ++ [str "a.txt"]))) = true
  /\ forall root name,
       ContentVerified root name
         ∈ snd (verify_folder_signature [str "app"] [str "rootCA.pem"] signed_fs) ->
       is_Some (lookup_path signed_fs (root ++ [name])).
Proof.
  assert (Hne : [str "app"] ++ [str "a.txt"] <> [str "rootCA.pem"])
    by discriminate.
  assert (Htrue : fst (verify_folder_signature [str "app"] [str "rootCA.pem"]
                         signed_fs) = true) by (vm_compute; reflexivity).
  split; [exact signed_fs_wf|]. split; [reflexivity|]. split; [exact Hne|].
  split; [exact Htrue|].
  exact (verify_folder_signature_after_delete demo_platform [str "app"]
           [str "rootCA.pem"] signed_fs [str "app"] (str "a.txt") (bstr "hello")
           signed_fs_wf eq_refl Hne Htrue).
Defined.

(** The manifest of [app] still names [a.txt] after the deletion; the
    walk no longer meets the file, and does not miss it. *)
Example verify_after_delete_log :
  verify_folder_signature [str "app"] [str "rootCA.pem"]
    (remove_node signed_fs [str "app"; str "a.txt"])
  = (true,
     [Visited [str "app"]; CertVerified [str "app"];
      ContentVerified [str "app"] (str "sub");
      Visited [str "app"; str "sub"]]).
Proof. vm_compute. reflexivity. Qed.

End DeleteExample.

(** ** os.walk is a generator

    [os.walk] lists a directory only when the loop asks for the next item,
    after the body has run on the items before it. The function below
    follows the generator step by step: the directories still to be
    listed are kept on a stack, and each is listed in the file system as
    it is when its turn comes. On a well-formed tree it does what
    [sign_folders] does with the items taken at the start: the body
    writes two files into the directory that it is given, and that
    changes the listing of no directory that is still on the stack. *)

Section LazyWalk.
Context {P : Platform}.

Fixpoint sign_folders_lazy (fuel : nat) (stack : list path)
    (signing_pri_key : private_key) (crt_path : path) (max_depth depth : Z)
  : M unit :=
  match fuel, stack with
  | _, [] => ret tt
  | O, _ :: _ => ret tt
  | S fuel', top :: stack' =>
      fun w =>
        match lookup_path (fs w) top with
        | Some (Dir es) =>
            let depth := (depth + 1)%Z in
            (sign_folder (top, dirnames es, filenames es) signing_pri_key crt_path ;;
             if (depth >=? max_depth)%Z
             then ret tt
             else sign_folders_lazy fuel'
                    (map (fun d => top ++ [d]) (dirnames es) ++ stack')
                    signing_pri_key crt_path max_depth depth)%M w
        | _ =>
            sign_folders_lazy fuel' stack' signing_pri_key crt_path
              max_depth depth w
        end
  end.

(** No path of the stack leads through another. *)
Fixpoint incomparable (stack : list path) : Prop :=
  match stack with
  | [] => True
  | q :: stack' =>
      Forall (fun q' => ~ q `prefix_of` q' /\ ~ q' `prefix_of` q) stack'
      /\ incomparable stack'
  end.

Lemma incomparable_app (l1 l2 : list path) :
  incomparable l1 -> incomparable l2 ->
  Forall (fun a => Forall (fun b => ~ a `prefix_of` b /\ ~ b `prefix_of` a) l2) l1 ->
  incomparable (l1 ++ l2).
Proof.
  induction l1 as [|a l1 IH]; intros H1 H2 H12; [exact H2|].
  cbn in *. destruct H1 as [Ha H1]. apply Forall_cons in H12 as [Hab H12].
  split; [apply Forall_app; auto|auto].
Qed.

Lemma prefix_snoc_inv (q top : path) (x : pystr) :
  q `prefix_of` top ++ [x] -> q `prefix_of` top \/ q = top ++ [x].
Proof.
  intros [k Hk]. destruct (decide (k = [])) as [->|Hne].
  - right. now rewrite app_nil_r in Hk.
  - left. destruct (exists_last Hne) as (k' & y & ->).
    rewrite app_assoc in Hk. apply app_inj_tail in Hk as [-> _].
    now exists k'.
Qed.

Lemma incomparable_children (top : path) (names : list pystr) :
  NoDup names -> incomparable (map (fun d => top ++ [d]) names).
Proof.
  induction 1 as [|n names Hn Hnd IH]; cbn; [exact I|].
  split; [|exact IH]. apply Forall_forall. intros q Hq.
  apply list_elem_of_fmap in Hq as (m & -> & Hm).
  split; intros Hp; apply prefix_snoc_inv in Hp as [Hp|Hp].
  - apply prefix_length in Hp. rewrite length_app in Hp. cbn in Hp. lia.
  - apply app_inj_tail in Hp as [_ ->]. contradiction.
  - apply prefix_length in Hp. rewrite length_app in Hp. cbn in Hp. lia.
  - apply app_inj_tail in Hp as [_ ->]. contradiction.
Qed.

Lemma dirnames_NoDup es : NoDup (map fst es) -> NoDup (dirnames es).
Proof.
  induction es as [|[n c] es IH]; cbn; [constructor|]. intros Hnd.
  apply NoDup_cons in Hnd as [Hn Hnd]. unfold dirnames in *. cbn.
  destruct (is_dir c); [|auto]. apply NoDup_cons. split; [|auto].
  intros Hin. apply Hn. apply elem_of_dirnames in Hin as (c' & Hin & _).
  apply list_elem_of_fmap. now exists (n, c').
Qed.

(** *** Writes and well-formedness *)

Lemma entry_None_inv (name : pystr) es :
  entry name es = None -> name ∉ map fst es.
Proof.
  induction es as [|[n c] es IH]; cbn; [intros _ H; inversion H|].
  destruct (decide (n = name)); [discriminate|]. intros H.
  apply not_elem_of_cons. split; [congruence|auto].
Qed.

Lemma set_entry_names_new (name : pystr) (c : node) es :
  entry name es = None -> map fst (set_entry name c es) = map fst es ++ [name].
Proof.
  induction es as [|[n c'] es IH]; [reflexivity|]. cbn.
  destruct (decide (n = name)); [discriminate|]. intros H. cbn. now rewrite IH.
Qed.

Lemma set_entry_NoDup (name : pystr) (c : node) es :
  NoDup (map fst es) -> NoDup (map fst (set_entry name c es)).
Proof.
  intros Hnd. destruct (entry name es) as [c0|] eqn:He.
  - now rewrite (set_entry_names _ _ _ _ He).
  - rewrite (set_entry_names_new _ _ _ He). apply NoDup_app.
    split; [exact Hnd|]. split; [|apply NoDup_singleton].
    intros x Hx Hx'. apply list_elem_of_singleton in Hx' as ->.
    now apply entry_None_inv in He.
Qed.

Lemma wf_node_write (p : path) (data : bytes) :
  forall t t', write_node t p data = Ok t' -> wf_node t -> wf_node t'.
Proof.
  induction p as [|name p IH]; intros t t' H Hwf; [discriminate|].
  cbn in H. destruct t as [|es|]; try discriminate.
  inversion Hwf as [| |? Hnd Hall]; subst.
  destruct p as [|name' p].
  - destruct (entry name es) as [[| |]|]; try discriminate; injection H as <-;
      (constructor; [now apply set_entry_NoDup|]);
      (apply set_entry_Forall; [exact Hall|constructor]).
  - destruct (entry name es) as [c|] eqn:He; [|discriminate].
    destruct (write_node c (name' :: p) data) as [c'|] eqn:Hc; [|discriminate].
    injection H as <-. constructor; [now apply set_entry_NoDup|].
    apply set_entry_Forall; [exact Hall|]. cbn.
    eapply IH; [exact Hc|]. eapply wf_node_entry; eauto.
Qed.

Lemma write_node_not_dir (p : path) (data : bytes) :
  forall t t' es, write_node t p data = Ok t' -> lookup_path t p <> Some (Dir es).
Proof.
  induction p as [|name p IH]; intros t t' es H; [discriminate|].
  cbn in H. destruct t as [|es0|]; try discriminate. cbn.
  destruct p as [|name' p].
  - destruct (entry name es0) as [[| |]|]; discriminate.
  - destruct (entry name es0) as [c|]; [|discriminate].
    destruct (write_node c (name' :: p) data) as [c'|] eqn:Hc; [|discriminate].
    eapply IH; eauto.
Qed.

(** A write changes no directory other than those on the way to the
    written file. *)
Lemma write_node_keeps_dir (p : path) (data : bytes) (t t' : node) (q : path) es :
  write_node t p data = Ok t' ->
  (q `prefix_of` p -> q = p) ->
  lookup_path t q = Some (Dir es) -> lookup_path t' q = Some (Dir es).
Proof.
  intros H Hq Hl. destruct (decide (q `prefix_of` p)) as [Hp|Hp].
  - rewrite (Hq Hp) in Hl. now apply (write_node_not_dir _ _ _ _ es) in H.
  - now rewrite (write_node_frame _ _ _ _ _ H Hp).
Qed.

Lemma sign_folder_wf item key crt w r w' :
  sign_folder item key crt w = (r, w') -> wf_node (fs w) -> wf_node (fs w').
Proof.
  destruct item as [[root folders] files]. intros H Hwf.
  destruct (sign_folder_writes _ _ _ _ _ _ _ _ H)
    as [->|[(d & H1)|(d & t1 & c & H1 & H2)]]; eauto using wf_node_write.
Qed.

Lemma sign_folder_keeps_dir item key crt w r w' (q : path) es :
  sign_folder item key crt w = (r, w') ->
  ~ q `prefix_of` root_of item ->
  lookup_path (fs w) q = Some (Dir es) -> lookup_path (fs w') q = Some (Dir es).
Proof.
  destruct item as [[root folders] files]. cbn [root_of fst]. intros H Hq Hl.
  assert (Hx : forall x, q `prefix_of` root ++ [x] -> q = root ++ [x]).
  { intros x Hp. apply prefix_snoc_inv in Hp as [Hp|Hp]; [contradiction|exact Hp]. }
  destruct (sign_folder_writes _ _ _ _ _ _ _ _ H)
    as [->|[(d & H1)|(d & t1 & c & H1 & H2)]]; eauto using write_node_keeps_dir.
Qed.

(** *** The stack and the items *)

Lemma os_walk_Dir (t : node) (q : path) es :
  lookup_path t q = Some (Dir es) ->
  os_walk t q = (q, dirnames es, filenames es) :: walk_entries q es.
Proof. intros H. unfold os_walk. now rewrite H, walk_Dir. Qed.

Lemma os_walk_children (t : node) (top : path) es :
  (forall n c, (n, c) ∈ es -> is_dir c = true ->
     lookup_path t (top ++ [n]) = Some c) ->
  flat_map (os_walk t) (map (fun d => top ++ [d]) (dirnames es))
  = walk_entries top es.
Proof.
  unfold walk_entries, dirnames.
  induction es as [|[n c] es IH]; intros H; [reflexivity|]. cbn.
  assert (IH' := IH (fun n' c' Hin => H n' c' (list_elem_of_further _ _ _ Hin))).
  destruct (is_dir c) eqn:Hc.
  - cbn. rewrite IH'. f_equal. unfold os_walk.
    now rewrite (H n c (list_elem_of_here _ _) Hc).
  - rewrite IH'. destruct c; try discriminate; reflexivity.
Qed.

Lemma os_walk_stack (t t' : node) (stack : list path) :
  Forall (fun q => lookup_path t' q = lookup_path t q) stack ->
  flat_map (os_walk t') stack = flat_map (os_walk t) stack.
Proof.
  induction 1 as [|q stack Hq _ IH]; [reflexivity|]. cbn.
  rewrite IH. f_equal. unfold os_walk. now rewrite Hq.
Qed.

Definition all_dirs (t : node) (stack : list path) : Prop :=
  Forall (fun q => exists es, lookup_path t q = Some (Dir es)) stack.

Lemma sign_folders_lazy_loop key crt (max_depth : Z) :
  forall (fuel : nat) (stack : list path) (depth : Z) (w : world),
    wf_node (fs w) ->
    incomparable stack ->
    all_dirs (fs w) stack ->
    (length (flat_map (os_walk (fs w)) stack) <= fuel)%nat ->
    sign_folders_lazy fuel stack key crt max_depth depth w
    = sign_folders_loop (flat_map (os_walk (fs w)) stack) key crt max_depth depth w.
Proof.
  induction fuel as [|fuel IH]; intros stack depth w Hwf Hinc Hdirs Hfuel.
  - destruct stack as [|top stack]; [reflexivity|].
    apply Forall_cons in Hdirs as [[es Hes] _]. cbn in Hfuel.
    rewrite (os_walk_Dir _ _ _ Hes) in Hfuel. cbn in Hfuel. lia.
  - destruct stack as [|top stack]; [reflexivity|].
    apply Forall_cons in Hdirs as [[es Hes] Hdirs]. destruct Hinc as [Htop Hinc].
    cbn [sign_folders_lazy flat_map]. rewrite Hes, (os_walk_Dir _ _ _ Hes).
    cbn [app sign_folders_loop]. rewrite !bind_eq.
    destruct (sign_folder (top, dirnames es, filenames es) key crt w)
      as [[[]|e] w1] eqn:Hstep; [|reflexivity].
    destruct (depth + 1 >=? max_depth)%Z; [reflexivity|].
    assert (Hnd : NoDup (map fst es)).
    { pose proof (wf_node_lookup _ _ _ Hwf Hes) as Hd. now inversion Hd. }
    assert (Hchild : forall n c, (n, c) ∈ es -> is_dir c = true ->
                       lookup_path (fs w1) (top ++ [n]) = Some c).
    { intros n c Hin Hc. destruct c as [|sub|]; try discriminate.
      apply (sign_folder_keeps_dir _ _ _ _ _ _ _ _ Hstep).
      - cbn [root_of fst]. intros Hp. apply prefix_length in Hp.
        rewrite length_app in Hp. cbn in Hp. lia.
      - rewrite (lookup_path_child _ _ _ n Hes). now apply elem_of_entry. }
    assert (Hrest : Forall (fun q => lookup_path (fs w1) q = lookup_path (fs w) q)
                      stack).
    { rewrite Forall_forall in Htop, Hdirs |- *. intros q Hq.
      destruct (Hdirs q Hq) as [es' Hes']. rewrite Hes'.
      apply (sign_folder_keeps_dir _ _ _ _ _ _ _ _ Hstep); [|exact Hes'].
      cbn [root_of fst]. now apply Htop. }
    assert (Hitems :
      flat_map (os_walk (fs w1)) (map (fun d => top ++ [d]) (dirnames es) ++ stack)
      = walk_entries top es ++ flat_map (os_walk (fs w)) stack).
    { rewrite flat_map_app, (os_walk_children _ _ _ Hchild).
      now rewrite (os_walk_stack _ _ _ Hrest). }
    rewrite <- Hitems. apply IH.
    + eapply sign_folder_wf; eauto.
    + apply incomparable_app; [|exact Hinc|].
      * apply incomparable_children, dirnames_NoDup, Hnd.
      * apply Forall_forall. intros a Ha.
        apply list_elem_of_fmap in Ha as (n & -> & _).
        rewrite Forall_forall in Htop |- *. intros b Hb.
        destruct (Htop b Hb) as [H1 H2]. split; intros Hp.
        -- apply H1. etransitivity; [|exact Hp]. now apply prefix_app_r.
        -- apply prefix_snoc_inv in Hp as [Hp| ->]; [contradiction|].
           apply H1. now apply prefix_app_r.
    + apply Forall_app. split.
      * apply Forall_forall. intros a Ha.
        apply list_elem_of_fmap in Ha as (n & -> & Hn).
        apply elem_of_dirnames in Hn as ([|sub|] & Hin & Hc); try discriminate.
        exists sub. now apply Hchild.
      * rewrite Forall_forall in Hrest, Hdirs |- *. intros q Hq.
        rewrite (Hrest q Hq). auto.
    + rewrite Hitems. cbn in Hfuel. rewrite (os_walk_Dir _ _ _ Hes) in Hfuel.
      cbn in Hfuel. lia.
Qed.

(** With fuel for every directory of the tree, the generator does what
    [sign_folders] does. *)
Lemma sign_folders_lazy_adequate (folder : path) key crt (max_depth : Z)
    (fuel : nat) (w : world) :
  wf_node (fs w) ->
  (length (os_walk (fs w) folder) < fuel)%nat ->
  sign_folders_lazy fuel [folder] key crt max_depth 0 w
  = sign_folders folder key crt max_depth w.
Proof.
  intros Hwf Hfuel. unfold sign_folders. rewrite bind_eq. unfold os_walk_items.
  destruct (lookup_path (fs w) folder) as [[data|es|]|] eqn:Hl.
  - destruct fuel; [lia|]. cbn. rewrite Hl. unfold os_walk. rewrite Hl.
    now destruct fuel.
  - rewrite sign_folders_lazy_loop; cbn [flat_map]; rewrite ?app_nil_r;
      try reflexivity; try assumption; try lia.
    + split; [constructor|exact I].
    + constructor; [eauto|constructor].
  - destruct fuel; [lia|]. cbn. rewrite Hl. unfold os_walk. rewrite Hl.
    now destruct fuel.
  - destruct fuel; [lia|]. cbn. rewrite Hl. unfold os_walk. rewrite Hl.
    now destruct fuel.
Qed.

End LazyWalk.


(** * Signing and verifying a whole tree *)

(** ** Writes: what was there before *)

(** A write goes through directories only, and they stay directories. *)
Lemma write_node_on_the_way (p : path) (data : bytes) :
  forall t t' q,
    write_node t p data = Ok t' -> q `prefix_of` p -> q <> p ->
    (exists es, lookup_path t q = Some (Dir es))
    /\ (exists es', lookup_path t' q = Some (Dir es')).
Proof.
  induction p as [|name p IH]; intros t t' q H Hpre Hne; [discriminate|].
  cbn in H. destruct t as [|es|]; try discriminate.
  destruct q as [|m q].
  { split; [now exists es|].
    destruct p as [|name' p].
    - destruct (entry name es) as [[| |]|]; try discriminate;
        injection H as <-; eauto.
    - destruct (entry name es) as [c|]; [|discriminate].
      destruct (write_node c (name' :: p) data); [|discriminate].
      injection H as <-. eauto. }
  assert (m = name) as ->.
  { destruct Hpre as [k Hk]. now injection Hk. }
  assert (Hpre' : q `prefix_of` p).
  { destruct Hpre as [k Hk]. injection Hk as ->. now exists k. }
  assert (Hne' : q <> p) by congruence.
  destruct p as [|name' p].
  { destruct q; [congruence|]. destruct Hpre' as [k Hk]. discriminate. }
  destruct (entry name es) as [c|] eqn:E; [|discriminate].
  destruct (write_node c (name' :: p) data) as [c'|] eqn:Hc; [|discriminate].
  injection H as <-. cbn [lookup_path]. rewrite entry_set_entry, E. eauto.
Qed.

(** A write makes no directory and removes none. *)
Lemma write_node_dirs (p : path) (data : bytes) (t t' : node) (q : path) :
  write_node t p data = Ok t' ->
  (exists es, lookup_path t q = Some (Dir es))
  <-> (exists es', lookup_path t' q = Some (Dir es')).
Proof.
  intros H. destruct (decide (q `prefix_of` p)) as [Hp|Hp].
  - destruct (decide (q = p)) as [->|Hne].
    + split; intros [es Hes].
      * now apply (write_node_not_dir _ _ _ _ es) in H.
      * rewrite (write_node_lookup _ _ _ _ H) in Hes. discriminate.
    + destruct (write_node_on_the_way _ _ _ _ _ H Hp Hne). tauto.
  - now rewrite (write_node_frame _ _ _ _ _ H Hp).
Qed.

(** A regular file found after a write, other than the written one, was
    there before. *)
Lemma write_node_file_inv (p : path) (data : bytes) (t t' : node) (q : path) x :
  write_node t p data = Ok t' -> q <> p ->
  lookup_path t' q = Some (File x) -> lookup_path t q = Some (File x).
Proof.
  intros H Hne Hx. destruct (decide (q `prefix_of` p)) as [Hp|Hp].
  - destruct (write_node_on_the_way _ _ _ _ _ H Hp Hne) as [_ [es Hes]]. congruence.
  - now rewrite <- (write_node_frame _ _ _ _ _ H Hp).
Qed.

Section TreeProperties.
Context {P : Platform}.

(** A path whose last name is one of the two reserved names. *)
Definition named_reserved (q : path) : bool :=
  match last q with
  | Some n => reserved n
  | None => false
  end.

Lemma named_reserved_sig (d : path) : named_reserved (d ++ [NVFLARE_SIG_FILE]) = true.
Proof.
  unfold named_reserved, reserved. rewrite last_snoc.
  now rewrite bool_decide_eq_true_2.
Qed.

Lemma named_reserved_crt (d : path) :
  named_reserved (d ++ [NVFLARE_SUBMITTER_CRT_FILE]) = true.
Proof.
  unfold named_reserved, reserved. rewrite last_snoc.
  rewrite (bool_decide_eq_true_2 (_ = NVFLARE_SUBMITTER_CRT_FILE)) by reflexivity.
  apply orb_true_r.
Qed.

Lemma named_reserved_ne (q d : path) :
  named_reserved q = false ->
  q <> d ++ [NVFLARE_SIG_FILE] /\ q <> d ++ [NVFLARE_SUBMITTER_CRT_FILE].
Proof.
  intros H. split; intros ->.
  - now rewrite named_reserved_sig in H.
  - now rewrite named_reserved_crt in H.
Qed.

Lemma named_reserved_child (d : path) (n : pystr) :
  named_reserved (d ++ [n]) = reserved n.
Proof. unfold named_reserved. now rewrite last_snoc. Qed.

Lemma sign_folder_dirs item key crt w r w' (q : path) :
  sign_folder item key crt w = (r, w') ->
  (exists es, lookup_path (fs w) q = Some (Dir es))
  <-> (exists es', lookup_path (fs w') q = Some (Dir es')).
Proof.
  destruct item as [[root folders] files]. intros H.
  destruct (sign_folder_writes _ _ _ _ _ _ _ _ H)
    as [->|[(d & H1)|(d & t1 & c & H1 & H2)]]; [reflexivity| |].
  - exact (write_node_dirs _ _ _ _ q H1).
  - rewrite (write_node_dirs _ _ _ _ q H1). exact (write_node_dirs _ _ _ _ q H2).
Qed.

Lemma sign_folder_file_inv item key crt w r w' (q : path) (x : bytes) :
  sign_folder item key crt w = (r, w') ->
  named_reserved q = false ->
  lookup_path (fs w') q = Some (File x) -> lookup_path (fs w) q = Some (File x).
Proof.
  destruct item as [[root folders] files]. intros H Hq Hx.
  destruct (named_reserved_ne q root Hq) as [Hs Hc].
  destruct (sign_folder_writes _ _ _ _ _ _ _ _ H)
    as [Heq|[(d & H1)|(d & t1 & c & H1 & H2)]].
  - now rewrite <- Heq.
  - exact (write_node_file_inv _ _ _ _ _ _ H1 Hs Hx).
  - apply (write_node_file_inv _ _ _ _ _ _ H1 Hs).
    exact (write_node_file_inv _ _ _ _ _ _ H2 Hc Hx).
Qed.

Lemma sign_folder_file item key crt w r w' (q : path) (x : bytes) :
  sign_folder item key crt w = (r, w') ->
  named_reserved q = false ->
  lookup_path (fs w) q = Some (File x) -> lookup_path (fs w') q = Some (File x).
Proof.
  intros H Hq. destruct (named_reserved_ne q (root_of item) Hq) as [Hs Hc].
  now apply (sign_folder_keeps_file _ _ _ _ _ _ _ _ H).
Qed.

Lemma sign_each_dirs key crt (q : path) items :
  forall w r w',
    sign_each items key crt w = (r, w') ->
    (exists es, lookup_path (fs w) q = Some (Dir es))
    <-> (exists es', lookup_path (fs w') q = Some (Dir es')).
Proof.
  induction items as [|item items IH]; intros w r w' H; cbn in H.
  - now injection H as _ <-.
  - rewrite bind_eq in H.
    destruct (sign_folder item key crt w) as [[[]|e] w1] eqn:H1.
    + rewrite (sign_folder_dirs _ _ _ _ _ _ q H1). eauto.
    + injection H as _ <-. exact (sign_folder_dirs _ _ _ _ _ _ q H1).
Qed.

Lemma sign_each_file key crt (q : path) (x : bytes) items :
  forall w r w',
    sign_each items key crt w = (r, w') ->
    named_reserved q = false ->
    lookup_path (fs w) q = Some (File x) <-> lookup_path (fs w') q = Some (File x).
Proof.
  induction items as [|item items IH]; intros w r w' H Hq; cbn in H.
  - now injection H as _ <-.
  - rewrite bind_eq in H.
    destruct (sign_folder item key crt w) as [[[]|e] w1] eqn:H1.
    + rewrite <- (IH _ _ _ H Hq). split.
      * now apply (sign_folder_file _ _ _ _ _ _ _ _ H1).
      * now apply (sign_folder_file_inv _ _ _ _ _ _ _ _ H1).
    + injection H as _ <-. split.
      * now apply (sign_folder_file _ _ _ _ _ _ _ _ H1).
      * now apply (sign_folder_file_inv _ _ _ _ _ _ _ _ H1).
Qed.

Lemma sign_each_wf key crt items :
  forall w r w',
    sign_each items key crt w = (r, w') -> wf_node (fs w) -> wf_node (fs w').
Proof.
  induction items as [|item items IH]; intros w r w' H Hwf; cbn in H.
  - now injection H as _ <-.
  - rewrite bind_eq in H.
    destruct (sign_folder item key crt w) as [[[]|e] w1] eqn:H1.
    + eapply IH; eauto using sign_folder_wf.
    + injection H as _ <-. eauto using sign_folder_wf.
Qed.

Lemma sign_folders_sign_each folder key crt (max_depth : Z) (w : world) :
  sign_folders folder key crt max_depth w
  = sign_each (take (Z.to_nat (Z.max 1 max_depth)) (os_walk (fs w) folder)) key crt w.
Proof.
  unfold sign_folders. rewrite bind_eq. unfold os_walk_items.
  rewrite sign_folders_loop_take. do 3 f_equal. lia.
Qed.

End TreeProperties.

(** X1. [sign_folders], whether it returns or raises, touches nothing but the
    files that bear one of the two reserved names: every other regular
    file is after the call what it was before, none is created, and the
    directories are the same. *)
Theorem sign_folders_frame (P : Platform) (folder : path)
    (signing_pri_key : private_key) (crt_path : path) (max_depth : Z)
    (w : world) (q : path) :
  named_reserved q = false ->
  (forall x,
     lookup_path (fs (snd (sign_folders folder signing_pri_key crt_path max_depth w))) q
       = Some (File x)
     <-> lookup_path (fs w) q = Some (File x))
  /\ ((exists es,
         lookup_path
           (fs (snd (sign_folders folder signing_pri_key crt_path max_depth w))) q
         = Some (Dir es))
      <-> (exists es, lookup_path (fs w) q = Some (Dir es))).
Proof.
  intros Hq. rewrite sign_folders_sign_each.
  destruct (sign_each _ signing_pri_key crt_path w) as [r w'] eqn:H. cbn [snd].
  split.
  - intros x. symmetry. exact (sign_each_file _ _ _ _ _ _ _ _ H Hq).
  - symmetry. exact (sign_each_dirs _ _ _ _ _ _ _ H).
Qed.


(** ** The directories of a walk are all different *)

Lemma prefix_same_length {A} (a b r : list A) :
  a `prefix_of` r -> b `prefix_of` r -> length a = length b -> a = b.
Proof.
  intros [k1 ->] [k2 E] Hlen. now apply app_inj_1 in E as [-> _].
Qed.

Lemma walk_roots_NoDup (t : node) :
  forall top, wf_node t -> NoDup (map root_of (walk top t)).
Proof.
  induction t as [data| |es IH] using node_nested_ind; intros top Hwf;
    [constructor|constructor|].
  rewrite walk_Dir. cbn [map root_of fst]. apply NoDup_cons. split.
  { intros Hin. apply list_elem_of_fmap in Hin as (item & Heq & Hin).
    apply walk_entries_root_ne in Hin. congruence. }
  inversion Hwf as [| |? Hnd Hall]; subst. clear Hwf.
  unfold walk_entries.
  induction es as [|[n c] es IHes]; [constructor|].
  cbn [flat_map fst snd map]. rewrite map_app.
  apply Forall_cons in IH as [IHc IH]. apply Forall_cons in Hall as [Hc Hall].
  cbn [map fst] in Hnd. apply NoDup_cons in Hnd as [Hn Hnd].
  apply NoDup_app. split; [now apply IHc|]. split; [|now apply IHes].
  intros r Hr Hr'.
  apply list_elem_of_fmap in Hr as (i1 & -> & Hi1).
  apply list_elem_of_fmap in Hr' as (i2 & Heq & Hi2).
  apply walk_root_prefix in Hi1.
  apply list_elem_of_In, in_flat_map in Hi2 as ([n' c'] & Hc' & Hi2).
  apply list_elem_of_In in Hc', Hi2. apply walk_root_prefix in Hi2.
  cbn [fst] in Hi2. rewrite <- Heq in Hi2.
  assert (E : top ++ [n] = top ++ [n']).
  { eapply prefix_same_length; eauto. now rewrite !length_app. }
  apply app_inj_tail in E as [_ ->]. apply Hn.
  apply list_elem_of_fmap. now exists (n', c').
Qed.

Lemma os_walk_roots_NoDup (t : node) (top : path) :
  wf_node t -> NoDup (map root_of (os_walk t top)).
Proof.
  intros Hwf. unfold os_walk.
  destruct (lookup_path t top) as [c|] eqn:Hc; [|constructor].
  apply walk_roots_NoDup. eapply wf_node_lookup; eauto.
Qed.

Lemma read_node_file (t : node) (p : path) (data : bytes) :
  read_node t p = Ok data <-> lookup_path t p = Some (File data).
Proof.
  unfold read_node. destruct (lookup_path t p) as [[d|es|]|]; split;
    try discriminate; congruence.
Qed.

(** An entry of a directory is a subdirectory or not, never both. *)
Lemma dirnames_filenames es (n : pystr) :
  NoDup (map fst es) -> n ∈ dirnames es -> n ∈ filenames es -> False.
Proof.
  intros Hnd Hd Hf.
  apply elem_of_dirnames in Hd as (c & Hc & Hdir).
  apply elem_of_filenames in Hf as (c' & Hc' & Hfile).
  apply (elem_of_entry _ _ _ Hnd) in Hc, Hc'. congruence.
Qed.

Lemma dirnames_lookup (t : node) (root : path) es (n : pystr) :
  lookup_path t root = Some (Dir es) -> NoDup (map fst es) ->
  n ∈ dirnames es <-> exists sub, lookup_path t (root ++ [n]) = Some (Dir sub).
Proof.
  intros Hl Hnd. rewrite (lookup_path_child _ _ _ n Hl), elem_of_dirnames. split.
  - intros ([|sub|] & Hin & Hd); try discriminate.
    exists sub. now apply elem_of_entry.
  - intros [sub Hsub]. exists (Dir sub). split; [|reflexivity].
    now apply entry_elem_of.
Qed.

(** ** Signing a tree and verifying it *)

(** The JSON reader gives back the dict of strings that the JSON writer
    was given. *)
Definition json_faithful (P : Platform) : Prop :=
  forall m : gmap pystr pyobj,
    (forall k v, m !! k = Some v -> exists s, v = PStr s) ->
    json_loads (json_dumps m) = Some (PDict m).

Section RoundTrip.
Context {P : Platform}.

(** A directory is signed in a tree when it holds the certificate and a
    manifest that names its subfolders and its files (reserved names
    apart) with signatures of the names and of the files' bytes. *)
Definition dir_signed (t : node) (key : private_key) (crt_data : bytes)
    (item : walk_item) : Prop :=
  let '(root, folders, files) := item in
  exists m,
    read_node t (root ++ [NVFLARE_SIG_FILE]) = Ok (json_dumps m)
    /\ read_node t (root ++ [NVFLARE_SUBMITTER_CRT_FILE]) = Ok crt_data
    /\ (forall k, k ∈ dom m -> (k ∈ files /\ reserved k = false) \/ k ∈ folders)
    /\ (forall k, k ∈ folders -> exists v, m !! k = Some v /\ name_signed key k v)
    /\ (forall k, k ∈ files -> reserved k = false -> k ∉ folders ->
          exists v, m !! k = Some v /\ file_signed t root key k v).

Lemma reserved_false (k : pystr) :
  reserved k = false ->
  k <> NVFLARE_SIG_FILE /\ k <> NVFLARE_SUBMITTER_CRT_FILE.
Proof.
  unfold reserved. intros H. apply orb_false_elim in H as [H1 H2].
  apply bool_decide_eq_false in H1, H2. auto.
Qed.

Lemma sign_folder_signs root folders files key crt crt_data w w' :
  NVFLARE_SIG_FILE <> NVFLARE_SUBMITTER_CRT_FILE ->
  named_reserved crt = false ->
  read_node (fs w) crt = Ok crt_data ->
  sign_folder (root, folders, files) key crt w = (Ok tt, w') ->
  dir_signed (fs w') key crt_data (root, folders, files).
Proof.
  intros Hne Hcrt Hread H.
  destruct (sign_folder_ok _ _ _ _ _ _ _ H) as (m & w1 & t1 & c & Hc & H1 & Hr & H2).
  destruct (collect_signatures_spec _ _ _ _ _ _ _ Hc) as (S1 & S2 & S3).
  destruct (named_reserved_ne crt root Hcrt) as [Hcs Hcc].
  apply read_node_file in Hread.
  pose proof (write_node_other_file _ _ _ _ _ _ H1 Hcs Hread) as Hread1.
  apply read_node_file in Hread1. rewrite Hread1 in Hr. injection Hr as <-.
  exists m. split; [|split; [|split; [exact S1|split; [exact S2|]]]].
  - apply read_node_file. apply (write_node_other_file _ _ _ _ _ _ H2).
    + intros E. apply app_inj_tail in E as [_ E]. now apply Hne.
    + exact (write_node_lookup _ _ _ _ H1).
  - apply read_node_file. exact (write_node_lookup _ _ _ _ H2).
  - intros k Hk Hres Hnf. destruct (S3 k Hk Hres Hnf) as (v & Hv & data & i & Hd & ->).
    exists (PStr (b64text (content_signature key data i))). split; [exact Hv|].
    exists data, i. split; [|reflexivity].
    destruct (reserved_false _ Hres) as [Hk1 Hk2].
    apply read_node_file. apply (write_node_other_file _ _ _ _ _ _ H2).
    { intros E. now apply app_inj_tail in E as [_ E]. }
    apply (write_node_other_file _ _ _ _ _ _ H1).
    { intros E. now apply app_inj_tail in E as [_ E]. }
    now apply read_node_file.
Qed.

(** Signing another directory leaves a signed directory signed. *)
Lemma sign_folder_keeps_signed item' key crt w r w' crt_data item :
  NVFLARE_SIG_FILE <> NVFLARE_SUBMITTER_CRT_FILE ->
  root_of item' <> root_of item ->
  sign_folder item' key crt w = (r, w') ->
  dir_signed (fs w) key crt_data item -> dir_signed (fs w') key crt_data item.
Proof.
  destruct item as [[root folders] files]. cbn [root_of fst].
  intros Hne Hroot H (m & Hm & Hc & S1 & S2 & S3).
  assert (Hkeep : forall n x,
            (n = NVFLARE_SIG_FILE \/ n = NVFLARE_SUBMITTER_CRT_FILE
             \/ reserved n = false) ->
            lookup_path (fs w) (root ++ [n]) = Some (File x) ->
            lookup_path (fs w') (root ++ [n]) = Some (File x)).
  { intros n x Hn. apply (sign_folder_keeps_file _ _ _ _ _ _ _ _ H).
    - intros E. apply app_inj_tail in E as [E1 E2]. now apply Hroot.
    - intros E. apply app_inj_tail in E as [E1 E2]. now apply Hroot. }
  exists m. split; [|split; [|split; [exact S1|split; [exact S2|]]]].
  - apply read_node_file, Hkeep; [now left|now apply read_node_file].
  - apply read_node_file, Hkeep; [now right; left|now apply read_node_file].
  - intros k Hk Hres Hnf. destruct (S3 k Hk Hres Hnf) as (v & Hv & data & i & Hd & ->).
    eexists. split; [exact Hv|]. exists data, i. split; [|reflexivity].
    apply read_node_file, Hkeep; [now right; right|now apply read_node_file].
Qed.

Lemma sign_each_keeps_signed key crt crt_data item items :
  forall w r w',
    NVFLARE_SIG_FILE <> NVFLARE_SUBMITTER_CRT_FILE ->
    root_of item ∉ map root_of items ->
    sign_each items key crt w = (r, w') ->
    dir_signed (fs w) key crt_data item -> dir_signed (fs w') key crt_data item.
Proof.
  induction items as [|item' items IH]; intros w r w' Hne Hnin H Hs; cbn in H.
  - now injection H as _ <-.
  - cbn [map] in Hnin. apply not_elem_of_cons in Hnin as [Hroot Hnin].
    rewrite bind_eq in H.
    destruct (sign_folder item' key crt w) as [[[]|e] w1] eqn:H1.
    + eapply IH; eauto. eapply sign_folder_keeps_signed; eauto.
    + injection H as _ <-. eapply sign_folder_keeps_signed; eauto.
Qed.

(** When the loop runs through, every directory that it was given is
    signed at the end. *)
Lemma sign_each_signs key crt crt_data items :
  forall w w',
    NVFLARE_SIG_FILE <> NVFLARE_SUBMITTER_CRT_FILE ->
    named_reserved crt = false ->
    NoDup (map root_of items) ->
    read_node (fs w) crt = Ok crt_data ->
    sign_each items key crt w = (Ok tt, w') ->
    Forall (dir_signed (fs w') key crt_data) items.
Proof.
  induction items as [|item items IH]; intros w w' Hne Hcrt Hnd Hread H;
    [constructor|].
  cbn in H. rewrite bind_eq in H. cbn [map] in Hnd.
  apply NoDup_cons in Hnd as [Hnin Hnd].
  destruct (sign_folder item key crt w) as [[[]|e] w1] eqn:H1; [|discriminate].
  assert (Hread1 : read_node (fs w1) crt = Ok crt_data).
  { apply read_node_file. apply (sign_folder_file _ _ _ _ _ _ _ _ H1 Hcrt).
    now apply read_node_file. }
  constructor; [|exact (IH _ _ Hne Hcrt Hnd Hread1 H)].
  apply (sign_each_keeps_signed _ _ _ _ _ _ _ _ Hne Hnin H).
  destruct item as [[root folders] files].
  exact (sign_folder_signs _ _ _ _ _ _ _ _ Hne Hcrt Hread H1).
Qed.

(** [verify_content] encodes a text content before it checks it. *)
Lemma verify_content_text (s : pystr) (data : bytes) signature pk :
  utf8_encode s = Ok data ->
  verify_content (PStr s) signature pk = verify_content (PBytes data) signature pk.
Proof. intros H. unfold verify_content. cbn [encode_if_str]. now rewrite H. Qed.

Lemma recorded_lookup (m : gmap pystr pyobj) (name : pystr) (sg : pyobj) :
  recorded (PDict m) name sg -> m !! name = Some sg.
Proof.
  intros [Hget Ht]. cbn in Hget. injection Hget as <-.
  destruct (m !! name); [reflexivity|discriminate].
Qed.

(** A signed directory passes verification, whatever was added to it
    since, as long as its subdirectories are the same. *)
Lemma dir_signed_verified (t : node) key crt_data cert ca_pk root es0 es' :
  rsa_correct P -> json_faithful P ->
  load_pem_x509_certificate crt_data = Some cert ->
  cert_public_key cert = rsa_public_key key ->
  verify_cert cert ca_pk = Ok tt ->
  NoDup (map fst es') ->
  (forall n, n ∈ dirnames es' <-> n ∈ dirnames es0) ->
  dir_signed t key crt_data (root, dirnames es0, filenames es0) ->
  folder_verified t ca_pk (root, dirnames es', filenames es').
Proof.
  intros Hrsa Hjson Hpem Hpk Hcert Hnd Hdirs (m & Hm & Hc & S1 & S2 & S3).
  assert (Hstr : forall k v, m !! k = Some v -> exists s, v = PStr s).
  { intros k v Hv. destruct (decide (k ∈ dirnames es0)) as [Hd|Hd].
    - destruct (S2 k Hd) as (v' & Hv' & data & i & _ & ->).
      rewrite Hv in Hv'. injection Hv' as ->. eauto.
    - destruct (S1 k) as [[Hf Hres]|?]; [apply elem_of_dom; eauto| |contradiction].
      destruct (S3 k Hf Hres Hd) as (v' & Hv' & data & i & _ & ->).
      rewrite Hv in Hv'. injection Hv' as ->. eauto. }
  exists m, cert, (cert_public_key cert).
  split; [|split; [exact Hcert|split]].
  - apply load_signatures_ok. exists (json_dumps m), crt_data. auto using Hjson.
  - intros file sg Hfile Hres Hrec. apply recorded_lookup in Hrec.
    assert (Hnd0 : file ∉ dirnames es0).
    { intros Hd. apply Hdirs in Hd. eapply dirnames_filenames; eauto. }
    destruct (S1 file) as [[Hf _]|?]; [apply elem_of_dom; eauto| |contradiction].
    destruct (S3 file Hf Hres Hnd0) as (v & Hv & data & i & Hd & ->).
    rewrite Hrec in Hv. injection Hv as ->.
    exists data. split; [exact Hd|]. rewrite Hpk.
    exact (verify_content_signature data key i true Hrsa).
  - intros folder sg Hfolder Hrec. apply recorded_lookup in Hrec.
    apply Hdirs in Hfolder.
    destruct (S2 folder Hfolder) as (v & Hv & data & i & Hd & ->).
    rewrite Hrec in Hv. injection Hv as ->.
    rewrite (verify_content_text _ _ _ _ Hd), Hpk.
    exact (verify_content_signature data key i true Hrsa).
Qed.

Lemma folder_verified_cert_event (t : node) ca_pk item :
  folder_verified t ca_pk item ->
  CertVerified (root_of item) ∈ snd (verify_folder ca_pk item t).
Proof.
  destruct item as [[root folders] files].
  intros (m & c & pk & Hl & Hc & _). rewrite verify_folder_eq, Hl, Hc.
  destruct (verify_entries root folders files (PDict m) pk t) as [r evs].
  cbn [snd root_of fst]. right. left.
Qed.

Lemma verify_folder_signature_all_verified src_folder root_ca_path (t : node)
    root_ca_cert :
  fst (load_crt root_ca_path t) = Ok root_ca_cert ->
  (forall item, item ∈ os_walk t src_folder ->
     folder_verified t (cert_public_key root_ca_cert) item) ->
  fst (verify_folder_signature src_folder root_ca_path t) = true
  /\ forall item, item ∈ os_walk t src_folder ->
       CertVerified (root_of item)
         ∈ snd (verify_folder_signature src_folder root_ca_path t).
Proof.
  intros Hca Hall. rewrite verify_folder_signature_eq, Hca.
  destruct (vfor_cases (verify_folder (cert_public_key root_ca_cert)) t
              (os_walk t src_folder))
    as [[_ Hrun]|(l1 & x & l2 & e & Heq & _ & Hx & _)].
  - rewrite Hrun. cbn [fst snd is_ok]. split; [reflexivity|].
    intros item Hin. unfold events_of. apply list_elem_of_In, in_flat_map.
    exists item. split; [now apply list_elem_of_In|].
    apply list_elem_of_In. now apply folder_verified_cert_event, Hall.
  - exfalso. assert (Hin : x ∈ os_walk t src_folder).
    { rewrite Heq. apply elem_of_app. right. left. }
    apply Hall, folder_verified_passes in Hin. congruence.
Qed.

End RoundTrip.

(** X2. A tree that [sign_folders] signed in full passes
    [verify_folder_signature]. The RSA implementation is correct, the
    JSON reader gives back what the JSON writer was given, the
    certificate at [crt_path] carries the public key of the signing key
    and is signed by the root key, neither that file nor the root
    certificate bears a reserved name, and the budget covers every
    directory of the tree. Then, when [sign_folders] returns,
    verification of the same folder answers [True], and it did check the
    certificate of every directory of the tree. *)
Theorem verify_folder_signature_sign_folders (P : Platform)
    (folder : path) (signing_pri_key : private_key)
    (crt_path root_ca_path : path) (max_depth : Z) (w w' : world)
    (crt_data ca_data : bytes) (cert root_ca_cert : certificate public_key) :
  rsa_correct P ->
  json_faithful P ->
  NVFLARE_SIG_FILE <> NVFLARE_SUBMITTER_CRT_FILE ->
  wf_node (fs w) ->
  named_reserved crt_path = false ->
  read_node (fs w) crt_path = Ok crt_data ->
  load_pem_x509_certificate crt_data = Some cert ->
  cert_public_key cert = rsa_public_key signing_pri_key ->
  named_reserved root_ca_path = false ->
  read_node (fs w) root_ca_path = Ok ca_data ->
  load_pem_x509_certificate ca_data = Some root_ca_cert ->
  verify_cert cert (cert_public_key root_ca_cert) = Ok tt ->
  (Z.of_nat (length (os_walk (fs w) folder)) <= max_depth)%Z ->
  sign_folders folder signing_pri_key crt_path max_depth w = (Ok tt, w') ->
  fst (verify_folder_signature folder root_ca_path (fs w')) = true
  /\ forall item, item ∈ os_walk (fs w') folder ->
       CertVerified (root_of item)
         ∈ snd (verify_folder_signature folder root_ca_path (fs w')).
Proof.
  intros Hrsa Hjson Hne Hwf Hcrt Hcrtd Hpem Hpk Hca Hcad Hcapem Hcert Hbudget H.
  rewrite sign_folders_sign_each in H.
  rewrite take_ge in H by lia.
  pose proof (sign_each_wf _ _ _ _ _ _ H Hwf) as Hwf'.
  pose proof (sign_each_signs _ _ _ _ _ _ Hne Hcrt
                (os_walk_roots_NoDup _ folder Hwf) Hcrtd H) as Hsigned.
  rewrite Forall_forall in Hsigned.
  apply (verify_folder_signature_all_verified _ _ _ root_ca_cert).
  { rewrite load_crt_fst.
    assert (Hr : read_node (fs w') root_ca_path = Ok ca_data).
    { apply read_node_file. apply (sign_each_file _ _ _ _ _ _ _ _ H Hca).
      now apply read_node_file. }
    rewrite Hr. cbn. unfold load_crt_bytes. now rewrite Hcapem. }
  intros item Hin.
  destruct (os_walk_lookup _ _ _ Hwf' Hin) as (rel & es' & Hl' & -> & Hnd').
  assert (Hdir0 : exists es0, lookup_path (fs w) (folder ++ rel) = Some (Dir es0)).
  { apply (sign_each_dirs _ _ (folder ++ rel) _ _ _ _ H). eauto. }
  destruct Hdir0 as [es0 Hl0].
  assert (Hnd0 : NoDup (map fst es0)).
  { pose proof (wf_node_lookup _ _ _ Hwf Hl0) as Hd. now inversion Hd. }
  apply (dir_signed_verified _ signing_pri_key crt_data cert _ _ es0 es'
           Hrsa Hjson Hpem Hpk Hcert Hnd').
  - intros n. rewrite (dirnames_lookup _ _ _ n Hl' Hnd').
    rewrite (dirnames_lookup _ _ _ n Hl0 Hnd0).
    symmetry. exact (sign_each_dirs _ _ _ _ _ _ _ H).
  - apply Hsigned. now apply lookup_os_walk.
Qed.


(** ** sign_folders: the budget *)

Section BudgetProperties.
Context {P : Platform}.

(** A regular file found after a step, other than the manifest and the
    certificate of the directory of the step, was there before. *)
Lemma sign_folder_other_file_inv item key crt w r w' (q : path) (x : bytes) :
  sign_folder item key crt w = (r, w') ->
  q <> root_of item ++ [NVFLARE_SIG_FILE] ->
  q <> root_of item ++ [NVFLARE_SUBMITTER_CRT_FILE] ->
  lookup_path (fs w') q = Some (File x) -> lookup_path (fs w) q = Some (File x).
Proof.
  destruct item as [[root folders] files]. cbn [root_of fst]. intros H Hs Hc Hx.
  destruct (sign_folder_writes _ _ _ _ _ _ _ _ H)
    as [Heq|[(d & H1)|(d & t1 & c & H1 & H2)]].
  - now rewrite <- Heq.
  - exact (write_node_file_inv _ _ _ _ _ _ H1 Hs Hx).
  - apply (write_node_file_inv _ _ _ _ _ _ H1 Hs).
    exact (write_node_file_inv _ _ _ _ _ _ H2 Hc Hx).
Qed.

Lemma sign_each_other_file_inv key crt (q : path) (x : bytes) items :
  forall w r w',
    Forall (fun item =>
              q <> root_of item ++ [NVFLARE_SIG_FILE]
              /\ q <> root_of item ++ [NVFLARE_SUBMITTER_CRT_FILE]) items ->
    sign_each items key crt w = (r, w') ->
    lookup_path (fs w') q = Some (File x) -> lookup_path (fs w) q = Some (File x).
Proof.
  induction items as [|item items IH]; intros w r w' Hq H Hx; cbn in H.
  - now injection H as _ <-.
  - apply Forall_cons in Hq as [[Hs Hc] Hq]. rewrite bind_eq in H.
    destruct (sign_folder item key crt w) as [[[]|e] w1] eqn:H1.
    + eapply sign_folder_other_file_inv; eauto.
    + injection H as _ <-. eapply sign_folder_other_file_inv; eauto.
Qed.

(** The entries of a directory are not those of the manifest and the
    certificate of another. *)
Lemma other_roots (root : path) (name : pystr) (items : list walk_item) :
  root ∉ map root_of items ->
  Forall (fun item =>
            root ++ [name] <> root_of item ++ [NVFLARE_SIG_FILE]
            /\ root ++ [name] <> root_of item ++ [NVFLARE_SUBMITTER_CRT_FILE]) items.
Proof.
  intros Hnin. apply list.Forall_forall. intros item Hin.
  assert (Hne : root <> root_of item).
  { intros ->. apply Hnin. now apply list_elem_of_fmap_2. }
  split; intros Heq; apply app_inj_tail in Heq as [Heq _]; congruence.
Qed.

(** When the loop runs through, every directory that it was given holds
    a manifest and a certificate at the end. *)
Lemma sign_each_written key crt items :
  forall w w',
    NVFLARE_SIG_FILE <> NVFLARE_SUBMITTER_CRT_FILE ->
    NoDup (map root_of items) ->
    sign_each items key crt w = (Ok tt, w') ->
    Forall (fun item =>
              exists manifest cert,
                lookup_path (fs w') (root_of item ++ [NVFLARE_SIG_FILE])
                = Some (File manifest)
                /\ lookup_path (fs w') (root_of item ++ [NVFLARE_SUBMITTER_CRT_FILE])
                   = Some (File cert)) items.
Proof.
  induction items as [|item items IH]; intros w w' Hne Hnd H; [constructor|].
  cbn in H. rewrite bind_eq in H. cbn [map] in Hnd.
  apply NoDup_cons in Hnd as [Hnin Hnd].
  destruct (sign_folder item key crt w) as [[[]|e] w1] eqn:H1; [|discriminate].
  constructor; [|exact (IH _ _ Hne Hnd H)].
  destruct item as [[root folders] files]. cbn [root_of fst] in *.
  destruct (sign_folder_ok _ _ _ _ _ _ _ H1)
    as (s & w0 & t1 & cert & _ & Hw1 & _ & Hw2).
  exists (json_dumps s), cert. split.
  - apply (sign_each_keeps_file _ _ _ _ _ _ _ _ (other_roots _ _ _ Hnin) H).
    apply (write_node_other_file _ _ _ _ _ _ Hw2).
    + intros Heq. apply app_inj_tail in Heq as [_ Heq]. contradiction.
    + exact (write_node_lookup _ _ _ _ Hw1).
  - apply (sign_each_keeps_file _ _ _ _ _ _ _ _ (other_roots _ _ _ Hnin) H).
    exact (write_node_lookup _ _ _ _ Hw2).
Qed.

End BudgetProperties.

(** C4. [sign_folders] counts the directories that it visits, whatever
    their depth, and stops once the count reaches the maximum: it is the
    signing of the first [max 1 max_depth] directories of the walk, in
    the order of the walk. When it returns, each of these holds a
    manifest and a certificate; and whether it returns or raises, the
    directories that come later in the walk have the regular files that
    they had, with their contents: none of them received a manifest or a
    certificate. With a budget of 1 the first directories are the root
    alone: the root is signed, and every entry of every directory below
    the root is after the call what it was before. *)
Theorem sign_folders_visit_budget (P : Platform) (folder : path)
    (signing_pri_key : private_key) (crt_path : path) (max_depth : Z)
    (w : world) (r : result unit) (w' : world) :
  wf_node (fs w) ->
  NVFLARE_SIG_FILE <> NVFLARE_SUBMITTER_CRT_FILE ->
  sign_folders folder signing_pri_key crt_path max_depth w = (r, w') ->
  sign_each (take (Z.to_nat (Z.max 1 max_depth)) (os_walk (fs w) folder))
    signing_pri_key crt_path w = (r, w')
  /\ (r = Ok tt ->
      forall item,
        item ∈ take (Z.to_nat (Z.max 1 max_depth)) (os_walk (fs w) folder) ->
        exists manifest cert,
          lookup_path (fs w') (root_of item ++ [NVFLARE_SIG_FILE])
          = Some (File manifest)
          /\ lookup_path (fs w') (root_of item ++ [NVFLARE_SUBMITTER_CRT_FILE])
             = Some (File cert))
  /\ (forall item name x,
        item ∈ drop (Z.to_nat (Z.max 1 max_depth)) (os_walk (fs w) folder) ->
        lookup_path (fs w') (root_of item ++ [name]) = Some (File x)
        <-> lookup_path (fs w) (root_of item ++ [name]) = Some (File x))
  /\ ((max_depth <= 1)%Z ->
      (forall es,
         lookup_path (fs w) folder = Some (Dir es) ->
         take (Z.to_nat (Z.max 1 max_depth)) (os_walk (fs w) folder)
         = [(folder, dirnames es, filenames es)])
      /\ forall d sub name,
           lookup_path (fs w') (folder ++ d :: sub ++ [name])
           = lookup_path (fs w) (folder ++ d :: sub ++ [name])).
Proof.
  intros Hwf Hne H.
  assert (Hrun : sign_each (take (Z.to_nat (Z.max 1 max_depth))
                              (os_walk (fs w) folder))
                   signing_pri_key crt_path w = (r, w')).
  { rewrite <- H. unfold sign_folders. rewrite bind_eq. unfold os_walk_items.
    rewrite sign_folders_loop_take. do 3 f_equal. lia. }
  set (n := Z.to_nat (Z.max 1 max_depth)) in *.
  pose proof (os_walk_roots_NoDup (fs w) folder Hwf) as Hnd.
  rewrite <- (take_drop n (os_walk (fs w) folder)), map_app in Hnd.
  apply NoDup_app in Hnd as (Hnd1 & Hdisj & _).
  split; [exact Hrun|]. split; [|split].
  - intros -> item Hin.
    pose proof (sign_each_written _ _ _ _ _ Hne Hnd1 Hrun) as Hall.
    rewrite list.Forall_forall in Hall. exact (Hall item Hin).
  - intros item name x Hin.
    assert (Hnin : root_of item ∉ map root_of (take n (os_walk (fs w) folder))).
    { intros Hroot. apply (Hdisj _ Hroot). now apply list_elem_of_fmap_2. }
    split.
    + exact (sign_each_other_file_inv _ _ _ _ _ _ _ _ (other_roots _ _ _ Hnin) Hrun).
    + exact (sign_each_keeps_file _ _ _ _ _ _ _ _ (other_roots _ _ _ Hnin) Hrun).
  - intros Hm. assert (n = 1%nat) as Hn by (unfold n; lia).
    split.
    { intros es Hes. rewrite Hn. unfold os_walk. now rewrite Hes, walk_Dir. }
    intros d sub name. rewrite Hn in Hrun.
    unfold os_walk in Hrun.
    destruct (lookup_path (fs w) folder) as [[data|es|]|];
      try (cbn in Hrun; now injection Hrun as _ <-).
    rewrite walk_Dir in Hrun. cbn [take sign_each] in Hrun. rewrite bind_eq in Hrun.
    destruct (sign_folder (folder, dirnames es, filenames es) signing_pri_key
                crt_path w) as [[[]|e] w1] eqn:H1; cbn [ret] in Hrun;
      injection Hrun as _ <-;
      (eapply sign_folder_frame; [exact H1| |]); cbn [root_of fst];
      intros Hp; apply prefix_length in Hp; rewrite !length_app in Hp;
      cbn in Hp; rewrite length_app in Hp; cbn in Hp; lia.
Qed.

Lemma sample_fs_wf : wf_node sample_fs.
Proof.
  repeat (constructor; try (apply (bool_decide_unpack _); vm_compute; reflexivity)).
Qed.

Section BudgetExample.
#[local] Existing Instance bare_platform.

(** The sample tree after a call with a budget of 1. *)
Definition budget_one_world : world :=
  snd (sign_folders [str "app"] 7 [str "submitter.crt"] 1 (World sample_fs 0)).

Lemma sign_folders_visit_budget_witness :
  wf_node sample_fs
  /\ NVFLARE_SIG_FILE <> NVFLARE_SUBMITTER_CRT_FILE
  /\ sign_folders [str "app"] 7 [str "submitter.crt"] 1 (World sample_fs 0)
     = (Ok tt, budget_one_world)
  /\ sign_each (take (Z.to_nat (Z.max 1 1)) (os_walk sample_fs [str "app"]))
       7 [str "submitter.crt"] (World sample_fs 0) = (Ok tt, budget_one_world)
  /\ (Ok tt = Ok tt ->
      forall item,
        item ∈ take (Z.to_nat (Z.max 1 1)) (os_walk sample_fs [str "app"]) ->
        exists manifest cert,
          lookup_path (fs budget_one_world) (root_of item ++ [NVFLARE_SIG_FILE])
          = Some (File manifest)
          /\ lookup_path (fs budget_one_world)
               (root_of item ++ [NVFLARE_SUBMITTER_CRT_FILE])
             = Some (File cert))
  /\ (forall item name x,
        item ∈ drop (Z.to_nat (Z.max 1 1)) (os_walk sample_fs [str "app"]) ->
        lookup_path (fs budget_one_world) (root_of item ++ [name]) = Some (File x)
        <-> lookup_path sample_fs (root_of item ++ [name]) = Some (File x))
  /\ ((1 <= 1)%Z ->
      (forall es,
         lookup_path sample_fs [str "app"] = Some (Dir es) ->
         take (Z.to_nat (Z.max 1 1)) (os_walk sample_fs [str "app"])
         = [([str "app"], dirnames es, filenames es)])
      /\ forall d sub name,
           lookup_path (fs budget_one_world) ([str "app"] ++ d :: sub ++ [name])
           = lookup_path sample_fs ([str "app"] ++ d :: sub ++ [name])).
Proof.
  assert (Hne : NVFLARE_SIG_FILE <> NVFLARE_SUBMITTER_CRT_FILE)
    by (vm_compute; discriminate).
  assert (Hrun : sign_folders [str "app"] 7 [str "submitter.crt"] 1
                   (World sample_fs 0) = (Ok tt, budget_one_world))
    by (vm_compute; reflexivity).
  split; [exact sample_fs_wf|]. split; [exact Hne|]. split; [exact Hrun|].
  exact (sign_folders_visit_budget bare_platform [str "app"] 7%N
           [str "submitter.crt"] 1%Z (World sample_fs 0) (Ok tt) budget_one_world
           sample_fs_wf Hne Hrun).
Defined.

(** With a budget of 1 the root [app] is signed, and neither [app/sub],
    [app/sub/deep] nor [app/lib] holds a manifest or a certificate. *)
Example sign_folders_budget_one :
  map (has_manifest (fs budget_one_world))
    [[str "app"]; [str "app"; str "sub"]; [str "app"; str "sub"; str "deep"];
     [str "app"; str "lib"]]
  = [true; false; false; false]
  /\ map (fun dir => lookup_path (fs budget_one_world)
                       (dir ++ [NVFLARE_SUBMITTER_CRT_FILE]))
       [[str "app"]; [str "app"; str "sub"]; [str "app"; str "sub"; str "deep"];
        [str "app"; str "lib"]]
     = [Some (File (bstr "CERT")); None; None; None].
Proof. vm_compute. auto. Qed.

End BudgetExample.

(** ** A platform whose JSON reader reads what its writer wrote

    The writer numbers the dict of strings (stdpp's [encode]) and writes
    the number in binary, one byte per digit; the reader does the
    reverse. *)

Fixpoint bits_of_positive (p : positive) : bytes :=
  match p with
  | xH => []
  | xO p' => x00 :: bits_of_positive p'
  | xI p' => x01 :: bits_of_positive p'
  end.

Fixpoint positive_of_bits (bs : bytes) : positive :=
  match bs with
  | [] => xH
  | b :: bs' =>
      if decide (b = x00) then xO (positive_of_bits bs') else xI (positive_of_bits bs')
  end.

Definition text_of (v : pyobj) : option pystr :=
  match v with
  | PStr s => Some s
  | _ => None
  end.

Definition codec_dumps (m : gmap pystr pyobj) : bytes :=
  bits_of_positive (encode (map_to_list (omap text_of m))).

Definition codec_loads (data : bytes) : option pyobj :=
  match decode (A := list (pystr * pystr)) (positive_of_bits data) with
  | Some l => Some (PDict (PStr <$> (list_to_map l : gmap pystr pystr)))
  | None => None
  end.

Definition codec_platform (certs : list (bytes * certificate N))
    (sig_file crt_file : pystr) : Platform := {|
  private_key := N;
  public_key := N;
  rsa_public_key := fun sk => sk;
  rsa_sign := toy_sign;
  rsa_verify := toy_verify;
  os_urandom := fun i => [byte_of_N (N.of_nat i)];
  load_pem_x509_certificate := fun data => table_find data certs;
  json_loads := codec_loads;
  json_dumps := codec_dumps;
  NVFLARE_SIG_FILE := sig_file;
  NVFLARE_SUBMITTER_CRT_FILE := crt_file
|}.

Lemma positive_of_bits_of (p : positive) : positive_of_bits (bits_of_positive p) = p.
Proof. induction p as [p IH|p IH|]; cbn; now rewrite ?IH. Qed.

Lemma codec_platform_correct certs sig_file crt_file :
  rsa_correct (codec_platform certs sig_file crt_file).
Proof.
  intros sk data pad h rnd.
  change (toy_verify sk (toy_sign sk data pad h rnd) data pad h = true).
  unfold toy_verify, toy_sign. rewrite app_assoc. apply bytes_prefix_app.
Qed.

Lemma codec_platform_faithful certs sig_file crt_file :
  json_faithful (codec_platform certs sig_file crt_file).
Proof.
  intros m Hm.
  change (codec_loads (codec_dumps m) = Some (PDict m)).
  unfold codec_loads, codec_dumps.
  rewrite positive_of_bits_of, decode_encode, list_to_map_to_list.
  do 2 f_equal. apply map_eq. intros k.
  rewrite lookup_fmap, lookup_omap.
  destruct (m !! k) as [v|] eqn:Hk; [|reflexivity].
  destruct (Hm k v Hk) as [s ->]. reflexivity.
Qed.

(** The platform of the signing examples: the root certificate and the
    submitter's certificate of [demo_platform], and the reversible JSON. *)
Definition signing_platform : Platform :=
  codec_platform
    [(bstr "ROOT", demo_root_cert); (bstr "CERT", demo_cert)]
    (str ".__nvfl_sig.json") (str ".__nvfl_submitter.crt").

(** A tree that was never signed. *)
Definition unsigned_fs : node :=
  Dir [(str "rootCA.pem", File (bstr "ROOT"));
       (str "client.crt", File (bstr "CERT"));
       (str "app", Dir [(str "a.txt", File (bstr "hello"));
                        (str "sub", Dir [(str "b.bin", File (bstr "x"))])])].

Lemma unsigned_fs_wf : wf_node unsigned_fs.
Proof.
  repeat (constructor; try (apply (bool_decide_unpack _); vm_compute; reflexivity)).
Qed.

Section SigningExample.
#[local] Existing Instance signing_platform.

Definition signed_world : world :=
  snd (sign_folders [str "app"] 7 [str "client.crt"] 9999 (World unsigned_fs 0)).

Lemma sign_folders_frame_witness :
  named_reserved [str "app"; str "a.txt"] = false
  /\ (forall x,
        lookup_path
          (fs (snd (sign_folders [str "app"] 7 [str "client.crt"] 1
                      (World unsigned_fs 0))))
          [str "app"; str "a.txt"] = Some (File x)
        <-> lookup_path (fs (World unsigned_fs 0)) [str "app"; str "a.txt"]
            = Some (File x))
  /\ ((exists es,
         lookup_path
           (fs (snd (sign_folders [str "app"] 7 [str "client.crt"] 1
                       (World unsigned_fs 0))))
           [str "app"; str "a.txt"] = Some (Dir es))
      <-> (exists es,
             lookup_path (fs (World unsigned_fs 0)) [str "app"; str "a.txt"]
             = Some (Dir es))).
Proof.
  split; [vm_compute; reflexivity|].
  apply (sign_folders_frame signing_platform [str "app"] 7%N [str "client.crt"] 1%Z
           (World unsigned_fs 0) [str "app"; str "a.txt"]).
  vm_compute. reflexivity.
Defined.

Lemma verify_folder_signature_sign_folders_witness :
  rsa_correct signing_platform
  /\ json_faithful signing_platform
  /\ NVFLARE_SIG_FILE <> NVFLARE_SUBMITTER_CRT_FILE
  /\ wf_node unsigned_fs
  /\ named_reserved [str "client.crt"] = false
  /\ read_node unsigned_fs [str "client.crt"] = Ok (bstr "CERT")
  /\ load_pem_x509_certificate (bstr "CERT") = Some demo_cert
  /\ cert_public_key demo_cert = rsa_public_key 7
  /\ named_reserved [str "rootCA.pem"] = false
  /\ read_node unsigned_fs [str "rootCA.pem"] = Ok (bstr "ROOT")
  /\ load_pem_x509_certificate (bstr "ROOT") = Some demo_root_cert
  /\ verify_cert demo_cert (cert_public_key demo_root_cert) = Ok tt
  /\ (Z.of_nat (length (os_walk unsigned_fs [str "app"])) <= 9999)%Z
  /\ sign_folders [str "app"] 7 [str "client.crt"] 9999 (World unsigned_fs 0)
     = (Ok tt, signed_world)
  /\ fst (verify_folder_signature [str "app"] [str "rootCA.pem"] (fs signed_world))
     = true
  /\ forall item, item ∈ os_walk (fs signed_world) [str "app"] ->
       CertVerified (root_of item)
         ∈ snd (verify_folder_signature [str "app"] [str "rootCA.pem"]
                  (fs signed_world)).
Proof.
  assert (Hne : NVFLARE_SIG_FILE <> NVFLARE_SUBMITTER_CRT_FILE)
    by (vm_compute; discriminate).
  assert (Hbudget : (Z.of_nat (length (os_walk unsigned_fs [str "app"])) <= 9999)%Z)
    by (vm_compute; discriminate).
  assert (Hrun : sign_folders [str "app"] 7 [str "client.crt"] 9999
                   (World unsigned_fs 0) = (Ok tt, signed_world))
    by (vm_compute; reflexivity).
  split; [apply codec_platform_correct|]. split; [apply codec_platform_faithful|].
  split; [exact Hne|]. split; [exact unsigned_fs_wf|].
  do 9 (split; [first [exact Hbudget|vm_compute; reflexivity]|]).
  split; [exact Hrun|].
  exact (verify_folder_signature_sign_folders signing_platform [str "app"] 7%N
           [str "client.crt"] [str "rootCA.pem"] 9999%Z (World unsigned_fs 0)
           signed_world (bstr "CERT") (bstr "ROOT") demo_cert demo_root_cert
           (codec_platform_correct _ _ _) (codec_platform_faithful _ _ _)
           Hne unsigned_fs_wf eq_refl eq_refl eq_refl eq_refl eq_refl eq_refl
           eq_refl eq_refl Hbudget Hrun).
Defined.

(** The run, step by step: both directories are visited and checked. *)
Example verify_signed_world :
  verify_folder_signature [str "app"] [str "rootCA.pem"] (fs signed_world)
  = (true,
     [Visited [str "app"]; CertVerified [str "app"];
      ContentVerified [str "app"] (str "a.txt");
      ContentVerified [str "app"] (str "sub");
      Visited [str "app"; str "sub"]; CertVerified [str "app"; str "sub"];
      ContentVerified [str "app"; str "sub"] (str "b.bin")]).
Proof. vm_compute. reflexivity. Qed.

End SigningExample.


(** ** Folders that are not there *)

Lemma os_walk_not_a_directory (t : node) (top : path) :
  (forall es, lookup_path t top <> Some (Dir es)) -> os_walk t top = [].
Proof.
  intros H. unfold os_walk.
  destruct (lookup_path t top) as [[data|es|]|]; try reflexivity.
  now destruct (H es).
Qed.

(** X3. [os.walk] yields nothing for a path that is no directory, and says
    nothing of it: [sign_folders] then returns at once, having written
    nothing and drawn nothing. *)
Theorem sign_folders_not_a_directory (P : Platform) (folder : path)
    (signing_pri_key : private_key) (crt_path : path) (max_depth : Z) (w : world) :
  (forall es, lookup_path (fs w) folder <> Some (Dir es)) ->
  sign_folders folder signing_pri_key crt_path max_depth w = (Ok tt, w).
Proof.
  intros H. unfold sign_folders. rewrite bind_eq. unfold os_walk_items.
  now rewrite (os_walk_not_a_directory _ _ H).
Qed.

(** X4. [verify_folder_signature] visits nothing when the folder is
    missing or is a file, [os.walk] yielding nothing for it; its answer
    is then that of the root certificate alone: [True] as soon as it
    loads, [False] otherwise. *)
Theorem verify_folder_signature_not_a_directory (P : Platform)
    (src_folder root_ca_path : path) (t : node) :
  (forall es, lookup_path t src_folder <> Some (Dir es)) ->
  verify_folder_signature src_folder root_ca_path t
  = (is_ok (rbind (read_node t root_ca_path) load_crt_bytes), []).
Proof.
  intros H. rewrite verify_folder_signature_eq, load_crt_fst.
  destruct (rbind (read_node t root_ca_path) load_crt_bytes); [|reflexivity].
  now rewrite (os_walk_not_a_directory _ _ H).
Qed.

(** X5. Without a root certificate nothing is examined and the answer is
    [False], whatever the folder holds: the file is missing, is a
    directory, or is no PEM certificate. *)
Theorem verify_folder_signature_no_root_ca (P : Platform)
    (src_folder root_ca_path : path) (t : node) :
  (forall data,
     lookup_path t root_ca_path = Some (File data) ->
     load_pem_x509_certificate data = None) ->
  verify_folder_signature src_folder root_ca_path t = (false, []).
Proof.
  intros H. rewrite verify_folder_signature_eq, load_crt_fst.
  unfold read_node, load_crt_bytes.
  destruct (lookup_path t root_ca_path) as [[data|es|]|]; try reflexivity.
  cbn [rbind]. now rewrite (H data eq_refl).
Qed.



Section NotADirectoryExample.
#[local] Existing Instance signing_platform.

Lemma sign_folders_not_a_directory_witness :
  (forall es, lookup_path unsigned_fs [str "nowhere"] <> Some (Dir es))
  /\ sign_folders [str "nowhere"] 7 [str "client.crt"] 9999 (World unsigned_fs 0)
     = (Ok tt, World unsigned_fs 0).
Proof.
  assert (H : forall es, lookup_path unsigned_fs [str "nowhere"] <> Some (Dir es))
    by (intros es; vm_compute; discriminate).
  split; [exact H|].
  exact (sign_folders_not_a_directory signing_platform [str "nowhere"] 7%N
           [str "client.crt"] 9999%Z (World unsigned_fs 0) H).
Defined.

Lemma verify_folder_signature_not_a_directory_witness :
  (forall es, lookup_path unsigned_fs [str "client.crt"] <> Some (Dir es))
  /\ verify_folder_signature [str "client.crt"] [str "rootCA.pem"] unsigned_fs
     = (is_ok (rbind (read_node unsigned_fs [str "rootCA.pem"]) load_crt_bytes), []).
Proof.
  assert (H : forall es, lookup_path unsigned_fs [str "client.crt"] <> Some (Dir es))
    by (intros es; vm_compute; discriminate).
  split; [exact H|].
  exact (verify_folder_signature_not_a_directory signing_platform
           [str "client.crt"] [str "rootCA.pem"] unsigned_fs H).
Defined.

Example verify_missing_folder :
  verify_folder_signature [str "nowhere"] [str "rootCA.pem"] unsigned_fs = (true, []).
Proof. vm_compute. reflexivity. Qed.

Lemma verify_folder_signature_no_root_ca_witness :
  (forall data,
     lookup_path unsigned_fs [str "app"; str "a.txt"] = Some (File data) ->
     load_pem_x509_certificate data = None)
  /\ verify_folder_signature [str "app"] [str "app"; str "a.txt"] unsigned_fs
     = (false, []).
Proof.
  assert (H : forall data,
            lookup_path unsigned_fs [str "app"; str "a.txt"] = Some (File data) ->
            load_pem_x509_certificate data = None).
  { intros data Hd. vm_compute in Hd. injection Hd as <-. vm_compute. reflexivity. }
  split; [exact H|].
  exact (verify_folder_signature_no_root_ca signing_platform [str "app"]
           [str "app"; str "a.txt"] unsigned_fs H).
Defined.


(** A path that runs through a regular file, and a path with a missing
    entry. *)
Example sign_all_through_a_file :
  fst (sign_all [str "client.crt"; str "docs"] 7 (World unsigned_fs 0))
  = Raise NotADirectoryError
  /\ fst (sign_all [str "nowhere"; str "docs"] 7 (World unsigned_fs 0))
     = Raise FileNotFoundError.
Proof. vm_compute. auto. Qed.

End NotADirectoryExample.

(** ** The signatures of sign_all verify *)

Section SignAllRoundTrip.
Context {P : Platform}.


End SignAllRoundTrip.



(** ** The two forms of a signature *)

(** X8. A signature in base64 text is to [verify_content] what the raw
    signature is: the text of [b64encode] always decodes, and the check
    made on it is the check made on the bytes. *)
Theorem verify_content_base64_signature (P : Platform) (content : pyobj)
    (signature : bytes) (public_key : public_key) :
  exists text,
    utf8_decode (b64encode signature) = Ok text
    /\ verify_content content (PStr text) public_key
       = verify_content content (PBytes signature) public_key.
Proof.
  exists (b64text signature). split; [apply b64text_decode|].
  unfold verify_content. destruct (encode_if_str content) as [c|e]; [|reflexivity].
  cbn [rbind]. rewrite b64text_encode. cbn [rbind].
  now rewrite b64decode_b64encode.
Qed.

(** X9. [return_str] changes the form of what [sign_content] returns and
    nothing else: both calls raise together, draw the same random bytes,
    and the text returned by one is the base64 of the bytes returned by
    the other, which [b64decode] gives back. *)
Theorem sign_content_return_str (P : Platform) (content : pyobj)
    (signing_pri_key : private_key) (w : world) :
  match sign_content content signing_pri_key false w with
  | (Ok (PBytes signature), w') =>
      exists text,
        sign_content content signing_pri_key true w = (Ok (PStr text), w')
        /\ utf8_decode (b64encode signature) = Ok text
        /\ rbind (utf8_encode text) b64decode = Ok signature
  | (Ok _, _) => False
  | (Raise e, w') => sign_content content signing_pri_key true w = (Raise e, w')
  end.
Proof.
  unfold sign_content, bind, lift, ret.
  destruct (encode_if_str content) as [c|e]; [|reflexivity].
  destruct (private_key_sign signing_pri_key c _content_padding _content_hash_algo w)
    as [[signature|e] w1]; [|reflexivity].
  rewrite b64text_decode.
  exists (b64text signature). split; [reflexivity|]. split; [reflexivity|].
  rewrite b64text_encode. cbn [rbind]. apply b64decode_b64encode.
Qed.


(** * Templates: sh_replace *)

(** ** str.replace *)

(** [s.startswith(old)] *)
Fixpoint starts_with (old s : pystr) : bool :=
  match old, s with
  | [], _ => true
  | a :: old', b :: s' => (a =? b) && starts_with old' s'
  | _ :: _, [] => false
  end.

(** The scan of [s.replace(old, new)] for a non-empty [old], from left to
    right: where [old] starts, [new] is put and the scan jumps over the
    occurrence ([skip] counts the characters still to jump over);
    elsewhere the character is kept. *)
Fixpoint replace_scan (skip : nat) (old new s : pystr) : pystr :=
  match s with
  | [] => []
  | c :: s' =>
      match skip with
      | S k => replace_scan k old new s'
      | O =>
          if starts_with old s
          then new ++ replace_scan (length old - 1) old new s'
          else c :: replace_scan 0 old new s'
      end
  end.

(** [s.replace(old, new)]: every occurrence, leftmost first, none
    overlapping. An empty [old] occurs before every character and at the
    end. *)
Definition str_replace (s old new : pystr) : pystr :=
  match old with
  | [] => new ++ flat_map (fun c => c :: new) s
  | _ :: _ => replace_scan 0 old new s
  end.

(** [old in s] *)
Fixpoint occurs (old s : pystr) : bool :=
  starts_with old s
  || match s with
     | [] => false
     | _ :: s' => occurs old s'
     end.

(** ** sh_replace *)

Section Templates.

(** The values of the mapping and their [str()]. *)
Context {value : Type} (py_str : value -> pystr).

(** ["{~~" + k + "~~}"]: the key must be a [str]. *)
Definition placeholder (k : pyobj) : result pystr :=
  match k with
  | PStr s => Ok (str "{~~" ++ s ++ str "~~}")
  | _ => Raise TypeError
  end.

(** [mapping_dict.items()] is the list of the pairs of the dict, in the
    order in which the keys were inserted. *)
Fixpoint sh_replace (src : pystr) (mapping_dict : list (pyobj * value))
  : result pystr :=
  match mapping_dict with
  | [] => Ok src
  | (k, v) :: items =>
      rbind (placeholder k) (fun old =>
      sh_replace (str_replace src old (py_str v)) items)
  end.

End Templates.

(** ** Properties of str.replace *)

Lemma starts_with_app (old s : pystr) : starts_with old (old ++ s) = true.
Proof.
  induction old as [|a old IH]; [reflexivity|]. cbn. now rewrite N.eqb_refl, IH.
Qed.

Lemma starts_with_prefix (a b s : pystr) :
  starts_with (a ++ b) s = true -> starts_with a s = true.
Proof.
  revert s. induction a as [|x a IH]; intros s H; [reflexivity|].
  destruct s as [|y s]; [discriminate|]. cbn in *.
  apply andb_prop in H as [-> H]. cbn. eauto.
Qed.

Lemma replace_scan_skip (old new s1 s2 : pystr) :
  replace_scan (length s1) old new (s1 ++ s2) = replace_scan 0 old new s2.
Proof.
  induction s1 as [|c s1 IH]; [|exact IH].
  cbn. destruct s2; reflexivity.
Qed.

(** The two equations of the scan: an occurrence at the head is replaced
    and the scan goes on after it; a character where no occurrence
    starts is kept. *)
Lemma str_replace_occurrence (old new s : pystr) :
  old <> [] ->
  str_replace (old ++ s) old new = new ++ str_replace s old new.
Proof.
  destruct old as [|a old]; [congruence|]. intros _.
  unfold str_replace. cbn [app replace_scan].
  change (a :: old ++ s) with ((a :: old) ++ s). rewrite starts_with_app.
  replace (length (a :: old) - 1)%nat with (length old) by (cbn [length]; lia).
  now rewrite replace_scan_skip.
Qed.

Lemma str_replace_keep (old new : pystr) (c : N) (s : pystr) :
  starts_with old (c :: s) = false ->
  str_replace (c :: s) old new = c :: str_replace s old new.
Proof.
  destruct old as [|a old]; [discriminate|]. intros H.
  unfold str_replace. cbn [replace_scan]. now rewrite H.
Qed.

Lemma str_replace_nil (old new : pystr) :
  old <> [] -> str_replace [] old new = [].
Proof. destruct old; [congruence|reflexivity]. Qed.

Lemma str_replace_absent (old new s : pystr) :
  occurs old s = false -> str_replace s old new = s.
Proof.
  induction s as [|c s IH]; intros H.
  - destruct old; [discriminate|reflexivity].
  - cbn [occurs] in H. apply orb_false_elim in H as [H1 H2].
    rewrite (str_replace_keep _ _ _ _ H1). now rewrite IH.
Qed.

Lemma occurs_prefix (a b s : pystr) : occurs a s = false -> occurs (a ++ b) s = false.
Proof.
  induction s as [|c s IH]; intros H.
  - cbn in *. rewrite orb_false_r in *.
    destruct (starts_with (a ++ b) []) eqn:E; [|reflexivity].
    apply starts_with_prefix in E. congruence.
  - cbn [occurs] in *. apply orb_false_elim in H as [H1 H2].
    rewrite (IH H2), orb_false_r.
    destruct (starts_with (a ++ b) (c :: s)) eqn:E; [|reflexivity].
    apply starts_with_prefix in E. congruence.
Qed.

(** A text in which the first character of [old] is nowhere. *)
Lemma str_replace_app_absent (old new a s : pystr) (x : N) :
  x ∉ a -> (exists old', old = x :: old') ->
  str_replace (a ++ s) old new = a ++ str_replace s old new.
Proof.
  intros Ha [old' ->]. induction a as [|c a IH]; [reflexivity|].
  apply not_elem_of_cons in Ha as [Hc Ha]. cbn [app].
  rewrite str_replace_keep.
  - now rewrite IH.
  - cbn. destruct (N.eqb_spec x c); [congruence|reflexivity].
Qed.

Section TemplateProperties.
Context {value : Type} (py_str : value -> pystr).

Definition is_str (k : pyobj) : bool :=
  match k with PStr _ => true | _ => false end.

Lemma sh_replace_app (src : pystr) (m1 m2 : list (pyobj * value)) :
  sh_replace py_str src (m1 ++ m2)
  = rbind (sh_replace py_str src m1) (fun r => sh_replace py_str r m2).
Proof.
  revert src. induction m1 as [|[k v] m1 IH]; intros src; [reflexivity|].
  cbn [app sh_replace]. destruct (placeholder k) as [old|e]; [|reflexivity].
  cbn [rbind]. apply IH.
Qed.

Lemma placeholder_absent (k : pyobj) (old src : pystr) :
  placeholder k = Ok old -> occurs (str "{~~") src = false -> occurs old src = false.
Proof.
  destruct k as [| | | |s| | |]; try discriminate. unfold placeholder.
  intros H Hs.
  assert (old = str "{~~" ++ (s ++ str "~~}")) as -> by congruence.
  now apply occurs_prefix.
Qed.

End TemplateProperties.

(** X10. A mapping is applied one key after the other, each to the result of
    the one before: what a value brings in is scanned for the keys that
    come after it. *)
Theorem sh_replace_sequential {value : Type} (py_str : value -> pystr)
    (src : pystr) (m1 m2 : list (pyobj * value)) :
  sh_replace py_str src (m1 ++ m2)
  = rbind (sh_replace py_str src m1) (fun r => sh_replace py_str r m2).
Proof. apply sh_replace_app. Qed.

(** X11. [sh_replace] raises [TypeError] exactly when some key of the mapping
    is not a [str], whatever the text; otherwise it returns a text. *)
Theorem sh_replace_type_error {value : Type} (py_str : value -> pystr)
    (src : pystr) (mapping_dict : list (pyobj * value)) :
  (forallb (fun kv => is_str (fst kv)) mapping_dict = false
   -> sh_replace py_str src mapping_dict = Raise TypeError)
  /\ (forallb (fun kv => is_str (fst kv)) mapping_dict = true
      -> exists r, sh_replace py_str src mapping_dict = Ok r).
Proof.
  revert src. induction mapping_dict as [|[k v] items IH]; intros src.
  - split; [discriminate|]. intros _. now exists src.
  - cbn [forallb fst sh_replace].
    destruct k; cbn [is_str placeholder rbind andb]; try (split; [reflexivity|discriminate]).
    apply IH.
Qed.

(** X12. A text without the opening ["{~~"] comes out as it went in, whatever
    the mapping (its keys being [str]s). *)
Theorem sh_replace_no_placeholder {value : Type} (py_str : value -> pystr)
    (src : pystr) (mapping_dict : list (pyobj * value)) :
  occurs (str "{~~") src = false ->
  forallb (fun kv => is_str (fst kv)) mapping_dict = true ->
  sh_replace py_str src mapping_dict = Ok src.
Proof.
  intros Hsrc. induction mapping_dict as [|[k v] items IH]; [reflexivity|].
  cbn [forallb fst sh_replace]. intros H. apply andb_prop in H as [Hk H].
  destruct (placeholder k) as [old|e] eqn:Hp.
  - cbn [rbind]. rewrite str_replace_absent; [auto|].
    eapply placeholder_absent; eauto.
  - destruct k; discriminate.
Qed.

(** X13. One key: a placeholder that stands between a text with no brace and
    a text in which the placeholder does not occur is replaced by the
    [str()] of the value, and the rest is kept. *)
Theorem sh_replace_placeholder {value : Type} (py_str : value -> pystr)
    (a b k : pystr) (v : value) :
  0x7B ∉ a ->
  occurs (str "{~~" ++ k ++ str "~~}") b = false ->
  sh_replace py_str (a ++ (str "{~~" ++ k ++ str "~~}") ++ b) [(PStr k, v)]
  = Ok (a ++ py_str v ++ b).
Proof.
  intros Ha Hb. cbn [sh_replace placeholder rbind].
  rewrite (str_replace_app_absent _ _ _ _ 0x7B Ha) by (now eexists).
  rewrite str_replace_occurrence by discriminate.
  now rewrite (str_replace_absent _ _ _ Hb).
Qed.

Section TemplateExample.

Definition show (v : pyobj) : pystr :=
  match v with
  | PStr s => s
  | _ => str "None"
  end.

Example str_replace_overlap :
  str_replace (str "aaaa") (str "aa") (str "b") = str "bb"
  /\ str_replace (str "abc") [] (str "-") = str "-a-b-c-"
  /\ str_replace (str "ababa") (str "aba") (str "x") = str "xba".
Proof. repeat split; reflexivity. Qed.

Example sh_replace_chain :
  sh_replace show (str "run {~~a~~}")
    [(PStr (str "a"), PStr (str "{~~b~~}")); (PStr (str "b"), PStr (str "x"))]
  = Ok (str "run x").
Proof. reflexivity. Qed.

Lemma sh_replace_no_placeholder_witness :
  occurs (str "{~~") (str "echo {a}") = false
  /\ forallb (fun kv => is_str (fst kv)) [(PStr (str "a"), PStr (str "b"))] = true
  /\ sh_replace show (str "echo {a}") [(PStr (str "a"), PStr (str "b"))]
     = Ok (str "echo {a}").
Proof.
  split; [reflexivity|]. split; [reflexivity|].
  exact (sh_replace_no_placeholder show (str "echo {a}")
           [(PStr (str "a"), PStr (str "b"))] eq_refl eq_refl).
Defined.

Lemma sh_replace_placeholder_witness :
  (0x7B ∉ (str "cd " : pystr))
  /\ occurs (str "{~~" ++ str "dir" ++ str "~~}") (str " && ls") = false
  /\ sh_replace show (str "cd " ++ (str "{~~" ++ str "dir" ++ str "~~}") ++ str " && ls")
       [(PStr (str "dir"), PStr (str "/tmp"))]
     = Ok (str "cd " ++ show (PStr (str "/tmp")) ++ str " && ls").
Proof.
  assert (Ha : 0x7B ∉ (str "cd " : pystr))
    by (apply (bool_decide_unpack _); vm_compute; reflexivity).
  split; [exact Ha|]. split; [reflexivity|].
  exact (sh_replace_placeholder show (str "cd ") (str " && ls") (str "dir")
           (PStr (str "/tmp")) Ha eq_refl).
Defined.

End TemplateExample.


(** * Project configurations

    [update_participant_server_name] and [update_server_default_host]
    change, in place, a configuration that [yaml.safe_load] built: dicts
    and lists that may be shared (a YAML alias makes two places of the
    document one object). The objects live in a heap and the values
    refer to them. *)

(** ** Values and objects *)

Abbreviation loc := nat.

(** The scalars, and references to dicts and lists. [VFloat] carries the
    64 bits of the float; [VOther] stands for an object of another class
    (a date): not subscriptable, not iterable, equal to no [str]. *)
Inductive val : Type :=
| VNone
| VBool (b : bool)
| VInt (z : Z)
| VFloat (bits : N)
| VStr (s : pystr)
| VBytes (b : bytes)
| VOther (tag : N)
| VRef (l : loc).

#[global] Instance val_eq_decision : EqDecision val.
Proof. solve_decision. Defined.

(** A dict keeps its items in the order in which the keys came in. *)
Inductive obj : Type :=
| ODict (fields : list (val * val))
| OList (items : list val).

Abbreviation heap := (loc -> obj).

(** The heap with the object at [l] replaced. *)
#[global] Instance heap_insert : Insert loc obj heap :=
  fun l o h l' => if decide (l' = l) then o else h l'.

Lemma heap_insert_eq (h : heap) (l : loc) (o : obj) : (<[l := o]> h) l = o.
Proof. unfold insert, heap_insert. now rewrite decide_True. Qed.

Lemma heap_insert_ne (h : heap) (l l' : loc) (o : obj) :
  l <> l' -> (<[l := o]> h) l' = h l'.
Proof. intros Hne. unfold insert, heap_insert. now rewrite decide_False by congruence. Qed.

(** The exceptions of this part: those of the part above, and three
    more. *)
Inductive error : Type :=
| KeyError
| IndexError
| RuntimeError
| Builtin (e : exn).

Inductive outcome (A : Type) : Type :=
| Returns (a : A)
| Raises (e : error).
Arguments Returns {A} a.
Arguments Raises {A} e.

(** [d[key]] and [d[key] = v] on the items of a dict. *)
Fixpoint dict_get (key : val) (fields : list (val * val)) : option val :=
  match fields with
  | [] => None
  | (k, v) :: fields' => if decide (k = key) then Some v else dict_get key fields'
  end.

Fixpoint dict_set (key v : val) (fields : list (val * val)) : list (val * val) :=
  match fields with
  | [] => [(key, v)]
  | (k, v0) :: fields' =>
      if decide (k = key) then (k, v) :: fields' else (k, v0) :: dict_set key v fields'
  end.

(** ** Code that reads and writes the heap *)

Definition H (A : Type) : Type := heap -> outcome A * heap.

Definition hret {A} (a : A) : H A := fun h => (Returns a, h).

Definition hbind {A B} (m : H A) (k : A -> H B) : H B :=
  fun h =>
    match m h with
    | (Returns a, h') => k a h'
    | (Raises e, h') => (Raises e, h')
    end.

Declare Scope H_scope.
Delimit Scope H_scope with H.
Notation "x <- m ;; k" := (hbind m (fun x => k))
  (at level 100, m at next level, right associativity) : H_scope.
Notation "m ;; k" := (hbind m (fun _ => k))
  (at level 100, right associativity) : H_scope.

(** [v[key]] for a [str] key: a dict has the key or raises [KeyError];
    nothing else can be subscripted by a [str]. *)
Definition getitem (v : val) (key : pystr) : H val :=
  fun h =>
    match v with
    | VRef l =>
        match h l with
        | ODict fields =>
            match dict_get (VStr key) fields with
            | Some x => (Returns x, h)
            | None => (Raises KeyError, h)
            end
        | OList _ => (Raises (Builtin TypeError), h)
        end
    | _ => (Raises (Builtin TypeError), h)
    end.

(** [v[key] = x] for a [str] key. *)
Definition setitem (v : val) (key : pystr) (x : val) : H unit :=
  fun h =>
    match v with
    | VRef l =>
        match h l with
        | ODict fields => (Returns tt, <[l := ODict (dict_set (VStr key) x fields)]> h)
        | OList _ => (Raises (Builtin TypeError), h)
        end
    | _ => (Raises (Builtin TypeError), h)
    end.

(** What [for p in v] goes through: the items of a list, the keys of a
    dict, the characters of a [str], the bytes of a [bytes]. *)
Definition iter (v : val) : H (list val) :=
  fun h =>
    match v with
    | VRef l =>
        match h l with
        | ODict fields => (Returns (map fst fields), h)
        | OList items => (Returns items, h)
        end
    | VStr s => (Returns (map (fun c => VStr [c]) s), h)
    | VBytes b => (Returns (map (fun x => VInt (Z.of_N (Byte.to_N x))) b), h)
    | _ => (Raises (Builtin TypeError), h)
    end.

(** [v == s] for a [str] [s]: only an equal [str] is equal to it. *)
Definition eq_str (v : val) (s : pystr) : bool :=
  match v with
  | VStr s' => bool_decide (s' = s)
  | _ => false
  end.

(** ** update_participant_server_name

    The server names are [str]s; the new name is stored as it is. *)

Fixpoint rename_server (participants : list val) (old_server_name : pystr)
    (new_server_name : val) : H unit :=
  match participants with
  | [] => hret tt
  | p :: participants' =>
      (type <- getitem p (str "type") ;;
       if eq_str type (str "server")
       then
         name <- getitem p (str "name") ;;
         if eq_str name old_server_name
         then setitem p (str "name") new_server_name          (* break *)
         else rename_server participants' old_server_name new_server_name
       else rename_server participants' old_server_name new_server_name)%H
  end.

Definition update_participant_server_name (project_config : val)
    (old_server_name : pystr) (new_server_name : val) : H val :=
  (participants <- getitem project_config (str "participants") ;;
   ps <- iter participants ;;
   rename_server ps old_server_name new_server_name ;;
   hret project_config)%H.

Definition update_project_server_name_config (project_config : val)
    (old_server_name : pystr) (server_name : val) : H val :=
  (update_participant_server_name project_config old_server_name server_name ;;
   hret project_config)%H.

(** ** update_server_default_host *)

Fixpoint set_default_host (participants : list val) (default_host : val) : H unit :=
  match participants with
  | [] => hret tt
  | p :: participants' =>
      (type <- getitem p (str "type") ;;
       if eq_str type (str "server")
       then setitem p (str "default_host") default_host       (* break *)
       else set_default_host participants' default_host)%H
  end.

Definition update_server_default_host (project_config : val) (default_host : val)
  : H val :=
  (participants <- getitem project_config (str "participants") ;;
   ps <- iter participants ;;
   set_default_host ps default_host ;;
   hret project_config)%H.

(** ** Properties *)

Lemma hbind_eq {A B} (m : H A) (k : A -> H B) (h : heap) :
  hbind m k h =
    match m h with
    | (Returns a, h') => k a h'
    | (Raises e, h') => (Raises e, h')
    end.
Proof. reflexivity. Qed.

Lemma getitem_heap (v : val) (key : pystr) (h : heap) : snd (getitem v key h) = h.
Proof.
  unfold getitem. destruct v; try reflexivity.
  destruct (h l); [|reflexivity]. now destruct (dict_get _ _).
Qed.

Lemma iter_heap (v : val) (h : heap) : snd (iter v h) = h.
Proof. unfold iter. destruct v; try reflexivity. now destruct (h l). Qed.

(** A participant is passed over by [rename_server] when its ["type"]
    can be read and either is not ["server"], or the ["name"] can be
    read and is not the old name. *)
Definition passed_over (h : heap) (old_server_name : pystr) (p : val) : bool :=
  match getitem p (str "type") h with
  | (Returns type, _) =>
      if eq_str type (str "server")
      then
        match getitem p (str "name") h with
        | (Returns name, _) => negb (eq_str name old_server_name)
        | (Raises _, _) => false
        end
      else true
  | (Raises _, _) => false
  end.

(** The participant that [rename_server] renames: a dict that is a
    server and bears the old name. *)
Definition named_server (h : heap) (old_server_name : pystr) (l : loc)
    (fields : list (val * val)) : Prop :=
  h l = ODict fields
  /\ dict_get (VStr (str "type")) fields = Some (VStr (str "server"))
  /\ dict_get (VStr (str "name")) fields = Some (VStr old_server_name).

Lemma eq_str_true (v : val) (s : pystr) : eq_str v s = true <-> v = VStr s.
Proof.
  destruct v; cbn; try (split; [discriminate|congruence]).
  rewrite bool_decide_eq_true. split; congruence.
Qed.

Lemma getitem_Returns (v : val) (key : pystr) (h : heap) (x : val) (h' : heap) :
  getitem v key h = (Returns x, h') ->
  h' = h /\ exists l fields,
    v = VRef l /\ h l = ODict fields /\ dict_get (VStr key) fields = Some x.
Proof.
  unfold getitem. destruct v; try discriminate.
  destruct (h l) as [fields|items] eqn:Hl; [|discriminate].
  destruct (dict_get (VStr key) fields) as [y|] eqn:Hg; [|discriminate].
  intros [= <- <-]. split; [reflexivity|]. eauto.
Qed.

Lemma getitem_dict (l : loc) (key : pystr) (h : heap) fields :
  h l = ODict fields ->
  getitem (VRef l) key h =
    match dict_get (VStr key) fields with
    | Some x => (Returns x, h)
    | None => (Raises KeyError, h)
    end.
Proof. intros Hl. unfold getitem. now rewrite Hl. Qed.

(** What the loop does: it raises and leaves the heap as it is; or it
    returns, having changed nothing or the name of one server that bore
    the old name. *)
Lemma rename_server_cases (old : pystr) (new : val) (ps : list val) (h : heap) :
  match rename_server ps old new h with
  | (Raises _, h') => h' = h
  | (Returns _, h') =>
      (h' = h /\ forallb (passed_over h old) ps = true)
      \/ exists before l after fields,
           ps = before ++ VRef l :: after
           /\ forallb (passed_over h old) before = true
           /\ named_server h old l fields
           /\ h' = <[l := ODict (dict_set (VStr (str "name")) new fields)]> h
  end.
Proof.
  induction ps as [|p ps IH]; [left; split; reflexivity|].
  cbn [rename_server forallb]. rewrite hbind_eq. unfold passed_over at 1.
  destruct (getitem p (str "type") h) as [[type|e] h1] eqn:Ht; [|].
  2:{ pose proof (getitem_heap p (str "type") h) as Hh. rewrite Ht in Hh. exact Hh. }
  apply getitem_Returns in Ht as (-> & l & fields & -> & Hl & Htype).
  destruct (eq_str type (str "server")) eqn:Hs.
  - rewrite hbind_eq. rewrite (getitem_dict _ _ _ _ Hl).
    destruct (dict_get (VStr (str "name")) fields) as [name|] eqn:Hname;
      [|reflexivity].
    destruct (eq_str name old) eqn:Hn; cbn [negb andb].
    + unfold setitem. rewrite Hl. right. exists [], l, ps, fields.
      apply eq_str_true in Hs, Hn. subst type name.
      split; [reflexivity|]. split; [reflexivity|]. split; [|reflexivity].
      split; [exact Hl|]. split; assumption.
    + destruct (rename_server ps old new h) as [[[]|e] h'];
        [|exact IH].
      destruct IH as [[-> Hall]|(before & l' & after & fields' & -> & Hb & Hn' & ->)].
      * left. split; [reflexivity|exact Hall].
      * right. exists (VRef l :: before), l', after, fields'.
        split; [reflexivity|]. split; [|split; [exact Hn'|reflexivity]].
        cbn [forallb]. unfold passed_over at 1.
        rewrite !(getitem_dict _ _ _ _ Hl), Htype, Hs, Hname, Hn. exact Hb.
  - destruct (rename_server ps old new h) as [[[]|e] h'];
      [|exact IH].
    destruct IH as [[-> Hall]|(before & l' & after & fields' & -> & Hb & Hn' & ->)].
    + left. split; [reflexivity|exact Hall].
    + right. exists (VRef l :: before), l', after, fields'.
      split; [reflexivity|]. split; [|split; [exact Hn'|reflexivity]].
      cbn [forallb]. unfold passed_over at 1.
      rewrite !(getitem_dict _ _ _ _ Hl), Htype, Hs. exact Hb.
Qed.

Lemma rename_server_first (old : pystr) (new : val) (h : heap)
    (before after : list val) (l : loc) fields :
  forallb (passed_over h old) before = true ->
  named_server h old l fields ->
  rename_server (before ++ VRef l :: after) old new h
  = (Returns tt, <[l := ODict (dict_set (VStr (str "name")) new fields)]> h).
Proof.
  intros Hb (Hl & Htype & Hname).
  induction before as [|p before IH].
  - cbn [app rename_server]. rewrite hbind_eq, (getitem_dict _ _ _ _ Hl), Htype.
    cbn [eq_str]. rewrite bool_decide_eq_true_2 by reflexivity.
    rewrite hbind_eq, (getitem_dict _ _ _ _ Hl), Hname. cbn [eq_str].
    rewrite bool_decide_eq_true_2 by reflexivity.
    unfold setitem. now rewrite Hl.
  - cbn [forallb] in Hb. apply andb_prop in Hb as [Hp Hb].
    cbn [app rename_server]. rewrite hbind_eq. unfold passed_over in Hp.
    destruct (getitem p (str "type") h) as [[type|e] h1] eqn:Ht; [|discriminate].
    apply getitem_Returns in Ht as (-> & l' & fields' & -> & Hl' & Htype').
    destruct (eq_str type (str "server")); [|auto].
    rewrite hbind_eq.
    destruct (getitem (VRef l') (str "name") h) as [[name|e] h1] eqn:Hn;
      [|discriminate].
    apply getitem_Returns in Hn as (-> & _).
    apply negb_true_iff in Hp. rewrite Hp. auto.
Qed.


(** The participants of a configuration, as the loop goes through
    them. *)
Definition participants_of (h : heap) (project_config : val) : outcome (list val) :=
  fst ((participants <- getitem project_config (str "participants") ;;
        iter participants)%H h).

Lemma update_participant_server_name_eq (project_config : val) (old : pystr)
    (new : val) (h : heap) :
  update_participant_server_name project_config old new h =
    match participants_of h project_config with
    | Returns ps =>
        match rename_server ps old new h with
        | (Returns _, h') => (Returns project_config, h')
        | (Raises e, h') => (Raises e, h')
        end
    | Raises e => (Raises e, h)
    end.
Proof.
  unfold update_participant_server_name, participants_of. rewrite !hbind_eq.
  pose proof (getitem_heap project_config (str "participants") h) as H1.
  destruct (getitem project_config (str "participants") h) as [[participants|e] h1];
    cbn [snd] in H1; subst h1; [|reflexivity].
  rewrite hbind_eq.
  pose proof (iter_heap participants h) as H2.
  destruct (iter participants h) as [[ps|e] h2]; cbn [snd fst] in *; subst h2;
    [|reflexivity].
  rewrite hbind_eq. destruct (rename_server ps old new h) as [[[]|e] h']; reflexivity.
Qed.


(** ** Dicts *)

Lemma dict_get_set (key v : val) fields : dict_get key (dict_set key v fields) = Some v.
Proof.
  induction fields as [|[k v0] fields IH]; cbn.
  - now rewrite decide_True.
  - destruct (decide (k = key)) as [->|Hne]; cbn.
    + now rewrite decide_True.
    + now rewrite decide_False.
Qed.

Lemma dict_get_set_ne (key key' v : val) fields :
  key' <> key -> dict_get key' (dict_set key v fields) = dict_get key' fields.
Proof.
  intros Hne. induction fields as [|[k v0] fields IH]; cbn.
  - now rewrite decide_False by congruence.
  - destruct (decide (k = key)) as [->|Hk]; cbn.
    + now rewrite !decide_False by congruence.
    + destruct (decide (k = key')); auto.
Qed.

Lemma dict_set_set (key v v' : val) fields :
  dict_set key v (dict_set key v' fields) = dict_set key v fields.
Proof.
  induction fields as [|[k v0] fields IH]; cbn.
  - now rewrite decide_True.
  - destruct (decide (k = key)) as [->|Hk]; cbn.
    + now rewrite decide_True.
    + rewrite decide_False by assumption. now rewrite IH.
Qed.

Lemma dict_set_same (key v : val) fields :
  dict_get key fields = Some v -> dict_set key v fields = fields.
Proof.
  induction fields as [|[k v0] fields IH]; cbn; [discriminate|].
  destruct (decide (k = key)) as [->|Hk].
  - now intros [= ->].
  - intros H. now rewrite IH.
Qed.

(** Setting a key keeps the keys that were there, in their order, and
    puts a new key last. *)
Lemma dict_set_keys (key v : val) fields :
  map fst (dict_set key v fields)
  = map fst fields ++ match dict_get key fields with Some _ => [] | None => [key] end.
Proof.
  induction fields as [|[k v0] fields IH]; cbn; [reflexivity|].
  destruct (decide (k = key)) as [->|Hk]; cbn.
  - now rewrite app_nil_r.
  - now rewrite IH.
Qed.

(** ** Reading a heap that was written at one place *)

Lemma getitem_fst_frame (p : val) (key : pystr) (h : heap) (l : loc) (o : obj) :
  p <> VRef l -> fst (getitem p key (<[l := o]> h)) = fst (getitem p key h).
Proof.
  intros Hp. unfold getitem. destruct p as [| | | | | | |l']; try reflexivity.
  rewrite heap_insert_ne by congruence.
  destruct (h l') as [fields|items]; [|reflexivity].
  now destruct (dict_get (VStr key) fields).
Qed.

Lemma getitem_fst_set (l : loc) (key key' : pystr) (x : val) (h : heap) fields :
  h l = ODict fields -> key' <> key ->
  fst (getitem (VRef l) key' (<[l := ODict (dict_set (VStr key) x fields)]> h))
  = fst (getitem (VRef l) key' h).
Proof.
  intros Hl Hne. unfold getitem. rewrite heap_insert_eq, Hl.
  rewrite dict_get_set_ne by congruence.
  now destruct (dict_get (VStr key') fields).
Qed.

Lemma getitem_fst (v : val) (key : pystr) (h : heap) :
  getitem v key h = (fst (getitem v key h), h).
Proof.
  pose proof (getitem_heap v key h). destruct (getitem v key h). cbn in *. congruence.
Qed.

Lemma iter_fst (v : val) (h : heap) : iter v h = (fst (iter v h), h).
Proof.
  pose proof (iter_heap v h). destruct (iter v h). cbn in *. congruence.
Qed.

(** A write of one key of one dict changes the participants, if at all,
    only after the dict that was written (and that only when the
    participants are the keys of that very dict). *)
Lemma participants_of_set (h : heap) (project_config : val) (l : loc) fields
    (key : pystr) (x : val) (before after : list val) :
  h l = ODict fields ->
  key <> str "participants" ->
  participants_of h project_config = Returns (before ++ VRef l :: after) ->
  exists after',
    participants_of (<[l := ODict (dict_set (VStr key) x fields)]> h) project_config
    = Returns (before ++ VRef l :: after').
Proof.
  intros Hl Hkey. unfold participants_of. rewrite !hbind_eq.
  rewrite (getitem_fst project_config _ h),
    (getitem_fst project_config _ (<[l := _]> h)).
  assert (Hget : fst (getitem project_config (str "participants")
                        (<[l := ODict (dict_set (VStr key) x fields)]> h))
                 = fst (getitem project_config (str "participants") h)).
  { destruct (decide (project_config = VRef l)) as [->|Hne].
    - apply getitem_fst_set; [exact Hl|congruence].
    - now apply getitem_fst_frame. }
  rewrite Hget.
  destruct (fst (getitem project_config (str "participants") h)) as [ps|e];
    [|discriminate].
  unfold iter. destruct ps as [| | | | | | |lp]; try (intros H; exists after; exact H).
  destruct (decide (lp = l)) as [->|Hne].
  - rewrite heap_insert_eq, Hl. cbn [fst]. intros [= Hk].
    rewrite dict_set_keys, Hk, <- app_assoc. cbn [app]. eauto.
  - rewrite heap_insert_ne by congruence.
    destruct (h lp); intros H; exists after; exact H.
Qed.

(** ** update_participant_server_name *)

Lemma passed_over_frame (h : heap) (old : pystr) (p : val) (l : loc) (o : obj) :
  p <> VRef l -> passed_over (<[l := o]> h) old p = passed_over h old p.
Proof.
  intros Hp. unfold passed_over.
  rewrite (getitem_fst p _ h), (getitem_fst p _ (<[l := o]> h)).
  rewrite (getitem_fst p (str "name") h), (getitem_fst p (str "name") (<[l := o]> h)).
  now rewrite !getitem_fst_frame by assumption.
Qed.

Lemma named_server_not_passed_over (h : heap) (old : pystr) (l : loc) fields :
  named_server h old l fields -> passed_over h old (VRef l) = false.
Proof.
  intros (Hl & Htype & Hname). unfold passed_over.
  rewrite !(getitem_dict _ _ _ _ Hl), Htype, Hname. cbn [eq_str].
  now rewrite !bool_decide_eq_true_2 by reflexivity.
Qed.

Lemma forallb_passed_over_frame (h : heap) (old old' : pystr) (l : loc) fields
    (o : obj) (ps : list val) :
  named_server h old l fields ->
  forallb (passed_over h old) ps = true ->
  forallb (passed_over (<[l := o]> h) old') ps = forallb (passed_over h old') ps.
Proof.
  intros Hn. induction ps as [|p ps IH]; [reflexivity|]. cbn [forallb]. intros H.
  apply andb_prop in H as [Hp H]. rewrite IH by assumption. f_equal.
  apply passed_over_frame. intros ->.
  rewrite (named_server_not_passed_over _ _ _ _ Hn) in Hp. discriminate.
Qed.

(** What [update_participant_server_name] returns is the configuration
    that it was given. *)
Lemma update_participant_server_name_result (project_config : val)
    (old_server_name : pystr) (new_server_name : val) (h h' : heap) (r : val) :
  update_participant_server_name project_config old_server_name new_server_name h
  = (Returns r, h') ->
  r = project_config.
Proof.
  rewrite update_participant_server_name_eq.
  destruct (participants_of h project_config) as [ps|e]; [|discriminate].
  destruct (rename_server ps old_server_name new_server_name h) as [[[]|e] h1];
    [|discriminate].
  now intros [= <- _].
Qed.

(** X14. [update_participant_server_name] changes at most the name of one
    participant, a server that bore the old name, and returns the
    configuration that it was given; when it raises, it has changed
    nothing. *)
Theorem update_participant_server_name_effect (project_config : val)
    (old_server_name : pystr) (new_server_name : val) (h : heap) :
  match update_participant_server_name project_config old_server_name
          new_server_name h with
  | (Raises _, h') => h' = h
  | (Returns r, h') =>
      r = project_config
      /\ (h' = h
          \/ exists l fields,
               named_server h old_server_name l fields
               /\ h' = <[l := ODict (dict_set (VStr (str "name")) new_server_name
                                      fields)]> h)
  end.
Proof.
  rewrite update_participant_server_name_eq.
  destruct (participants_of h project_config) as [ps|e]; [|reflexivity].
  pose proof (rename_server_cases old_server_name new_server_name ps h) as Hc.
  destruct (rename_server ps old_server_name new_server_name h) as [[[]|e] h'];
    [|exact Hc].
  split; [reflexivity|].
  destruct Hc as [[-> _]|(before & l & after & fields & _ & _ & Hn & ->)]; eauto.
Qed.

(** X15. The participant renamed is the first server that bears the old
    name: those before it were passed over, and those after it are not
    looked at. *)
Theorem update_participant_server_name_first (project_config : val)
    (old_server_name : pystr) (new_server_name : val) (h : heap)
    (before after : list val) (l : loc) (fields : list (val * val)) :
  participants_of h project_config = Returns (before ++ VRef l :: after) ->
  forallb (passed_over h old_server_name) before = true ->
  named_server h old_server_name l fields ->
  update_participant_server_name project_config old_server_name new_server_name h
  = (Returns project_config,
     <[l := ODict (dict_set (VStr (str "name")) new_server_name fields)]> h).
Proof.
  intros Hps Hb Hn. rewrite update_participant_server_name_eq, Hps.
  now rewrite (rename_server_first _ _ _ _ _ _ _ Hb Hn).
Qed.

(** X16. Renaming a server and then renaming it back gives the heap that was
    there at the start, provided that no participant before it is a
    server that bears the new name. *)
Theorem update_participant_server_name_back (project_config : val)
    (old_server_name new_server_name : pystr) (h : heap)
    (before after : list val) (l : loc) (fields : list (val * val)) :
  participants_of h project_config = Returns (before ++ VRef l :: after) ->
  forallb (passed_over h old_server_name) before = true ->
  forallb (passed_over h new_server_name) before = true ->
  named_server h old_server_name l fields ->
  exists h1 h2,
    update_participant_server_name project_config old_server_name
      (VStr new_server_name) h = (Returns project_config, h1)
    /\ update_participant_server_name project_config new_server_name
         (VStr old_server_name) h1 = (Returns project_config, h2)
    /\ forall l', h2 l' = h l'.
Proof.
  intros Hps Hb Hb' Hn.
  pose proof Hn as (Hl & Htype & Hname).
  set (fields1 := dict_set (VStr (str "name")) (VStr new_server_name) fields).
  set (h1 := <[l := ODict fields1]> h).
  assert (Hne : str "name" <> str "participants") by discriminate.
  destruct (participants_of_set h project_config l fields (str "name")
              (VStr new_server_name) before after Hl Hne Hps) as [after' Hps1].
  fold fields1 in Hps1. fold h1 in Hps1.
  assert (Hn1 : named_server h1 new_server_name l fields1).
  { split; [apply heap_insert_eq|]. split.
    - unfold fields1. rewrite dict_get_set_ne by discriminate. exact Htype.
    - apply dict_get_set. }
  assert (Hb1 : forallb (passed_over h1 new_server_name) before = true).
  { unfold h1. now rewrite (forallb_passed_over_frame _ _ _ _ _ _ _ Hn Hb). }
  exists h1, (<[l := ODict (dict_set (VStr (str "name")) (VStr old_server_name)
                             fields1)]> h1).
  split.
  { rewrite update_participant_server_name_eq, Hps.
    now rewrite (rename_server_first _ _ _ _ _ _ _ Hb Hn). }
  split.
  { rewrite update_participant_server_name_eq, Hps1.
    now rewrite (rename_server_first _ _ _ _ _ _ _ Hb1 Hn1). }
  intros l'. destruct (decide (l = l')) as [<-|Hl'].
  - rewrite heap_insert_eq. unfold fields1.
    now rewrite dict_set_set, (dict_set_same _ _ _ Hname).
  - unfold h1. now rewrite !heap_insert_ne by assumption.
Qed.

(** ** update_server_default_host *)

(** A participant whose ["type"] can be read and is not ["server"]. *)
Definition not_server (h : heap) (p : val) : bool :=
  match getitem p (str "type") h with
  | (Returns type, _) => negb (eq_str type (str "server"))
  | (Raises _, _) => false
  end.

Definition server (h : heap) (l : loc) (fields : list (val * val)) : Prop :=
  h l = ODict fields
  /\ dict_get (VStr (str "type")) fields = Some (VStr (str "server")).

Lemma set_default_host_cases (default_host : val) (ps : list val) (h : heap) :
  match set_default_host ps default_host h with
  | (Raises _, h') => h' = h
  | (Returns _, h') =>
      (h' = h /\ forallb (not_server h) ps = true)
      \/ exists before l after fields,
           ps = before ++ VRef l :: after
           /\ forallb (not_server h) before = true
           /\ server h l fields
           /\ h' = <[l := ODict (dict_set (VStr (str "default_host")) default_host
                                   fields)]> h
  end.
Proof.
  induction ps as [|p ps IH]; [left; split; reflexivity|].
  cbn [set_default_host forallb]. rewrite hbind_eq. unfold not_server at 1.
  destruct (getitem p (str "type") h) as [[type|e] h1] eqn:Ht; [|].
  2:{ pose proof (getitem_heap p (str "type") h) as Hh. rewrite Ht in Hh. exact Hh. }
  apply getitem_Returns in Ht as (-> & l & fields & -> & Hl & Htype).
  destruct (eq_str type (str "server")) eqn:Hs; cbn [negb andb].
  - unfold setitem. rewrite Hl. right. exists [], l, ps, fields.
    apply eq_str_true in Hs. subst type.
    split; [reflexivity|]. split; [reflexivity|]. split; [|reflexivity].
    split; assumption.
  - destruct (set_default_host ps default_host h) as [[[]|e] h']; [|exact IH].
    destruct IH as [[-> Hall]|(before & l' & after & fields' & -> & Hb & Hn' & ->)].
    + left. split; [reflexivity|exact Hall].
    + right. exists (VRef l :: before), l', after, fields'.
      split; [reflexivity|]. split; [|split; [exact Hn'|reflexivity]].
      cbn [forallb]. unfold not_server at 1.
      rewrite (getitem_dict _ _ _ _ Hl), Htype, Hs. exact Hb.
Qed.

Lemma set_default_host_first (default_host : val) (h : heap)
    (before after : list val) (l : loc) fields :
  forallb (not_server h) before = true ->
  server h l fields ->
  set_default_host (before ++ VRef l :: after) default_host h
  = (Returns tt,
     <[l := ODict (dict_set (VStr (str "default_host")) default_host fields)]> h).
Proof.
  intros Hb (Hl & Htype).
  induction before as [|p before IH].
  - cbn [app set_default_host]. rewrite hbind_eq, (getitem_dict _ _ _ _ Hl), Htype.
    cbn [eq_str]. rewrite bool_decide_eq_true_2 by reflexivity.
    unfold setitem. now rewrite Hl.
  - cbn [forallb] in Hb. apply andb_prop in Hb as [Hp Hb].
    cbn [app set_default_host]. rewrite hbind_eq. unfold not_server in Hp.
    destruct (getitem p (str "type") h) as [[type|e] h1] eqn:Ht; [|discriminate].
    apply getitem_Returns in Ht as (-> & _).
    apply negb_true_iff in Hp. rewrite Hp. auto.
Qed.

Lemma update_server_default_host_eq (project_config default_host : val) (h : heap) :
  update_server_default_host project_config default_host h =
    match participants_of h project_config with
    | Returns ps =>
        match set_default_host ps default_host h with
        | (Returns _, h') => (Returns project_config, h')
        | (Raises e, h') => (Raises e, h')
        end
    | Raises e => (Raises e, h)
    end.
Proof.
  unfold update_server_default_host, participants_of. rewrite !hbind_eq.
  rewrite (getitem_fst project_config (str "participants") h).
  destruct (fst (getitem project_config (str "participants") h)) as [participants|e];
    [|reflexivity].
  rewrite hbind_eq, (iter_fst participants h).
  destruct (fst (iter participants h)) as [ps|e]; cbn [fst]; [|reflexivity].
  rewrite hbind_eq. destruct (set_default_host ps default_host h) as [[[]|e] h'];
    reflexivity.
Qed.

Lemma not_server_frame (h : heap) (p : val) (l : loc) (o : obj) :
  p <> VRef l -> not_server (<[l := o]> h) p = not_server h p.
Proof.
  intros Hp. unfold not_server.
  rewrite (getitem_fst p _ h), (getitem_fst p _ (<[l := o]> h)).
  now rewrite getitem_fst_frame by assumption.
Qed.

Lemma forallb_not_server_frame (h : heap) (l : loc) fields (o : obj) (ps : list val) :
  server h l fields ->
  forallb (not_server h) ps = true ->
  forallb (not_server (<[l := o]> h)) ps = true.
Proof.
  intros (Hl & Htype). induction ps as [|p ps IH]; [reflexivity|]. cbn [forallb].
  intros H. apply andb_prop in H as [Hp H]. rewrite IH by assumption.
  rewrite not_server_frame; [now rewrite Hp|].
  intros ->. unfold not_server in Hp.
  rewrite (getitem_dict _ _ _ _ Hl), Htype in Hp. cbn [eq_str] in Hp.
  rewrite bool_decide_eq_true_2 in Hp by reflexivity. discriminate.
Qed.

(** X17. [update_server_default_host] gives its host to the first participant
    that is a server, whether it had one or not, and touches nothing
    else; the participants before it are not servers, and those after it
    are not looked at. *)
Theorem update_server_default_host_first (project_config default_host : val)
    (h : heap) (before after : list val) (l : loc) (fields : list (val * val)) :
  participants_of h project_config = Returns (before ++ VRef l :: after) ->
  forallb (not_server h) before = true ->
  server h l fields ->
  exists h',
    update_server_default_host project_config default_host h
    = (Returns project_config, h')
    /\ (exists fields',
          h' l = ODict fields'
          /\ dict_get (VStr (str "default_host")) fields' = Some default_host
          /\ forall key, key <> VStr (str "default_host") ->
               dict_get key fields' = dict_get key fields)
    /\ forall l', l' <> l -> h' l' = h l'.
Proof.
  intros Hps Hb Hs. rewrite update_server_default_host_eq, Hps.
  rewrite (set_default_host_first _ _ _ _ _ _ Hb Hs).
  eexists. split; [reflexivity|]. split.
  - eexists. split; [apply heap_insert_eq|]. split; [apply dict_get_set|].
    intros key Hkey. now apply dict_get_set_ne.
  - intros l' Hl'. now rewrite heap_insert_ne by congruence.
Qed.

Lemma update_server_default_host_twice (project_config default_host : val)
    (h : heap) :
  forall r1 h1 r2 h2,
    update_server_default_host project_config default_host h = (r1, h1) ->
    update_server_default_host project_config default_host h1 = (r2, h2) ->
    r2 = r1 /\ forall l, h2 l = h1 l.
Proof.
  intros r1 h1 r2 h2 H1 H2.
  rewrite update_server_default_host_eq in H1.
  destruct (participants_of h project_config) as [ps|e] eqn:Hps.
  2:{ injection H1 as <- <-. rewrite update_server_default_host_eq, Hps in H2.
      injection H2 as <- <-. auto. }
  pose proof (set_default_host_cases default_host ps h) as Hc.
  destruct (set_default_host ps default_host h) as [[[]|e] h'] eqn:Hrun.
  2:{ subst h'. injection H1 as <- <-.
      rewrite update_server_default_host_eq, Hps, Hrun in H2.
      injection H2 as <- <-. auto. }
  injection H1 as <- <-.
  destruct Hc as [[-> _]|(before & l & after & fields & -> & Hb & Hs & ->)].
  { rewrite update_server_default_host_eq, Hps, Hrun in H2.
    injection H2 as <- <-. auto. }
  pose proof Hs as (Hl & Htype).
  set (fields1 := dict_set (VStr (str "default_host")) default_host fields) in *.
  assert (Hne : str "default_host" <> str "participants") by discriminate.
  destruct (participants_of_set h project_config l fields (str "default_host")
              default_host before after Hl Hne Hps) as [after' Hps1].
  fold fields1 in Hps1.
  assert (Hs1 : server (<[l := ODict fields1]> h) l fields1).
  { split; [apply heap_insert_eq|].
    unfold fields1. rewrite dict_get_set_ne by discriminate. exact Htype. }
  pose proof (forallb_not_server_frame _ _ _ (ODict fields1) _ Hs Hb) as Hb1.
  rewrite update_server_default_host_eq, Hps1 in H2.
  rewrite (set_default_host_first _ _ _ _ _ _ Hb1 Hs1) in H2.
  injection H2 as <- <-. split; [reflexivity|].
  intros l'. destruct (decide (l = l')) as [<-|Hl'].
  - rewrite !heap_insert_eq. unfold fields1. now rewrite dict_set_set.
  - now rewrite !heap_insert_ne by assumption.
Qed.

(** X18. Calling [update_server_default_host] twice with the same host is
    calling it once: the second call returns or raises as the first did
    and leaves the heap that the first left. *)
Theorem update_server_default_host_idempotent (project_config default_host : val)
    (h : heap) :
  let (r1, h1) := update_server_default_host project_config default_host h in
  let (r2, h2) := update_server_default_host project_config default_host h1 in
  r2 = r1 /\ forall l, h2 l = h1 l.
Proof.
  destruct (update_server_default_host project_config default_host h)
    as [r1 h1] eqn:H1.
  destruct (update_server_default_host project_config default_host h1)
    as [r2 h2] eqn:H2.
  exact (update_server_default_host_twice _ _ _ _ _ _ _ H1 H2).
Qed.

(** ** A configuration to run the updates on *)

(** [{participants: [admin, server "s1", server "s2"]}], the second
    server being the same object as the first admin's [peer]. *)
Definition demo_heap : heap :=
  fun l =>
    match l with
    | 0%nat => ODict [(VStr (str "name"), VStr (str "demo"));
                      (VStr (str "participants"), VRef 1)]
    | 1%nat => OList [VRef 2; VRef 3; VRef 4]
    | 2%nat => ODict [(VStr (str "type"), VStr (str "admin"));
                      (VStr (str "name"), VStr (str "s1"));
                      (VStr (str "peer"), VRef 4)]
    | 3%nat => ODict [(VStr (str "type"), VStr (str "server"));
                      (VStr (str "name"), VStr (str "s1"))]
    | 4%nat => ODict [(VStr (str "type"), VStr (str "server"));
                      (VStr (str "name"), VStr (str "s2"))]
    | _ => OList []
    end.

Lemma update_participant_server_name_first_witness :
  participants_of demo_heap (VRef 0) = Returns ([VRef 2] ++ VRef 3 :: [VRef 4])
  /\ forallb (passed_over demo_heap (str "s1")) [VRef 2] = true
  /\ named_server demo_heap (str "s1") 3
       [(VStr (str "type"), VStr (str "server")); (VStr (str "name"), VStr (str "s1"))]
  /\ update_participant_server_name (VRef 0) (str "s1") (VStr (str "main")) demo_heap
     = (Returns (VRef 0),
        <[3%nat := ODict (dict_set (VStr (str "name")) (VStr (str "main"))
                            [(VStr (str "type"), VStr (str "server"));
                             (VStr (str "name"), VStr (str "s1"))])]> demo_heap).
Proof.
  assert (Hn : named_server demo_heap (str "s1") 3
                 [(VStr (str "type"), VStr (str "server"));
                  (VStr (str "name"), VStr (str "s1"))])
    by (repeat split; reflexivity).
  split; [reflexivity|]. split; [reflexivity|]. split; [exact Hn|].
  exact (update_participant_server_name_first (VRef 0) (str "s1") (VStr (str "main"))
           demo_heap [VRef 2] [VRef 4] 3%nat _ eq_refl eq_refl Hn).
Defined.

Lemma update_participant_server_name_back_witness :
  participants_of demo_heap (VRef 0) = Returns ([VRef 2] ++ VRef 3 :: [VRef 4])
  /\ forallb (passed_over demo_heap (str "s1")) [VRef 2] = true
  /\ forallb (passed_over demo_heap (str "main")) [VRef 2] = true
  /\ named_server demo_heap (str "s1") 3
       [(VStr (str "type"), VStr (str "server")); (VStr (str "name"), VStr (str "s1"))]
  /\ exists h1 h2,
       update_participant_server_name (VRef 0) (str "s1") (VStr (str "main")) demo_heap
       = (Returns (VRef 0), h1)
       /\ update_participant_server_name (VRef 0) (str "main") (VStr (str "s1")) h1
          = (Returns (VRef 0), h2)
       /\ forall l', h2 l' = demo_heap l'.
Proof.
  assert (Hn : named_server demo_heap (str "s1") 3
                 [(VStr (str "type"), VStr (str "server"));
                  (VStr (str "name"), VStr (str "s1"))])
    by (repeat split; reflexivity).
  split; [reflexivity|]. split; [reflexivity|]. split; [reflexivity|].
  split; [exact Hn|].
  exact (update_participant_server_name_back (VRef 0) (str "s1") (str "main")
           demo_heap [VRef 2] [VRef 4] 3%nat _ eq_refl eq_refl eq_refl Hn).
Defined.

Lemma update_server_default_host_first_witness :
  participants_of demo_heap (VRef 0) = Returns ([VRef 2] ++ VRef 3 :: [VRef 4])
  /\ forallb (not_server demo_heap) [VRef 2] = true
  /\ server demo_heap 3
       [(VStr (str "type"), VStr (str "server")); (VStr (str "name"), VStr (str "s1"))]
  /\ exists h',
       update_server_default_host (VRef 0) (VStr (str "localhost")) demo_heap
       = (Returns (VRef 0), h')
       /\ (exists fields',
             h' 3%nat = ODict fields'
             /\ dict_get (VStr (str "default_host")) fields'
                = Some (VStr (str "localhost"))
             /\ forall key, key <> VStr (str "default_host") ->
                  dict_get key fields'
                  = dict_get key [(VStr (str "type"), VStr (str "server"));
                                  (VStr (str "name"), VStr (str "s1"))])
       /\ forall l', l' <> 3%nat -> h' l' = demo_heap l'.
Proof.
  assert (Hs : server demo_heap 3
                 [(VStr (str "type"), VStr (str "server"));
                  (VStr (str "name"), VStr (str "s1"))])
    by (split; reflexivity).
  split; [reflexivity|]. split; [reflexivity|]. split; [exact Hs|].
  exact (update_server_default_host_first (VRef 0) (VStr (str "localhost"))
           demo_heap [VRef 2] [VRef 4] 3%nat _ eq_refl eq_refl Hs).
Defined.

(** The second server is also the admin's [peer]: renaming it is seen
    through both. *)
Example rename_shared_server :
  let h := snd (update_participant_server_name (VRef 0) (str "s2") (VStr (str "s9"))
                  demo_heap) in
  fst (getitem (VRef 4) (str "name") h) = Returns (VStr (str "s9"))
  /\ fst ((peer <- getitem (VRef 2) (str "peer") ;; getitem peer (str "name"))%H h)
     = Returns (VStr (str "s9")).
Proof. split; reflexivity. Qed.

Example update_without_participants :
  fst (update_participant_server_name (VRef 3) (str "s1") (VStr (str "x")) demo_heap)
  = Raises KeyError
  /\ fst (update_server_default_host (VRef 1) (VStr (str "x")) demo_heap)
     = Raises (Builtin TypeError).
Proof. split; reflexivity. Qed.


(** * The project file: update_project_server_name *)

(** [bool(v)]: [None], [False], zero, and the empty [str], [bytes], list
    and dict are false. The two zeros of the floats are the bit patterns
    whose 63 low bits are null. *)
Definition truth (h : heap) (v : val) : bool :=
  match v with
  | VNone => false
  | VBool b => b
  | VInt z => negb (z =? 0)%Z
  | VFloat bits => negb (bits mod 2 ^ 63 =? 0)
  | VStr s => match s with [] => false | _ => true end
  | VBytes b => match b with [] => false | _ => true end
  | VOther _ => true
  | VRef l =>
      match h l with
      | ODict [] | OList [] => false
      | _ => true
      end
  end.

Section ProjectFile.

(** [yaml.safe_load] of the text of a file builds a configuration in a
    heap of its own, or raises; [yaml.dump] gives the text of one, or
    raises before it has written anything (an object that it cannot
    represent). *)
Context (yaml_safe_load : bytes -> outcome (heap * val))
        (yaml_dump : heap -> val -> outcome bytes).

(** The file is opened for writing, which empties it, before the
    configuration is dumped into it. *)
Definition update_project_server_name (project_file : path)
    (old_server_name : pystr) (server_name : val) : world -> outcome unit * world :=
  fun w =>
    match read_node (fs w) project_file with
    | Raise e => (Raises (Builtin e), w)
    | Ok data =>
        match yaml_safe_load data with
        | Raises e => (Raises e, w)
        | Returns (h, project_config) =>
            if negb (truth h project_config)
            then (Raises RuntimeError, w)
            else
              match update_project_server_name_config project_config
                      old_server_name server_name h with
              | (Raises e, _) => (Raises e, w)
              | (Returns _, h') =>
                  match write_node (fs w) project_file [] with
                  | Raise e => (Raises (Builtin e), w)
                  | Ok t0 =>
                      match yaml_dump h' project_config with
                      | Raises e => (Raises e, World t0 (drawn w))
                      | Returns text =>
                          match write_node t0 project_file text with
                          | Ok t' => (Returns tt, World t' (drawn w))
                          | Raise e => (Raises (Builtin e), World t0 (drawn w))
                          end
                      end
                  end
              end
        end
    end.

End ProjectFile.

Lemma update_project_server_name_config_eq (project_config : val) (old : pystr)
    (new : val) (h : heap) :
  update_project_server_name_config project_config old new h
  = update_participant_server_name project_config old new h.
Proof.
  unfold update_project_server_name_config. rewrite hbind_eq.
  pose proof (update_participant_server_name_result project_config old new h) as He.
  destruct (update_participant_server_name project_config old new h) as [[r|e] h'];
    [|reflexivity].
  now rewrite (He h' r eq_refl).
Qed.

(** ** Writing a file twice *)

Lemma set_entry_set_entry (n : pystr) (c c' : node) es :
  set_entry n c (set_entry n c' es) = set_entry n c es.
Proof.
  induction es as [|[n' c0] es IH]; cbn.
  - now rewrite decide_True.
  - destruct (decide (n' = n)) as [->|Hne]; cbn.
    + now rewrite decide_True.
    + rewrite decide_False by assumption. now rewrite IH.
Qed.

(** Where a file was written, writing again is writing once. *)
Lemma write_node_again (p : path) (a b : bytes) :
  forall t t0, write_node t p a = Ok t0 -> write_node t0 p b = write_node t p b.
Proof.
  induction p as [|name p IH]; intros t t0 H; [discriminate|].
  cbn in H. destruct t as [|es|]; try discriminate.
  destruct p as [|name' p].
  - assert (Ht0 : t0 = Dir (set_entry name (File a) es)
                  /\ (entry name es = None \/ exists x, entry name es = Some (File x))).
    { destruct (entry name es) as [[x| |]|]; try discriminate;
        injection H as <-; eauto. }
    destruct Ht0 as [-> He]. cbn. rewrite entry_set_entry, set_entry_set_entry.
    now destruct He as [->|[x ->]].
  - destruct (entry name es) as [c|] eqn:He; [|discriminate].
    destruct (write_node c (name' :: p) a) as [c'|e] eqn:Hc; [|discriminate].
    cbn in H. injection H as <-.
    change (match entry name (set_entry name c' es) with
            | Some c0 =>
                rbind (write_node c0 (name' :: p) b)
                  (fun c1 => Ok (Dir (set_entry name c1 (set_entry name c' es))))
            | None => Raise FileNotFoundError
            end
            = match entry name es with
              | Some c0 =>
                  rbind (write_node c0 (name' :: p) b)
                    (fun c1 => Ok (Dir (set_entry name c1 es)))
              | None => Raise FileNotFoundError
              end).
    rewrite entry_set_entry, He, (IH _ _ Hc).
    destruct (write_node c (name' :: p) b) as [c''|e]; [|reflexivity].
    cbn. now rewrite set_entry_set_entry.
Qed.

(** A regular file can be written over. *)
Lemma write_node_over_file (p : path) (data : bytes) :
  forall t x,
    p <> [] -> lookup_path t p = Some (File x) ->
    exists t', write_node t p data = Ok t'.
Proof.
  induction p as [|name p IH]; intros t x Hne Hl; [congruence|].
  cbn in Hl. destruct t as [|es|]; try discriminate.
  destruct (entry name es) as [c|] eqn:He; [|discriminate].
  destruct p as [|name' p].
  - cbn in Hl. injection Hl as ->. cbn. rewrite He. eauto.
  - destruct (IH c x ltac:(discriminate) Hl) as [c' Hc'].
    exists (Dir (set_entry name c' es)).
    change (match entry name es with
            | Some c0 =>
                rbind (write_node c0 (name' :: p) data)
                  (fun c1 => Ok (Dir (set_entry name c1 es)))
            | None => Raise FileNotFoundError
            end = Ok (Dir (set_entry name c' es))).
    now rewrite He, Hc'.
Qed.

(** A file that was opened for writing takes what is written to it. *)
Lemma write_node_after_open (p : path) (text : bytes) (t t0 : node) :
  write_node t p [] = Ok t0 ->
  exists t', write_node t0 p text = Ok t' /\ write_node t p text = Ok t'.
Proof.
  intros H0.
  assert (Hne : p <> []) by (intros ->; discriminate).
  destruct (write_node_over_file p text t0 [] Hne (write_node_lookup _ _ _ _ H0))
    as [t' Ht'].
  exists t'. split; [exact Ht'|]. now rewrite <- (write_node_again _ _ _ _ _ H0).
Qed.

(** ** Properties *)

(** X19. [update_project_server_name] touches the file system only after the
    configuration was loaded and updated. When it returns, the project
    file holds the dump of that configuration and nothing else changed.
    When it raises, either the file system is what it was (the file
    cannot be read or written, is no YAML, holds an empty configuration,
    or the update raises), or the dump raised and the project file is
    left empty. *)
Theorem update_project_server_name_outcomes
    (yaml_safe_load : bytes -> outcome (heap * val))
    (yaml_dump : heap -> val -> outcome bytes)
    (project_file : path) (old_server_name : pystr) (server_name : val)
    (w : world) :
  match update_project_server_name yaml_safe_load yaml_dump project_file
          old_server_name server_name w with
  | (Returns _, w') =>
      exists data h project_config h' text,
        read_node (fs w) project_file = Ok data
        /\ yaml_safe_load data = Returns (h, project_config)
        /\ truth h project_config = true
        /\ update_participant_server_name project_config old_server_name
             server_name h = (Returns project_config, h')
        /\ yaml_dump h' project_config = Returns text
        /\ write_node (fs w) project_file text = Ok (fs w')
        /\ drawn w' = drawn w
  | (Raises e, w') =>
      w' = w
      \/ exists data h project_config h',
           read_node (fs w) project_file = Ok data
           /\ yaml_safe_load data = Returns (h, project_config)
           /\ truth h project_config = true
           /\ update_participant_server_name project_config old_server_name
                server_name h = (Returns project_config, h')
           /\ yaml_dump h' project_config = Raises e
           /\ write_node (fs w) project_file [] = Ok (fs w')
           /\ drawn w' = drawn w
  end.
Proof.
  unfold update_project_server_name.
  destruct (read_node (fs w) project_file) as [data|e] eqn:Hr; [|now left].
  destruct (yaml_safe_load data) as [[h cfg]|e] eqn:Hy; [|now left].
  destruct (truth h cfg) eqn:Ht; [|now left]. cbn [negb].
  rewrite update_project_server_name_config_eq.
  destruct (update_participant_server_name cfg old_server_name server_name h)
    as [[r|e] h'] eqn:Hu; [|now left].
  pose proof (update_participant_server_name_result _ _ _ _ _ _ Hu) as ->.
  destruct (write_node (fs w) project_file []) as [t0|e] eqn:H0; [|now left].
  destruct (yaml_dump h' cfg) as [text|e] eqn:Hd.
  - destruct (write_node_after_open _ text _ _ H0) as (t' & -> & Hw).
    exists data, h, cfg, h', text. auto 8.
  - right. exists data, h, cfg, h'. auto 8.
Qed.

(** X20. A file that holds an empty configuration (an empty document, which
    loads as [None], an empty mapping, an empty sequence, a zero) makes
    it raise [RuntimeError], and is left as it was. *)
Theorem update_project_server_name_empty
    (yaml_safe_load : bytes -> outcome (heap * val))
    (yaml_dump : heap -> val -> outcome bytes)
    (project_file : path) (old_server_name : pystr) (server_name : val)
    (w : world) (data : bytes) (h : heap) (project_config : val) :
  read_node (fs w) project_file = Ok data ->
  yaml_safe_load data = Returns (h, project_config) ->
  truth h project_config = false ->
  update_project_server_name yaml_safe_load yaml_dump project_file
    old_server_name server_name w
  = (Raises RuntimeError, w).
Proof.
  intros Hr Hy Ht. unfold update_project_server_name. now rewrite Hr, Hy, Ht.
Qed.



(** ** A project file *)

(** A YAML reader and writer for the example: the reader knows one
    document, the configuration of [demo_heap], and the empty document;
    the writer writes the name of the first server of that
    configuration, and refuses a name that is an object of another
    class. *)
Definition toy_yaml_load (data : bytes) : outcome (heap * val) :=
  if decide (data = bstr "project") then Returns (demo_heap, VRef 0)
  else if decide (data = bstr "") then Returns (demo_heap, VNone)
  else Raises (Builtin ValueError).

Definition toy_yaml_dump (h : heap) (v : val) : outcome bytes :=
  match h 3%nat with
  | ODict fields =>
      match dict_get (VStr (str "name")) fields with
      | Some (VStr s) => Returns (map byte_of_N s)
      | Some (VOther _) => Raises (Builtin TypeError)
      | _ => Returns []
      end
  | OList _ => Returns []
  end.

Definition project_fs : node :=
  Dir [(str "project.yml", File (bstr "project")); (str "empty.yml", File (bstr ""))].

Lemma update_project_server_name_empty_witness :
  read_node project_fs [str "empty.yml"] = Ok (bstr "")
  /\ toy_yaml_load (bstr "") = Returns (demo_heap, VNone)
  /\ truth demo_heap VNone = false
  /\ update_project_server_name toy_yaml_load toy_yaml_dump [str "empty.yml"]
       (str "s1") (VStr (str "main")) (World project_fs 0)
     = (Raises RuntimeError, World project_fs 0).
Proof.
  split; [reflexivity|]. split; [reflexivity|]. split; [reflexivity|].
  exact (update_project_server_name_empty toy_yaml_load toy_yaml_dump
           [str "empty.yml"] (str "s1") (VStr (str "main")) (World project_fs 0)
           (bstr "") demo_heap VNone eq_refl eq_refl eq_refl).
Defined.



Example update_project_server_name_run :
  update_project_server_name toy_yaml_load toy_yaml_dump [str "project.yml"]
    (str "s1") (VStr (str "main")) (World project_fs 0)
  = (Returns tt,
     World (Dir [(str "project.yml", File (bstr "main"));
                 (str "empty.yml", File (bstr ""))]) 0).
Proof. vm_compute. reflexivity. Qed.


(** * Resources: update_storage_locations

    The resources are what [json.load] built, which is a tree: no object
    of it is reached by two ways, so that a change made in place is a
    change of the tree at one place. *)

Inductive json : Type :=
| JNull
| JBool (b : bool)
| JInt (z : Z)
| JFloat (bits : N)
| JStr (s : pystr)
| JList (items : list json)
| JDict (fields : list (pystr * json)).

Fixpoint jdict_get (key : pystr) (fields : list (pystr * json)) : option json :=
  match fields with
  | [] => None
  | (k, v) :: fields' => if decide (k = key) then Some v else jdict_get key fields'
  end.

Fixpoint jdict_set (key : pystr) (v : json) (fields : list (pystr * json))
  : list (pystr * json) :=
  match fields with
  | [] => [(key, v)]
  | (k, v0) :: fields' =>
      if decide (k = key) then (k, v) :: fields' else (k, v0) :: jdict_set key v fields'
  end.

Definition obind {A B} (r : outcome A) (k : A -> outcome B) : outcome B :=
  match r with
  | Returns a => k a
  | Raises e => Raises e
  end.

(** [v[key]] *)
Definition jgetitem (v : json) (key : pystr) : outcome json :=
  match v with
  | JDict fields =>
      match jdict_get key fields with
      | Some x => Returns x
      | None => Raises KeyError
      end
  | _ => Raises (Builtin TypeError)
  end.

(** [v[key] = x], as the value that [v] then is. *)
Definition jsetitem (v : json) (key : pystr) (x : json) : outcome json :=
  match v with
  | JDict fields => Returns (JDict (jdict_set key x fields))
  | _ => Raises (Builtin TypeError)
  end.

(** [v[k1]...[kn][key] = x], as the value that [v] then is. *)
Fixpoint jset_path (v : json) (keys : list pystr) (key : pystr) (x : json)
  : outcome json :=
  match keys with
  | [] => jsetitem v key x
  | k :: keys' =>
      obind (jgetitem v k) (fun c =>
      obind (jset_path c keys' key x) (fun c' =>
      jsetitem v k c'))
  end.

(** [v[k1]...[kn]] *)
Fixpoint jget_path (v : json) (keys : list pystr) : outcome json :=
  match keys with
  | [] => Returns v
  | k :: keys' => obind (jgetitem v k) (fun c => jget_path c keys')
  end.

(** What [for comp in v] goes through. *)
Definition jiter (v : json) : outcome (list json) :=
  match v with
  | JList items => Returns items
  | JDict fields => Returns (map (fun kv => JStr (fst kv)) fields)
  | JStr s => Returns (map (fun c => JStr [c]) s)
  | _ => Raises (Builtin TypeError)
  end.

(** [v == s] for a [str] [s]. *)
Definition jeq_str (v : json) (s : pystr) : bool :=
  match v with
  | JStr s' => bool_decide (s' = s)
  | _ => false
  end.

(** [[comp for comp in components if comp["id"] == "job_manager"]], as
    the places of the components that it keeps. *)
Fixpoint job_managers (i : nat) (components : list json) : outcome (list nat) :=
  match components with
  | [] => Returns []
  | comp :: components' =>
      obind (jgetitem comp (str "id")) (fun id =>
      obind (job_managers (S i) components') (fun rest =>
      Returns (if jeq_str id (str "job_manager") then i :: rest else rest)))
  end.

(** The component at place [i] having become [comp']: a list holds the
    component itself; the keys of a dict and the characters of a [str]
    are not part of it. *)
Definition with_component (components : json) (i : nat) (comp' : json) : json :=
  match components with
  | JList items => JList (<[i := comp']> items)
  | _ => components
  end.

(** The four statements between the load and the dump. *)
Definition update_resources (resources : json) (snapshot_storage job_storage : pystr)
  : outcome json :=
  obind (jset_path resources
           [str "snapshot_persistor"; str "args"; str "storage"; str "args"]
           (str "root_dir") (JStr snapshot_storage)) (fun resources =>
  obind (jgetitem resources (str "components")) (fun components =>
  obind (jiter components) (fun comps =>
  obind (job_managers 0 comps) (fun found =>
  match found with
  | [] => Raises IndexError
  | i :: _ =>
      match comps !! i with
      | None => Raises IndexError
      | Some job_mgr_comp =>
          obind (jset_path job_mgr_comp [str "args"] (str "uri_root")
                   (JStr job_storage)) (fun comp' =>
          jsetitem resources (str "components") (with_component components i comp'))
      end
  end)))).

Section Resources.

(** [json.load] of the text of a file, and [json.dumps] with an indent
    of 4. *)
Context (json_load : bytes -> outcome json) (json_dumps_4 : json -> bytes).

(** [local_dir] is a path and the names are names of entries. *)
Definition update_storage_locations (local_dir : path) (workspace : pystr)
    (default_resource_name job_storage_name snapshot_storage_name : pystr)
  : world -> outcome unit * world :=
  fun w =>
    let default_resource := local_dir ++ [default_resource_name] in
    let target_resource := local_dir ++ [str "resources.json"] in
    let job_storage := workspace ++ str "/" ++ job_storage_name in
    let snapshot_storage := workspace ++ str "/" ++ snapshot_storage_name in
    match read_node (fs w) default_resource with
    | Raise e => (Raises (Builtin e), w)
    | Ok data =>
        match obind (json_load data) (fun resources =>
                update_resources resources snapshot_storage job_storage) with
        | Raises e => (Raises e, w)
        | Returns resources =>
            match write_node (fs w) target_resource (json_dumps_4 resources) with
            | Ok t' => (Returns tt, World t' (drawn w))
            | Raise e => (Raises (Builtin e), w)
            end
        end
    end.

End Resources.

(** ** Properties *)

Lemma jdict_get_set (key : pystr) (v : json) fields :
  jdict_get key (jdict_set key v fields) = Some v.
Proof.
  induction fields as [|[k v0] fields IH]; cbn.
  - now rewrite decide_True.
  - destruct (decide (k = key)) as [->|Hne]; cbn.
    + now rewrite decide_True.
    + now rewrite decide_False.
Qed.

Lemma jdict_get_set_ne (key key' : pystr) (v : json) fields :
  key' <> key -> jdict_get key' (jdict_set key v fields) = jdict_get key' fields.
Proof.
  intros Hne. induction fields as [|[k v0] fields IH]; cbn.
  - now rewrite decide_False by congruence.
  - destruct (decide (k = key)) as [->|Hk]; cbn.
    + now rewrite !decide_False by congruence.
    + destruct (decide (k = key')); auto.
Qed.

Lemma jsetitem_get (v v' : json) (key : pystr) (x : json) :
  jsetitem v key x = Returns v' -> jgetitem v' key = Returns x.
Proof.
  destruct v; try discriminate. intros [= <-]. cbn. now rewrite jdict_get_set.
Qed.

Lemma jsetitem_get_ne (v v' : json) (key key' : pystr) (x : json) :
  jsetitem v key x = Returns v' -> key' <> key -> jgetitem v' key' = jgetitem v key'.
Proof.
  destruct v; try discriminate. intros [= <-] Hne. cbn.
  now rewrite jdict_get_set_ne.
Qed.

(** What was set along a path is read back along it. *)
Lemma jset_path_get (keys : list pystr) (key : pystr) (x : json) :
  forall v v',
    jset_path v keys key x = Returns v' -> jget_path v' (keys ++ [key]) = Returns x.
Proof.
  induction keys as [|k keys IH]; intros v v' H; cbn in *.
  - now rewrite (jsetitem_get _ _ _ _ H).
  - destruct (jgetitem v k) as [c|e]; [|discriminate]. cbn in H.
    destruct (jset_path c keys key x) as [c'|e] eqn:Hc; [|discriminate]. cbn in H.
    rewrite (jsetitem_get _ _ _ _ H). cbn. eauto.
Qed.

(** And the keys beside the first key of the path are as they were. *)
Lemma jset_path_get_ne (keys : list pystr) (key : pystr) (x : json) (v v' : json)
    (k' : pystr) :
  jset_path v keys key x = Returns v' ->
  k' <> hd key keys -> jgetitem v' k' = jgetitem v k'.
Proof.
  destruct keys as [|k keys]; cbn; intros H Hne.
  - exact (jsetitem_get_ne _ _ _ _ _ H Hne).
  - destruct (jgetitem v k) as [c|e]; [|discriminate]. cbn in H.
    destruct (jset_path c keys key x) as [c'|e]; [|discriminate]. cbn in H.
    exact (jsetitem_get_ne _ _ _ _ _ H Hne).
Qed.

Lemma jeq_str_true (v : json) (s : pystr) : jeq_str v s = true <-> v = JStr s.
Proof.
  destruct v; cbn; try (split; [discriminate|congruence]).
  rewrite bool_decide_eq_true. split; congruence.
Qed.

(** The places that the comprehension keeps: in order, those of the
    components whose ["id"] is ["job_manager"]. *)
Lemma job_managers_spec (components : list json) :
  forall i found,
    job_managers i components = Returns found ->
    Forall (fun comp => exists id, jgetitem comp (str "id") = Returns id) components
    /\ forall j,
         j ∈ found <->
         (i <= j)%nat
         /\ exists comp,
              components !! (j - i)%nat = Some comp
              /\ jgetitem comp (str "id") = Returns (JStr (str "job_manager")).
Proof.
  induction components as [|comp components IH]; intros i found H;
    cbn [job_managers] in H.
  - injection H as <-. split; [constructor|]. intros j. split.
    + intros Hj. inversion Hj.
    + intros (_ & c & Hc & _). discriminate.
  - destruct (jgetitem comp (str "id")) as [id|e] eqn:Hid; [|discriminate].
    cbn [obind] in H.
    destruct (job_managers (S i) components) as [rest|e] eqn:Hrest; [|discriminate].
    cbn [obind] in H. injection H as <-.
    destruct (IH _ _ Hrest) as [Hall Hspec].
    split; [constructor; eauto|]. intros j.
    assert (Hrec : j ∈ rest <->
              (i < j)%nat
              /\ exists c, (comp :: components) !! (j - i)%nat = Some c
                   /\ jgetitem c (str "id") = Returns (JStr (str "job_manager"))).
    { rewrite Hspec. split.
      - intros (Hle & c & Hc & Hj). split; [lia|]. exists c. split; [|exact Hj].
        replace (j - i)%nat with (S (j - S i)) by lia. exact Hc.
      - intros (Hlt & c & Hc & Hj). split; [lia|]. exists c. split; [|exact Hj].
        replace (j - i)%nat with (S (j - S i)) in Hc by lia. exact Hc. }
    destruct (jeq_str id (str "job_manager")) eqn:Hjeq.
    + apply jeq_str_true in Hjeq as ->. rewrite elem_of_cons, Hrec. split.
      * intros [->|(Hlt & Hc)].
        -- split; [lia|]. exists comp. rewrite Nat.sub_diag. auto.
        -- split; [lia|exact Hc].
      * intros (Hle & c & Hc & Hj).
        destruct (decide (j = i)) as [->|Hji]; [now left|]. right.
        split; [lia|eauto].
    + rewrite Hrec. split.
      * intros (Hlt & Hc). split; [lia|exact Hc].
      * intros (Hle & c & Hc & Hj).
        destruct (decide (j = i)) as [->|Hji]; [|split; [lia|eauto]].
        rewrite Nat.sub_diag in Hc. cbn in Hc. injection Hc as <-.
        rewrite Hid in Hj. injection Hj as ->. cbn in Hjeq.
        rewrite bool_decide_eq_true_2 in Hjeq by reflexivity. discriminate.
Qed.

(** The first place kept is before the others. *)
Lemma job_managers_sorted (components : list json) :
  forall i found,
    job_managers i components = Returns found ->
    match found with
    | [] => True
    | j :: rest => Forall (fun j' => (j < j')%nat) rest
    end.
Proof.
  induction components as [|comp components IH]; intros i found H;
    cbn [job_managers] in H.
  - now injection H as <-.
  - destruct (jgetitem comp (str "id")) as [id|e] eqn:Hid; [|discriminate].
    cbn [obind] in H.
    destruct (job_managers (S i) components) as [rest|e] eqn:Hrest; [|discriminate].
    cbn [obind] in H. injection H as <-.
    destruct (jeq_str id (str "job_manager")); [|exact (IH _ _ Hrest)].
    apply list.Forall_forall. intros j Hj.
    apply (job_managers_spec _ _ _ Hrest) in Hj as [Hle _]. lia.
Qed.

Lemma jiter_dict_or_str (components : json) (comps : list json) :
  jiter components = Returns comps ->
  (exists items, components = JList items /\ comps = items)
  \/ Forall (fun comp => exists s, comp = JStr s) comps.
Proof.
  destruct components; try discriminate; intros [= <-].
  - right. apply list.Forall_forall. intros c Hc.
    apply list_elem_of_fmap in Hc as (x & -> & _). eauto.
  - left. eauto.
  - right. apply list.Forall_forall. intros c Hc.
    apply list_elem_of_fmap in Hc as (x & -> & _). eauto.
Qed.

(** X23. When [update_resources] returns, the persistor's storage has the
    snapshot directory for its root, the first component whose id is
    ["job_manager"] has the job directory for the root of its URIs, the
    components at the other places are as they were, and so are the
    other keys of the resources. *)
Theorem update_resources_effect (resources resources' : json)
    (snapshot_storage job_storage : pystr) :
  update_resources resources snapshot_storage job_storage = Returns resources' ->
  jget_path resources'
    [str "snapshot_persistor"; str "args"; str "storage"; str "args"; str "root_dir"]
  = Returns (JStr snapshot_storage)
  /\ (forall key,
        key <> str "snapshot_persistor" -> key <> str "components" ->
        jgetitem resources' key = jgetitem resources key)
  /\ exists items items' i comp,
       jgetitem resources (str "components") = Returns (JList items)
       /\ jgetitem resources' (str "components") = Returns (JList items')
       /\ items !! i = Some comp
       /\ jgetitem comp (str "id") = Returns (JStr (str "job_manager"))
       /\ (forall j c, (j < i)%nat -> items !! j = Some c ->
             jgetitem c (str "id") <> Returns (JStr (str "job_manager")))
       /\ obind (jget_path resources' [str "components"])
            (fun cs => match cs with
                       | JList l =>
                           match l !! i with
                           | Some c => jget_path c [str "args"; str "uri_root"]
                           | None => Raises IndexError
                           end
                       | _ => Raises (Builtin TypeError)
                       end)
          = Returns (JStr job_storage)
       /\ forall j, j <> i -> items' !! j = items !! j.
Proof.
  unfold update_resources. intros H.
  destruct (jset_path resources _ (str "root_dir") (JStr snapshot_storage))
    as [r1|e] eqn:H1; [|discriminate]. cbn [obind] in H.
  destruct (jgetitem r1 (str "components")) as [components|e] eqn:Hcs;
    [|discriminate]. cbn [obind] in H.
  destruct (jiter components) as [comps|e] eqn:Hit; [|discriminate].
  cbn [obind] in H.
  destruct (job_managers 0 comps) as [found|e] eqn:Hjm; [|discriminate].
  cbn [obind] in H.
  destruct found as [|i rest]; [discriminate|].
  destruct (comps !! i) as [comp|] eqn:Hi; [|discriminate].
  destruct (jset_path comp [str "args"] (str "uri_root") (JStr job_storage))
    as [comp'|e] eqn:H2; [|discriminate]. cbn [obind] in H.
  destruct (job_managers_spec _ _ _ Hjm) as [Hids Hspec].
  pose proof (job_managers_sorted _ _ _ Hjm) as Hsorted. cbn in Hsorted.
  assert (Hcomp : jgetitem comp (str "id") = Returns (JStr (str "job_manager"))).
  { destruct (proj1 (Hspec i) ltac:(left)) as (_ & c & Hc & Hid).
    rewrite Nat.sub_0_r in Hc. congruence. }
  assert (Hlist : exists items, components = JList items /\ comps = items).
  { destruct (jiter_dict_or_str _ _ Hit) as [Hl|Hstr]; [exact Hl|].
    rewrite list.Forall_forall in Hstr.
    destruct (Hstr comp (list_elem_of_lookup_2 _ _ _ Hi)) as [s ->]. discriminate. }
  destruct Hlist as (items & -> & ->). cbn [with_component] in H.
  assert (Hcs0 : jgetitem resources (str "components") = Returns (JList items)).
  { rewrite <- Hcs. symmetry.
    apply (jset_path_get_ne _ _ _ _ _ _ H1). discriminate. }
  split; [|split].
  - pose proof (jset_path_get _ _ _ _ _ H1) as Hg. cbn [app] in Hg.
    cbn [jget_path] in Hg |- *.
    rewrite (jsetitem_get_ne _ _ _ _ _ H) by discriminate. exact Hg.
  - intros key Hk1 Hk2. rewrite (jsetitem_get_ne _ _ _ _ _ H Hk2).
    apply (jset_path_get_ne _ _ _ _ _ _ H1). exact Hk1.
  - exists items, (<[i := comp']> items), i, comp.
    split; [exact Hcs0|]. split; [exact (jsetitem_get _ _ _ _ H)|].
    split; [exact Hi|]. split; [exact Hcomp|]. split; [|split].
    + intros j c Hj Hc Hid.
      assert (Hin : j ∈ i :: rest).
      { apply Hspec. split; [lia|]. exists c. now rewrite Nat.sub_0_r. }
      apply elem_of_cons in Hin as [->|Hin]; [lia|].
      rewrite list.Forall_forall in Hsorted. specialize (Hsorted _ Hin). lia.
    + cbn [jget_path]. rewrite (jsetitem_get _ _ _ _ H). cbn [obind].
      rewrite list_lookup_insert_eq by (now apply lookup_lt_Some in Hi).
      exact (jset_path_get _ _ _ _ _ H2).
    + intros j Hj. now apply list_lookup_insert_ne.
Qed.

(** X24. The comprehension looks at every component: one that has no ["id"]
    makes [update_resources] raise [KeyError], wherever it stands, even
    after the job manager. *)
Theorem update_resources_missing_id (resources r1 : json)
    (snapshot_storage job_storage : pystr) (before after : list json)
    (fields : list (pystr * json)) :
  jset_path resources
    [str "snapshot_persistor"; str "args"; str "storage"; str "args"]
    (str "root_dir") (JStr snapshot_storage) = Returns r1 ->
  jgetitem r1 (str "components") = Returns (JList (before ++ JDict fields :: after)) ->
  Forall (fun comp => exists id, jgetitem comp (str "id") = Returns id) before ->
  jdict_get (str "id") fields = None ->
  update_resources resources snapshot_storage job_storage = Raises KeyError.
Proof.
  intros H1 Hcs Hbefore Hid. unfold update_resources. rewrite H1. cbn [obind].
  rewrite Hcs. cbn [obind jiter].
  assert (Hjm : forall i, job_managers i (before ++ JDict fields :: after)
                          = Raises KeyError).
  { clear Hcs. induction Hbefore as [|c before [id Hc] _ IH]; intros i;
      cbn [app job_managers].
    - cbn [jgetitem]. now rewrite Hid.
    - rewrite Hc. cbn [obind]. now rewrite IH. }
  now rewrite Hjm.
Qed.

(** X25. When every component has an id and none is ["job_manager"] (the
    list of components may be empty), [update_resources] raises
    [IndexError]. *)
Theorem update_resources_no_job_manager (resources r1 : json)
    (snapshot_storage job_storage : pystr) (items : list json) :
  jset_path resources
    [str "snapshot_persistor"; str "args"; str "storage"; str "args"]
    (str "root_dir") (JStr snapshot_storage) = Returns r1 ->
  jgetitem r1 (str "components") = Returns (JList items) ->
  Forall (fun comp => exists id,
            jgetitem comp (str "id") = Returns id
            /\ id <> JStr (str "job_manager")) items ->
  update_resources resources snapshot_storage job_storage = Raises IndexError.
Proof.
  intros H1 Hcs Hitems. unfold update_resources. rewrite H1. cbn [obind].
  rewrite Hcs. cbn [obind jiter].
  assert (Hjm : forall i, job_managers i items = Returns []).
  { clear Hcs. induction Hitems as [|c items (id & Hc & Hne) _ IH]; intros i;
      cbn [job_managers].
    - reflexivity.
    - rewrite Hc. cbn [obind]. rewrite IH. cbn [obind].
      destruct (jeq_str id (str "job_manager")) eqn:Hjeq; [|reflexivity].
      now apply jeq_str_true in Hjeq. }
  now rewrite Hjm.
Qed.

(** X26. [update_storage_locations] writes [resources.json] last: when it
    raises, the file system is what it was; when it returns, the file
    holds the dump of the resources that were loaded from the default
    file and updated. *)
Theorem update_storage_locations_atomic
    (json_load : bytes -> outcome json) (json_dumps_4 : json -> bytes)
    (local_dir : path)
    (workspace default_resource_name job_storage_name snapshot_storage_name : pystr)
    (w : world) :
  match update_storage_locations json_load json_dumps_4 local_dir workspace
          default_resource_name job_storage_name snapshot_storage_name w with
  | (Raises _, w') => w' = w
  | (Returns _, w') =>
      exists data resources resources',
        read_node (fs w) (local_dir ++ [default_resource_name]) = Ok data
        /\ json_load data = Returns resources
        /\ update_resources resources
             (workspace ++ str "/" ++ snapshot_storage_name)
             (workspace ++ str "/" ++ job_storage_name) = Returns resources'
        /\ write_node (fs w) (local_dir ++ [str "resources.json"])
             (json_dumps_4 resources') = Ok (fs w')
        /\ drawn w' = drawn w
  end.
Proof.
  unfold update_storage_locations.
  destruct (read_node (fs w) (local_dir ++ [default_resource_name]))
    as [data|e] eqn:Hr; [|reflexivity].
  destruct (json_load data) as [resources|e] eqn:Hl; [|reflexivity]. cbn [obind].
  destruct (update_resources resources _ _) as [resources'|e] eqn:Hu; [|reflexivity].
  destruct (write_node (fs w) (local_dir ++ [str "resources.json"])
              (json_dumps_4 resources')) as [t'|e] eqn:Hw; [|reflexivity].
  exists data, resources, resources'. auto 6.
Qed.

(** ** Resources to run the update on *)

Definition component (id : string) (root : string) : json :=
  JDict [(str "id", JStr (str id));
         (str "args", JDict [(str "uri_root", JStr (str root))])].

Definition demo_resources : json :=
  JDict
    [(str "format_version", JInt 2);
     (str "snapshot_persistor",
      JDict [(str "args",
              JDict [(str "storage",
                      JDict [(str "args",
                              JDict [(str "root_dir", JStr (str "/tmp/snap"))])])])]);
     (str "components",
      JList [component "resource_manager" "";
             component "job_manager" "/tmp/jobs";
             component "job_manager" "/tmp/other"])].

Definition demo_resources_updated : json :=
  JDict
    [(str "format_version", JInt 2);
     (str "snapshot_persistor",
      JDict [(str "args",
              JDict [(str "storage",
                      JDict [(str "args",
                              JDict [(str "root_dir", JStr (str "/ws/snapshots"))])])])]);
     (str "components",
      JList [component "resource_manager" "";
             component "job_manager" "/ws/jobs";
             component "job_manager" "/tmp/other"])].

Example update_resources_demo :
  update_resources demo_resources (str "/ws/snapshots") (str "/ws/jobs")
  = Returns demo_resources_updated.
Proof. vm_compute. reflexivity. Qed.

Lemma update_resources_effect_witness :
  update_resources demo_resources (str "/ws/snapshots") (str "/ws/jobs")
  = Returns demo_resources_updated
  /\ jget_path demo_resources_updated
       [str "snapshot_persistor"; str "args"; str "storage"; str "args";
        str "root_dir"]
     = Returns (JStr (str "/ws/snapshots")).
Proof.
  split; [exact update_resources_demo|].
  exact (proj1 (update_resources_effect demo_resources demo_resources_updated
                  (str "/ws/snapshots") (str "/ws/jobs") update_resources_demo)).
Defined.

Definition broken_resources : json :=
  JDict
    [(str "snapshot_persistor",
      JDict [(str "args",
              JDict [(str "storage",
                      JDict [(str "args", JDict [])])])]);
     (str "components",
      JList [component "job_manager" "/tmp/jobs";
             JDict [(str "name", JStr (str "nameless"))]])].

Lemma update_resources_missing_id_witness :
  (exists r1,
     jset_path broken_resources
       [str "snapshot_persistor"; str "args"; str "storage"; str "args"]
       (str "root_dir") (JStr (str "/ws/snapshots")) = Returns r1
     /\ jgetitem r1 (str "components")
        = Returns (JList ([component "job_manager" "/tmp/jobs"]
                          ++ JDict [(str "name", JStr (str "nameless"))] :: [])))
  /\ Forall (fun comp => exists id, jgetitem comp (str "id") = Returns id)
       [component "job_manager" "/tmp/jobs"]
  /\ jdict_get (str "id") [(str "name", JStr (str "nameless"))] = None
  /\ update_resources broken_resources (str "/ws/snapshots") (str "/ws/jobs")
     = Raises KeyError.
Proof.
  assert (Hb : Forall (fun comp => exists id, jgetitem comp (str "id") = Returns id)
                 [component "job_manager" "/tmp/jobs"]).
  { repeat constructor. eexists. reflexivity. }
  split; [eexists; split; reflexivity|]. split; [exact Hb|]. split; [reflexivity|].
  exact (update_resources_missing_id broken_resources _ (str "/ws/snapshots")
           (str "/ws/jobs") [component "job_manager" "/tmp/jobs"] []
           [(str "name", JStr (str "nameless"))] eq_refl eq_refl Hb eq_refl).
Defined.

Definition idle_resources : json :=
  JDict
    [(str "snapshot_persistor",
      JDict [(str "args",
              JDict [(str "storage",
                      JDict [(str "args", JDict [])])])]);
     (str "components", JList [component "resource_manager" ""])].

Lemma update_resources_no_job_manager_witness :
  (exists r1,
     jset_path idle_resources
       [str "snapshot_persistor"; str "args"; str "storage"; str "args"]
       (str "root_dir") (JStr (str "/ws/snapshots")) = Returns r1
     /\ jgetitem r1 (str "components")
        = Returns (JList [component "resource_manager" ""]))
  /\ Forall (fun comp => exists id,
               jgetitem comp (str "id") = Returns id
               /\ id <> JStr (str "job_manager"))
       [component "resource_manager" ""]
  /\ update_resources idle_resources (str "/ws/snapshots") (str "/ws/jobs")
     = Raises IndexError.
Proof.
  assert (Hb : Forall (fun comp => exists id,
                         jgetitem comp (str "id") = Returns id
                         /\ id <> JStr (str "job_manager"))
                 [component "resource_manager" ""]).
  { repeat constructor. eexists. split; [reflexivity|]. vm_compute. discriminate. }
  split; [eexists; split; reflexivity|]. split; [exact Hb|].
  exact (update_resources_no_job_manager idle_resources _ (str "/ws/snapshots")
           (str "/ws/jobs") [component "resource_manager" ""] eq_refl eq_refl Hb).
Defined.


(** * Passwords: generate_password *)

Section Passwords.

(** The generator of the [random] module, as a state, and the choice
    that [random.sample] makes with it: for a population of [n] and a
    sample of [k], the places of the elements that it takes, in the
    order in which it takes them. *)
Context {rng : Type} (random_choice : rng -> nat -> nat -> list nat * rng).

(** [random.sample(population, k)]: a sample larger than the population,
    or negative, is refused. *)
Definition random_sample {A} (population : list A) (k : Z)
  : rng -> result (list A) * rng :=
  fun g =>
    if ((k <? 0) || (Z.of_nat (length population) <? k))%Z
    then (Raise ValueError, g)
    else
      let (places, g') := random_choice g (length population) (Z.to_nat k) in
      (Ok (omap (fun i => population !! i) places), g').

Definition password_alphabet : pystr :=
  str "abcdefghijklmnopqrstuvwxyz01234567890ABCDEFGHIJKLMNOPQRSTUVWXYZ".

(** ["".join] of a list of characters is the text of these characters. *)
Definition generate_password (passlen : Z) : rng -> result pystr * rng :=
  fun g =>
    match random_sample password_alphabet passlen g with
    | (Ok p, g') => (Ok p, g')
    | (Raise e, g') => (Raise e, g')
    end.

End Passwords.

(** [random.sample] takes [k] different places of the population. *)
Definition sampling {rng : Type} (random_choice : rng -> nat -> nat -> list nat * rng)
  : Prop :=
  forall (g : rng) (n k : nat),
    (k <= n)%nat ->
    length (fst (random_choice g n k)) = k
    /\ NoDup (fst (random_choice g n k))
    /\ Forall (fun i => (i < n)%nat) (fst (random_choice g n k)).

(** How many times a character is in a text. *)
Definition occurrences (c : N) (s : pystr) : nat := length (filter (eq c) s).

Lemma occurrences_app (c : N) (s1 s2 : pystr) :
  occurrences c (s1 ++ s2) = (occurrences c s1 + occurrences c s2)%nat.
Proof. unfold occurrences. now rewrite list.filter_app, length_app. Qed.

Lemma occurrences_NoDup (c : N) (s : pystr) : NoDup s -> (occurrences c s <= 1)%nat.
Proof.
  unfold occurrences. induction 1 as [|x s Hx Hnd IH]; [cbn; lia|].
  rewrite list.filter_cons. destruct (decide (c = x)) as [->|Hne]; [|exact IH].
  cbn [length]. assert (filter (eq x) s = []) as ->; [|cbn; lia].
  destruct (filter (eq x) s) as [|y l] eqn:E; [reflexivity|]. exfalso.
  assert (Hy : y ∈ filter (eq x) s) by (rewrite E; left).
  apply list_elem_of_filter in Hy as [<- Hy]. contradiction.
Qed.

(** The elements taken at different places of a list occur among them no
    more often than in the list. *)
Lemma occurrences_sample (c : N) (s : pystr) (places : list nat) :
  NoDup places ->
  (occurrences c (omap (fun i => s !! i) places) <= occurrences c s)%nat.
Proof.
  revert places. induction s as [|x s IH]; intros places Hnd.
  - assert (omap (fun i => ([] : pystr) !! i) places = []) as ->; [|cbn; lia].
    induction places as [|i places IHp]; [reflexivity|]. cbn.
    apply NoDup_cons in Hnd as [_ Hnd]. auto.
  - (* the places other than 0, moved down by one, are places of [s] *)
    set (rest := omap (fun i => match i with O => None | S j => Some j end) places).
    assert (Hrest : NoDup rest).
    { unfold rest. clear IH. induction Hnd as [|i places Hi Hnd IHp]; [constructor|].
      cbn. destruct i as [|j]; [exact IHp|]. apply NoDup_cons. split; [|exact IHp].
      intros Hin. apply Hi. apply list_elem_of_omap in Hin as (i & Hin & Hj).
      destruct i as [|i]; [discriminate|]. injection Hj as ->. exact Hin. }
    assert (Hsplit :
      (occurrences c (omap (fun i => (x :: s) !! i) places)
       <= occurrences c (omap (fun i => s !! i) rest)
          + (if decide (c = x) then 1 else 0))%nat).
    { unfold rest. clear IH Hrest. induction Hnd as [|i places Hi Hnd IHp].
      - cbn. lia.
      - destruct i as [|j].
        + unfold occurrences in *. cbn [omap list_omap lookup list_lookup].
          rewrite list.filter_cons.
          assert (Hzero : 0%nat ∉ places) by exact Hi.
          assert (Hno : forall l : list nat, 0%nat ∉ l ->
                    omap (fun i => (x :: s) !! i) l
                    = omap (fun i => s !! i)
                        (omap (fun i => match i with O => None | S j => Some j end) l)).
          { clear. induction l as [|i l IHl]; intros Hl; [reflexivity|].
            apply not_elem_of_cons in Hl as [Hi Hl]. destruct i as [|j]; [congruence|].
            cbn. destruct (s !! j); cbn; now rewrite IHl. }
          rewrite (Hno _ Hzero).
          destruct (decide (c = x)); cbn [length]; lia.
        + cbn [omap list_omap lookup list_lookup].
          destruct (s !! j) as [y|] eqn:Hy; cbn [omap list_omap]; [|exact IHp].
          unfold occurrences in *. rewrite !list.filter_cons.
          destruct (decide (c = y)); cbn [length]; lia. }
    specialize (IH rest Hrest). unfold occurrences in *. rewrite list.filter_cons.
    destruct (decide (c = x)); cbn [length]; lia.
Qed.

Lemma omap_lookup_length {A} (s : list A) (places : list nat) :
  Forall (fun i => (i < length s)%nat) places ->
  length (omap (fun i => s !! i) places) = length places.
Proof.
  induction 1 as [|i places Hi _ IH]; [reflexivity|]. cbn.
  destruct (lookup_lt_is_Some_2 s i Hi) as [x ->]. cbn. now rewrite IH.
Qed.

Lemma omap_lookup_elem_of {A} (s : list A) (places : list nat) (x : A) :
  x ∈ omap (fun i => s !! i) places -> x ∈ s.
Proof.
  intros Hx. apply list_elem_of_omap in Hx as (i & _ & Hi).
  eapply list_elem_of_lookup_2; eauto.
Qed.

Lemma password_alphabet_occurrences (c : N) :
  (occurrences c password_alphabet <= if decide (c = 0x30%N) then 2 else 1)%nat.
Proof.
  change password_alphabet
    with (str "abcdefghijklmnopqrstuvwxyz0123456789" ++ [0x30]
          ++ str "ABCDEFGHIJKLMNOPQRSTUVWXYZ").
  assert (H1 : NoDup (str "abcdefghijklmnopqrstuvwxyz0123456789"))
    by (apply (bool_decide_unpack _); vm_compute; reflexivity).
  assert (H2 : NoDup (str "abcdefghijklmnopqrstuvwxyz123456789"
                      ++ [0x30] ++ str "ABCDEFGHIJKLMNOPQRSTUVWXYZ"))
    by (apply (bool_decide_unpack _); vm_compute; reflexivity).
  destruct (decide (c = 0x30)) as [->|Hne].
  - rewrite occurrences_app.
    pose proof (occurrences_NoDup 0x30 _ H1).
    assert (occurrences 0x30 ([0x30%N] ++ str "ABCDEFGHIJKLMNOPQRSTUVWXYZ") <= 1)%nat.
    { apply occurrences_NoDup. apply (bool_decide_unpack _). vm_compute. reflexivity. }
    lia.
  - pose proof (occurrences_NoDup c _ H2) as H.
    change (str "abcdefghijklmnopqrstuvwxyz0123456789")
      with (str "abcdefghijklmnopqrstuvwxyz" ++ [0x30] ++ str "123456789").
    change (str "abcdefghijklmnopqrstuvwxyz123456789")
      with (str "abcdefghijklmnopqrstuvwxyz" ++ str "123456789") in H.
    rewrite !occurrences_app in *.
    assert (occurrences c [0x30%N] = 0%nat).
    { unfold occurrences. rewrite list.filter_cons, decide_False by assumption.
      reflexivity. }
    lia.
Qed.

(** X27. A password has the length that was asked for, when it is between 0
    and 63; it is made of the letters and digits of the alphabet, each
    letter and digit at most once, but for the digit 0, which the
    alphabet has twice and a password may have twice. *)
Theorem generate_password_shape {rng : Type}
    (random_choice : rng -> nat -> nat -> list nat * rng)
    (passlen : Z) (g : rng) :
  sampling random_choice ->
  (0 <= passlen <= 63)%Z ->
  exists p g',
    generate_password random_choice passlen g = (Ok p, g')
    /\ Z.of_nat (length p) = passlen
    /\ (forall c, c ∈ p -> c ∈ password_alphabet)
    /\ (forall c, (occurrences c p <= if decide (c = 0x30%N) then 2 else 1)%nat).
Proof.
  intros Hs Hlen. unfold generate_password, random_sample.
  assert (Hn : length password_alphabet = 63%nat) by reflexivity.
  rewrite Hn.
  destruct (Z.ltb_spec passlen 0) as [?|_]; [lia|].
  destruct (Z.ltb_spec (Z.of_nat 63) passlen) as [?|_]; [lia|]. cbn [orb].
  destruct (Hs g 63%nat (Z.to_nat passlen) ltac:(lia)) as (Hl & Hnd & Hlt).
  destruct (random_choice g 63%nat (Z.to_nat passlen)) as [places g'].
  cbn [fst] in *. eexists _, g'. split; [reflexivity|]. split; [|split].
  - rewrite omap_lookup_length by (now rewrite Hn). lia.
  - intros c. apply omap_lookup_elem_of.
  - intros c. etransitivity; [apply occurrences_sample, Hnd|].
    apply password_alphabet_occurrences.
Qed.

(** X28. No password is longer than the 63 characters of the alphabet: a
    longer one, or a negative length, raises [ValueError], and the
    generator is not used. *)
Theorem generate_password_too_long {rng : Type}
    (random_choice : rng -> nat -> nat -> list nat * rng)
    (passlen : Z) (g : rng) :
  (passlen < 0 \/ 63 < passlen)%Z ->
  generate_password random_choice passlen g = (Raise ValueError, g).
Proof.
  intros Hlen. unfold generate_password, random_sample.
  assert (Hn : length password_alphabet = 63%nat) by reflexivity.
  rewrite Hn.
  destruct (Z.ltb_spec passlen 0) as [?|?]; [reflexivity|].
  destruct (Z.ltb_spec (Z.of_nat 63) passlen) as [?|?]; [reflexivity|]. lia.
Qed.

(** ** A generator to run the examples on: it takes the places from the
    state on, and moves the state by one. *)
Definition toy_choice (g n k : nat) : list nat * nat :=
  (map (fun i => (i + g) mod n)%nat (seq 0 k), S g).

Lemma toy_choice_sampling : sampling toy_choice.
Proof.
  intros g n k Hk. cbn [toy_choice fst]. split; [|split].
  - now rewrite length_map, length_seq.
  - apply NoDup_fmap_2_strong; [|apply NoDup_seq].
    intros i j Hi Hj Heq. apply elem_of_seq in Hi, Hj.
    destruct (decide (n = 0%nat)) as [->|Hn]; [lia|].
    assert (Hmod : forall a b, (a < n)%nat -> (b < n)%nat -> (a <= b)%nat ->
                     ((a + g) mod n = (b + g) mod n)%nat -> a = b).
    { intros a b Ha Hb Hab E.
      assert (Hd : ((b - a) mod n = 0)%nat).
      { replace (b + g)%nat with ((b - a) + (a + g))%nat in E by lia.
        rewrite (Nat.Div0.add_mod (b - a)) in E.
        pose proof (Nat.mod_upper_bound (a + g) n Hn) as U1.
        pose proof (Nat.mod_upper_bound (b - a) n Hn) as U2.
        set (x := ((a + g) mod n)%nat) in *. set (y := ((b - a) mod n)%nat) in *.
        destruct (decide (y + x < n)%nat) as [Hlt|Hge].
        - rewrite (Nat.mod_small (y + x)) in E by lia. lia.
        - assert (E' : ((y + x) mod n = y + x - n)%nat).
          { replace (y + x)%nat with (y + x - n + 1 * n)%nat at 1 by lia.
            rewrite Nat.Div0.mod_add. apply Nat.mod_small. lia. }
          lia. }
      rewrite Nat.mod_small in Hd by lia. lia. }
    destruct (Nat.le_ge_cases i j) as [Hle|Hle].
    + apply Hmod; [lia|lia|exact Hle|exact Heq].
    + symmetry. apply Hmod; [lia|lia|exact Hle|now symmetry].
  - apply list.Forall_forall. intros i Hi.
    apply list_elem_of_fmap in Hi as (j & -> & Hj). apply elem_of_seq in Hj.
    apply Nat.mod_upper_bound. lia.
Qed.

Example generate_password_default :
  fst (generate_password toy_choice 16 26%nat) = Ok (str "01234567890ABCDE").
Proof. vm_compute. reflexivity. Qed.

Lemma generate_password_shape_witness :
  sampling toy_choice
  /\ (0 <= 16 <= 63)%Z
  /\ exists p g',
       generate_password toy_choice 16 26%nat = (Ok p, g')
       /\ Z.of_nat (length p) = 16%Z
       /\ (forall c, c ∈ p -> c ∈ password_alphabet)
       /\ (forall c, (occurrences c p <= if decide (c = 0x30%N) then 2 else 1)%nat).
Proof.
  split; [exact toy_choice_sampling|]. split; [lia|].
  apply (generate_password_shape toy_choice 16%Z 26%nat toy_choice_sampling). lia.
Defined.

Lemma generate_password_too_long_witness :
  (64 < 0 \/ 63 < 64)%Z
  /\ generate_password toy_choice 64 0%nat = (Raise ValueError, 0%nat).
Proof.
  split; [right; lia|].
  apply (generate_password_too_long toy_choice 64%Z 0%nat). right. lia.
Defined.
